(** * ServerBot: the WebSocket bridge, the player registry and the
    multiplier resolution, embedded from the TypeScript sources.

    - [src/playerList.ts]       : modules [PlayerListV1] and [PlayerList]
    - [src/commands/profile.ts] : module [Profile] ([getMultiplierInfo])
    - [src/services/ws.ts]      : module [Ws] (handlers and dispatcher)

    Collaborators whose sources are not part of the development (the Prisma
    store, [CodeStorage], [mergeUsers], [Leveling], the Discord client, the
    HTTP token validator) are modelled as small tables or taken from an
    explicit environment record [Ws.Env].  Definitions come first, the
    lemmas and theorems about them follow. *)

From Stdlib Require Import String Ascii ZArith QArith Lqa List Lia Permutation Sorted DecimalString.
From stdpp Require Import base list gmap strings.

Open Scope string_scope.

(* ================================================================== *)
(** * JavaScript preliminaries *)
(* ================================================================== *)

Module Js.

(** Truthiness of a string value: only the empty string is falsy. *)
Definition truthy_str (s : string) : bool := negb (String.eqb s "").

(** Truthiness of an optional string field ([undefined] is falsy). *)
Definition truthy (o : option string) : bool :=
  match o with
  | Some s => truthy_str s
  | None => false
  end.

(** A template literal renders an absent value as ["undefined"]. *)
Definition render (o : option string) : string :=
  match o with
  | Some s => s
  | None => "undefined"
  end.

(** [String(n)] for a non-negative integer (an array length). *)
Definition render_nat (n : nat) : string :=
  NilEmpty.string_of_uint (Nat.to_uint n).

(** A thrown [Error] value. *)
Record Error := mkError { err_name : string; err_message : string }.

(** [Error.prototype.toString], used by [`${error}`]. *)
Definition error_toString (e : Error) : string :=
  if String.eqb (err_name e) "" then err_message e
  else if String.eqb (err_message e) "" then err_name e
  else err_name e +:+ ": " +:+ err_message e.

(** [String.prototype.toLowerCase] is a builtin with the case mapping of
    Unicode; the code that calls it takes it as a parameter.  On strings
    of ASCII characters it lowers [A]-[Z] and leaves the rest, which is
    what [ascii_toLowerCase] does: the instance that the sample data, all
    ASCII, is run with. *)
Definition lower_ascii (c : ascii) : ascii :=
  let n := nat_of_ascii c in
  if (65 <=? n)%nat && (n <=? 90)%nat then ascii_of_nat (n + 32) else c.

Fixpoint ascii_toLowerCase (s : string) : string :=
  match s with
  | EmptyString => EmptyString
  | String c r => String (lower_ascii c) (ascii_toLowerCase r)
  end.

(** The outcome of evaluating code that may throw. *)
Inductive outcome (A : Type) : Type :=
| Ret (a : A)
| Throw (e : Error).
Arguments Ret {A} a.
Arguments Throw {A} e.

End Js.

(* ================================================================== *)
(** * The profile record held by the store and cached by the registry *)
(* ================================================================== *)

(** The [User] row of the store, with the columns the sources read
    ([id], [username], [xp], [level], [balance], [streak],
    [lastClaimedDaily], [createdAt]). *)
Record User := mkUser {
  user_id : Z;
  username : string;
  xp : Z;
  level : Z;
  balance : Z;
  streak : Z;
  lastClaimedDaily : option Z;
  createdAt : Z
}.

(** [Partial<User>]: every column may be absent. *)
Record PartialUser := mkPartial {
  p_id : option Z;
  p_username : option string;
  p_xp : option Z;
  p_level : option Z;
  p_balance : option Z;
  p_streak : option Z;
  p_lastClaimedDaily : option (option Z);
  p_createdAt : option Z
}.

(** [{ ...existing, ...updates }] *)
Definition spread_user (existing : User) (updates : PartialUser) : User :=
  {| user_id := default (user_id existing) (p_id updates);
     username := default (username existing) (p_username updates);
     xp := default (xp existing) (p_xp updates);
     level := default (level existing) (p_level updates);
     balance := default (balance existing) (p_balance updates);
     streak := default (streak existing) (p_streak updates);
     lastClaimedDaily :=
       default (lastClaimedDaily existing) (p_lastClaimedDaily updates);
     createdAt := default (createdAt existing) (p_createdAt updates) |}.

(* ================================================================== *)
(** * [Map<string, User>]: an insertion-ordered map *)
(* ================================================================== *)

Module JsMap.

(** Entries in insertion order; [set] keeps keys unique. *)
Definition t := list (string * User).

Fixpoint get (k : string) (m : t) : option User :=
  match m with
  | [] => None
  | (k', v) :: r => if String.eqb k k' then Some v else get k r
  end.

(** [Map.prototype.set]: an existing key keeps its position, a new key
    goes to the end. *)
Fixpoint set (k : string) (v : User) (m : t) : t :=
  match m with
  | [] => [(k, v)]
  | (k', v') :: r =>
      if String.eqb k k' then (k', v) :: r else (k', v') :: set k v r
  end.

Definition has (k : string) (m : t) : bool :=
  match get k m with Some _ => true | None => false end.

Fixpoint remove (k : string) (m : t) : t :=
  match m with
  | [] => []
  | (k', v) :: r => if String.eqb k k' then r else (k', v) :: remove k r
  end.

(** [Map.prototype.delete] returns whether the key was present. *)
Definition delete (k : string) (m : t) : bool * t := (has k m, remove k m).

Definition values (m : t) : list User := map snd m.

End JsMap.

(* ================================================================== *)
(** * The object heap shared by the registry and its callers *)
(* ================================================================== *)

(** [Map] objects live in a heap and are handed around by reference, so
    that a caller holding the reference of the registry's own map mutates
    the registry.  [players] is the reference kept in the private static
    field of the class. *)
Module Heap.

Definition ref := nat.

Record State := mkState {
  heap : list JsMap.t;
  players : ref
}.

(** The state after class initialisation:
    [private static players = new Map<string, User>()]. *)
Definition init : State := {| heap := [[]]; players := 0 |}.

Definition deref (r : ref) (st : State) : JsMap.t :=
  default [] (heap st !! r).

Definition assign (r : ref) (m : JsMap.t) (st : State) : State :=
  {| heap := <[r := m]> (heap st); players := players st |}.

(** [new Map(...)]: a fresh object at the next free reference. *)
Definition alloc (m : JsMap.t) (st : State) : ref * State :=
  (length (heap st), {| heap := heap st ++ [m]; players := players st |}).

(** The static field refers to an allocated object. *)
Definition wf (st : State) : Prop := players st < length (heap st).

(** What a caller can do to the entries of a [Map] it holds. *)
Inductive MapOp :=
| MSet (k : string) (v : User)
| MDelete (k : string)
| MClear.

Definition map_op (op : MapOp) (m : JsMap.t) : JsMap.t :=
  match op with
  | MSet k v => JsMap.set k v m
  | MDelete k => snd (JsMap.delete k m)
  | MClear => []
  end.

Definition mutate (r : ref) (op : MapOp) (st : State) : State :=
  assign r (map_op op (deref r st)) st.

Definition mutate_all (r : ref) (ops : list MapOp) (st : State) : State :=
  fold_left (fun s op => mutate r op s) ops st.

End Heap.

(* ================================================================== *)
(** * [PlayerList], first revision (src/playerList.ts, lines 1-71) *)
(* ================================================================== *)

Module PlayerListV1.
Import Heap.

Definition getPlayerBySteamID (steamId : string) (st : State)
  : option User :=
  JsMap.get steamId (deref (players st) st).

Definition addPlayerBySteamID (steamId : string) (user : User)
    (st : State) : State :=
  assign (players st) (JsMap.set steamId user (deref (players st) st)) st.

(** [return this.players;] : the registry's own object. *)
Definition getPlayerList (st : State) : ref * State := (players st, st).

End PlayerListV1.

(* ================================================================== *)
(** * [PlayerList], current revision (src/playerList.ts, lines 72-191).
      This is the class [ws.ts] calls (it has [addPlayer]); the revision
      in between has the same [getPlayerList]. *)
(* ================================================================== *)

Module PlayerList.
Import Heap.

Definition this_players (st : State) : JsMap.t := deref (players st) st.

Definition set_players (m : JsMap.t) (st : State) : State :=
  assign (players st) m st.

(** [this.players.get(steamId) || null] (a [User] object is truthy). *)
Definition getPlayerBySteamID (steamId : string) (st : State)
  : option User :=
  JsMap.get steamId (this_players st).

(** [[...this.players.values()]] *)
Definition getAllPlayers (st : State) : list User :=
  JsMap.values (this_players st).

(** [return new Map(this.players);] : a fresh object with the same
    entries (the [User] values themselves are shared). *)
Definition getPlayerList (st : State) : ref * State :=
  alloc (this_players st) st.

Section WithLowerCase.

(** [String.prototype.toLowerCase] *)
Variable toLowerCase : string -> string.

Definition name_matches (lowerUsername : string) (u : User) : bool :=
  String.eqb (toLowerCase (username u)) lowerUsername.

Definition getPlayerByUsername (name : string) (st : State)
  : option User :=
  let lowerUsername := toLowerCase name in
  List.find (name_matches lowerUsername) (JsMap.values (this_players st)).

Definition addPlayer (steamId : string) (user : User) (st : State)
  : State :=
  set_players (JsMap.set steamId user (this_players st)) st.

Definition updatePlayerBySteamID (steamId : string) (updates : PartialUser)
    (st : State) : bool * State :=
  match JsMap.get steamId (this_players st) with
  | None => (false, st)
  | Some existingPlayer =>
      let updatedPlayer := spread_user existingPlayer updates in
      (true,
       set_players (JsMap.set steamId updatedPlayer (this_players st)) st)
  end.

Definition find_entry (lowerUsername : string) (m : JsMap.t)
  : option (string * User) :=
  List.find (fun kv => name_matches lowerUsername (snd kv)) m.

Definition updatePlayerByUsername (name : string) (updates : PartialUser)
    (st : State) : bool * State :=
  let lowerUsername := toLowerCase name in
  match find_entry lowerUsername (this_players st) with
  | Some (steamId, user) =>
      let updatedPlayer := spread_user user updates in
      (true,
       set_players (JsMap.set steamId updatedPlayer (this_players st)) st)
  | None => (false, st)
  end.

Definition removePlayerBySteamID (steamId : string) (st : State)
  : bool * State :=
  let '(b, m) := JsMap.delete steamId (this_players st) in
  (b, set_players m st).

Definition removePlayerByUsername (name : string) (st : State)
  : bool * State :=
  let lowerUsername := toLowerCase name in
  match find_entry lowerUsername (this_players st) with
  | Some (steamId, _) => removePlayerBySteamID steamId st
  | None => (false, st)
  end.

(** The public interface, reified, to speak about any later registry
    operation. *)
Inductive Call :=
| CGetPlayerBySteamID (steamId : string)
| CGetAllPlayers
| CGetPlayerList
| CGetPlayerByUsername (name : string)
| CAddPlayer (steamId : string) (user : User)
| CUpdatePlayerBySteamID (steamId : string) (updates : PartialUser)
| CUpdatePlayerByUsername (name : string) (updates : PartialUser)
| CRemovePlayerBySteamID (steamId : string)
| CRemovePlayerByUsername (name : string).

(** What the caller sees of a call: the returned value; for a returned
    [Map], its reference and its entries. *)
Inductive Result :=
| RUser (u : option User)
| RUsers (l : list User)
| RMap (r : ref) (entries : JsMap.t)
| RBool (b : bool)
| RVoid.

Definition run (c : Call) (st : State) : Result * State :=
  match c with
  | CGetPlayerBySteamID k => (RUser (getPlayerBySteamID k st), st)
  | CGetAllPlayers => (RUsers (getAllPlayers st), st)
  | CGetPlayerList =>
      let '(r, st') := getPlayerList st in (RMap r (deref r st'), st')
  | CGetPlayerByUsername n => (RUser (getPlayerByUsername n st), st)
  | CAddPlayer k u => (RVoid, addPlayer k u st)
  | CUpdatePlayerBySteamID k up =>
      let '(b, st') := updatePlayerBySteamID k up st in (RBool b, st')
  | CUpdatePlayerByUsername n up =>
      let '(b, st') := updatePlayerByUsername n up st in (RBool b, st')
  | CRemovePlayerBySteamID k =>
      let '(b, st') := removePlayerBySteamID k st in (RBool b, st')
  | CRemovePlayerByUsername n =>
      let '(b, st') := removePlayerByUsername n st in (RBool b, st')
  end.

Fixpoint run_all (cs : list Call) (st : State) : list Result * State :=
  match cs with
  | [] => ([], st)
  | c :: cs' =>
      let '(r, st1) := run c st in
      let '(rs, st2) := run_all cs' st1 in
      (r :: rs, st2)
  end.

End WithLowerCase.

(** Two states between which the registry cannot tell the difference. *)
Definition agree (s1 s2 : State) : Prop :=
  players s1 = players s2
  /\ length (heap s1) = length (heap s2)
  /\ players s1 < length (heap s1)
  /\ this_players s1 = this_players s2.

End PlayerList.

(* ================================================================== *)
(** * [getMultiplierInfo] (src/commands/profile.ts, lines 197-228) *)
(* ================================================================== *)

(** Multipliers are JavaScript numbers.  The function only compares them
    ([> 1], [Math.max], the sign of a difference), which on finite values
    is the order of the rationals, so they are embedded as [Q]. *)
Module Profile.

(** A guild role as far as the function reads it. *)
Record Role := mkRole { role_id : string; role_name : string }.

(** [member.roles.cache], in iteration order. *)
Record GuildMember := mkMember { roles_cache : list Role }.

Record RoleEntry := mkEntry { name : string; entry_multiplier : Q }.

Record MultiplierInfo := mkInfo {
  multiplier : Q;
  roles : list RoleEntry
}.

(** Truthiness of a number: zero is falsy. *)
Definition truthy_num (x : Q) : bool := negb (Qeq_bool x 0).

Definition gt (x y : Q) : bool := negb (Qle_bool x y).

(** [Math.max] on two numbers. *)
Definition Math_max (x y : Q) : Q := if Qle_bool x y then y else x.

(** [Array.prototype.sort(compare)]: the sort is stable, [compare a b <= 0]
    keeps [a] before [b]. *)
Fixpoint sort_insert {A} (compare : A -> A -> Q) (x : A) (l : list A)
  : list A :=
  match l with
  | [] => [x]
  | y :: r =>
      if Qle_bool (compare x y) 0 then x :: y :: r
      else y :: sort_insert compare x r
  end.

Definition Array_sort {A} (compare : A -> A -> Q) (l : list A) : list A :=
  fold_right (sort_insert compare) [] l.

(** The comparator handed to [sort]:
    [(a, b) => b.multiplier - a.multiplier]. *)
Definition by_factor (a b : RoleEntry) : Q :=
  (entry_multiplier b - entry_multiplier a)%Q.

(** The body of the [forEach] callback, on the pair
    ([roles], [highestMultiplier]). *)
Definition visit (roleMultipliers : gmap string Q)
    (acc : list RoleEntry * Q) (role : Role) : list RoleEntry * Q :=
  let '(roles, highestMultiplier) := acc in
  match roleMultipliers !! role_id role with
  | Some multiplier =>
      if truthy_num multiplier && gt multiplier 1 then
        ((roles ++ [ {| name := role_name role;
                        entry_multiplier := multiplier |} ])%list,
         Math_max highestMultiplier multiplier)
      else acc
  | None => acc
  end.

(** [roleMultipliers] is [Leveling.roleMultipliers], a table that is not
    part of the sources at hand: it is a parameter. *)
Definition getMultiplierInfo (roleMultipliers : gmap string Q)
    (member : option GuildMember) : MultiplierInfo :=
  match member with
  | None => {| multiplier := 1; roles := [] |}
  | Some member =>
      let '(roles, highestMultiplier) :=
        fold_left (visit roleMultipliers) (roles_cache member) ([], 1%Q) in
      {| multiplier := highestMultiplier;
         roles := Array_sort by_factor roles |}
  end.

(** The roles of a member that grant a factor greater than 1, in the
    order of the role cache: "the contributing roles" of the
    specification. *)
Definition boost_of (roleMultipliers : gmap string Q) (role : Role)
  : option RoleEntry :=
  match roleMultipliers !! role_id role with
  | Some f =>
      if Qlt_le_dec 1 f
      then Some {| name := role_name role; entry_multiplier := f |}
      else None
  | None => None
  end.

Definition contributing (roleMultipliers : gmap string Q)
    (member : option GuildMember) : list RoleEntry :=
  match member with
  | None => []
  | Some member => omap (boost_of roleMultipliers) (roles_cache member)
  end.

(** Descending by factor. *)
Definition descending : list RoleEntry -> Prop :=
  StronglySorted (fun a b => (entry_multiplier b <= entry_multiplier a)%Q).

End Profile.

(* ================================================================== *)
(** * Collaborators of the bridge *)
(* ================================================================== *)

Module CodeStorage.

(** Modelled from the spec: the pairing-code storage ([../codeStorage] is
    not among the sources).  "PendingLinkCode: maps a short-lived code to
    the Identity that generated it; single-use, explicitly invalidated on
    successful merge."  The two operations are the ones [ws.ts] calls:
    [getUser(code)] and [deleteCode(discordId)], the latter keyed by the
    identity, as the call site passes it. *)
Definition getUser (code : string) (codes : gmap string string)
  : option string :=
  codes !! code.

(** Modelled from the spec: invalidation of the pending codes generated by
    one identity. *)
Definition deleteCode (userId : string) (codes : gmap string string)
  : gmap string string :=
  filter (fun kv => snd kv <> userId) codes.

End CodeStorage.

Module Db.

Inductive Platform := STEAM | DISCORD.

Definition Platform_eqb (a b : Platform) : bool :=
  match a, b with
  | STEAM, STEAM | DISCORD, DISCORD => true
  | _, _ => false
  end.

(** An [Account] row: one external identity and the profile owning it. *)
Record Account := mkAccount {
  platform : Platform;
  platformId : string;
  account_username : string;
  userId : Z
}.

(** Modelled from the spec: the store collaborator (the Prisma schema and
    client are not among the sources), as two tables and the next free
    profile id.  The columns that [ws.ts] does not set on creation take
    the defaults of the schema, which are parameters. *)
Record t := mkDb {
  users : list User;
  accounts : list Account;
  next_id : Z
}.

Record Defaults := mkDefaults {
  default_balance : Z;
  default_streak : Z;
  default_createdAt : Z
}.

Definition user_by_id (id : Z) (db : t) : option User :=
  List.find (fun u => Z.eqb (user_id u) id) (users db).

Definition accounts_of (id : Z) (db : t) : list Account :=
  List.filter (fun a => Z.eqb (userId a) id) (accounts db).

Definition is_identity (p : Platform) (pid : string) (a : Account) : bool :=
  Platform_eqb (platform a) p && String.eqb (platformId a) pid.

(** [prisma.account.findUnique({ where: { platform_platformId },
    include: { user: true } })] *)
Definition account_findUnique (p : Platform) (pid : string) (db : t)
  : option (Account * option User) :=
  match List.find (is_identity p pid) (accounts db) with
  | Some a => Some (a, user_by_id (userId a) db)
  | None => None
  end.

(** [prisma.user.create({ data: { username, accounts: { create: {...} },
    xp: 0, level: 1 } })] *)
Definition user_create (d : Defaults) (name steamId : string)
    (xp0 level0 : Z) (db : t) : User * t :=
  let user :=
    {| user_id := next_id db; username := name; xp := xp0; level := level0;
       balance := default_balance d; streak := default_streak d;
       lastClaimedDaily := None; createdAt := default_createdAt d |} in
  (user,
   {| users := users db ++ [user];
      accounts :=
        accounts db ++
        [ {| platform := STEAM; platformId := steamId;
             account_username := name; userId := next_id db |} ];
      next_id := next_id db + 1 |}).

(** [orderBy: { platform: 'asc' }], Steam first as the source comments. *)
Definition order_accounts (l : list Account) : list Account :=
  (List.filter (fun a => Platform_eqb (platform a) STEAM) l ++
   List.filter (fun a => Platform_eqb (platform a) DISCORD) l)%list.

(** [prisma.user.findMany({ where: { accounts: { some: { OR: [...] } } },
    include: { accounts: ... } })] *)
Definition user_findMany (steamId discordId : string) (db : t)
  : list (User * list Account) :=
  map (fun u => (u, order_accounts (accounts_of (user_id u) db)))
      (List.filter
         (fun u =>
            existsb
              (fun a => is_identity STEAM steamId a
                        || is_identity DISCORD discordId a)
              (accounts_of (user_id u) db))
         (users db)).

(** [prisma.user.findFirst({ where: { accounts: { some: { platformId } } } })] *)
Definition user_findFirst (pid : string) (db : t) : option User :=
  List.find
    (fun u =>
       existsb (fun a => String.eqb (platformId a) pid)
               (accounts_of (user_id u) db))
    (users db).

End Db.

(* ================================================================== *)
(** * The bridge (src/services/ws.ts) *)
(* ================================================================== *)

Module Ws.
Import Js.

(** ** Messages *)

(** [content?: string | null] *)
Inductive Content :=
| CAbsent
| CNull
| CString (s : string).

(** [interface WebsocketMessage], as [JSON.parse] delivers it: no field is
    checked at run time, so [type] may be missing as well. *)
Record WebsocketMessage := mkMessage {
  type : option string;
  steamId : option string;
  token : option string;
  content : Content;
  correlationId : option string
}.

Definition content_str (c : Content) : option string :=
  match c with
  | CString s => Some s
  | _ => None
  end.

(** A text frame, after [JSON.parse(message)]: the parse throws, or gives
    a message object. *)
Inductive Frame :=
| Malformed (e : Error)
| Parsed (data : WebsocketMessage).

(** Values of the properties of the objects that are sent. *)
Inductive JsVal :=
| VStr (s : string)
| VBool (b : bool)
| VUserJson (u : User).   (* the text [JSON.stringify(user)] *)

(** An object that is written to the socket, as the JSON object it is
    serialised to: a finite map from property names to values. *)
Abbreviation Obj := (gmap string JsVal).

(** ** The world the bridge runs in *)

Inductive Event :=
(* [Logging.log] *)
| LogAuthFailed
| LogReceived (type : option string) (content : string)
| LogSent (correlationId : string) (type : option string)
| LogUnhandled (type : option string)
| LogError (message : string)
(* [console.log], [console.error] *)
| ConsoleHttpNotOk
| ConsoleInvalidCode
| ConsoleCannotMerge (found : nat)
| ConsoleDmError (e : Error)
| ConsoleError (e : Error)
(* calls that leave the module *)
| CallAuthenticate (steamId token : string)
| CallHandler (type : string)
| CallMergeUsers (steam_user discord_user : Z)
| CallGiveXP (userId : string) (xpAmount : option string)
| CallDmFetch (discordUserId : string)
| CallDmSend (discordUserId : string).

Record World := mkWorld {
  db : Db.t;
  codes : gmap string string;
  registry : Heap.State;
  conn_open : bool;
  sent : list Obj;
  events : list Event
}.

(** [interface AuthValidationResponse] *)
Record AuthValidationResponse := mkAuth {
  auth_steamId : Z;
  auth_status : string
}.

(** The answer of the token validator: [response.ok] and the outcome of
    [response.json()] ([None] stands for a JSON value that is falsy). *)
Record HttpResponse := mkHttp {
  ok : bool;
  json : outcome (option AuthValidationResponse)
}.

(** [{ success, message }], what [mergeUsers] resolves to. *)
Record MergeResponse := mkMerge {
  merge_success : bool;
  merge_message : string
}.

Inductive PrismaCall :=
| AccountFindUnique (p : Db.Platform) (platformId : string)
| UserCreate (username steamId : string)
| UserFindMany (steamId discordId : string)
| UserFindFirst (platformId : string).

(** What lies outside the sources at hand.  [prisma_fault] tells
    when a store call rejects; [mergeUsers] and [Leveling_giveXP] work on
    the store; [Leveling_giveXP] yields the truthiness of the value that
    the call returns (the call is not awaited, and a promise is truthy);
    [discord_fetch] tells when [client.users.fetch] rejects. *)
Record Env := mkEnv {
  fetch_auth : string -> string -> outcome HttpResponse;
  prisma_fault : PrismaCall -> Db.t -> option Error;
  schema_defaults : Db.Defaults;
  mergeUsers : Z -> Z -> Db.t -> outcome MergeResponse * Db.t;
  Leveling_giveXP : string -> option string -> Db.t -> outcome bool * Db.t;
  discord_fetch : string -> option Error
}.

(** ** State and exceptions *)

Definition M (A : Type) : Type := World -> outcome A * World.

Definition ret {A} (a : A) : M A := fun w => (Ret a, w).

Definition throw {A} (e : Error) : M A := fun w => (Throw e, w).

Definition bind {A B} (m : M A) (k : A -> M B) : M B :=
  fun w =>
    match m w with
    | (Ret a, w') => k a w'
    | (Throw e, w') => (Throw e, w')
    end.

(** [try { m } catch (error) { h error }] *)
Definition try_catch {A} (m : M A) (h : Error -> M A) : M A :=
  fun w =>
    match m w with
    | (Ret a, w') => (Ret a, w')
    | (Throw e, w') => h e w'
    end.

Declare Scope js_scope.
Delimit Scope js_scope with js.
Notation "x <- m ;; k" := (bind m (fun x => k))
  (at level 100, m at next level, right associativity) : js_scope.
Notation "m ;; k" := (bind m (fun _ => k))
  (at level 100, right associativity) : js_scope.
Open Scope js_scope.

Definition emit (e : Event) : M unit :=
  fun w =>
    (Ret tt,
     {| db := db w; codes := codes w; registry := registry w;
        conn_open := conn_open w; sent := sent w;
        events := events w ++ [e] |}).

Definition with_db (w : World) (d : Db.t) : World :=
  {| db := d; codes := codes w; registry := registry w;
     conn_open := conn_open w; sent := sent w; events := events w |}.

Definition with_codes (w : World) (c : gmap string string) : World :=
  {| db := db w; codes := c; registry := registry w;
     conn_open := conn_open w; sent := sent w; events := events w |}.

Definition with_registry (w : World) (r : Heap.State) : World :=
  {| db := db w; codes := codes w; registry := r;
     conn_open := conn_open w; sent := sent w; events := events w |}.

Definition gets {A} (f : World -> A) : M A := fun w => (Ret (f w), w).

Definition set_codes (c : gmap string string) : M unit :=
  fun w => (Ret tt, with_codes w c).

Definition set_registry (r : Heap.State) : M unit :=
  fun w => (Ret tt, with_registry w r).

(** A collaborator that works on the store. *)
Definition on_db {A} (f : Db.t -> outcome A * Db.t) : M A :=
  fun w => let '(r, d) := f (db w) in (r, with_db w d).

(** [ws.send(json)]: the frame goes out on an open connection and is
    dropped on a closed one. *)
Definition ws_send (o : Obj) : M unit :=
  fun w =>
    (Ret tt,
     if conn_open w then
       {| db := db w; codes := codes w; registry := registry w;
          conn_open := conn_open w; sent := sent w ++ [o];
          events := events w |}
     else w).

(** A computation that leaves one component [f] of the world alone,
    whether it returns or throws. *)
Definition preserves {A B} (f : World -> B) (m : M A) : Prop :=
  forall w, f (snd (m w)) = f w.

(** A computation that neither writes to the socket nor closes it. *)
Definition keeps_connection {A} (m : M A) : Prop :=
  preserves sent m /\ preserves conn_open m.

(** [w] with some more events. *)
Definition log_append (w : World) (l : list Event) : World :=
  {| db := db w; codes := codes w; registry := registry w;
     conn_open := conn_open w; sent := sent w;
     events := events w ++ l |}.

Section WithEnv.
Variable env : Env.

(** A call of the Prisma client: it rejects when the environment says so,
    and otherwise runs on the tables. *)
Definition prisma {A} (c : PrismaCall) (run : Db.t -> A * Db.t) : M A :=
  fun w =>
    match prisma_fault env c (db w) with
    | Some e => (Throw e, w)
    | None => let '(a, d) := run (db w) in (Ret a, with_db w d)
    end.

Definition query {A} (f : Db.t -> A) : Db.t -> A * Db.t :=
  fun d => (f d, d).

(** ** The handler table *)

(** What a handler resolves to, or what an inherited function returns. *)
Inductive Result :=
| RObj (o : Obj)
| RUndefined
| RBoolean (b : bool)
| RString (s : string)
| RHandlerTable.

Definition malformed : Result :=
  RObj {[ "success" := VBool false;
          "content" := VStr "Malformed content received." ]}.

Definition getUser_steam (data : WebsocketMessage) : M Result :=
  try_catch
    (match content_str (content data), steamId data with
     | Some username, Some steamId =>
         if truthy_str username && truthy_str steamId then
           account <- prisma (AccountFindUnique Db.STEAM steamId)
                        (query (Db.account_findUnique Db.STEAM steamId)) ;;
           user <- match account with
                   | Some (_, Some user) => ret user
                   | _ =>
                       prisma (UserCreate username steamId)
                         (Db.user_create (schema_defaults env)
                            username steamId 0 1)
                   end ;;
           ret (RObj {[ "success" := VBool true;
                        "content" := VUserJson user ]})
         else ret malformed
     | _, _ => ret malformed
     end)
    (fun error =>
       ret (RObj {[ "success" := VBool false;
                    "error" := VStr ("Failed to get user: "
                                     +:+ error_toString error) ]})).

Definition notify_discord (discordUserId : string) : M unit :=
  try_catch
    (emit (CallDmFetch discordUserId) ;;
     match discord_fetch env discordUserId with
     | Some e => throw e
     | None => emit (CallDmSend discordUserId)
     end)
    (fun error => emit (ConsoleDmError error)).

Definition cannot_merge (found : nat) : string :=
  "Cannot merge when there are more or less than 2 users in the database. Found "
  +:+ render_nat found +:+ " user(s).".

Definition call_mergeUsers (a b : Z) : M MergeResponse :=
  emit (CallMergeUsers a b) ;;
  on_db (mergeUsers env a b).

Definition invalid_code : M Result :=
  emit ConsoleInvalidCode ;;
  ret (RObj {[ "success" := VBool false;
               "content" := VStr "Invalid code entered." ]}).

(** [CodeStorage.deleteCode(discordId)] *)
Definition call_deleteCode (discordId : string) : M unit :=
  stored <- gets codes ;;
  set_codes (CodeStorage.deleteCode discordId stored).

(** [result_discord.accounts.find(a => a.platform === 'DISCORD')?.platformId] *)
Definition discord_id_of (accounts : list Db.Account) : option string :=
  match List.find (fun a => Db.Platform_eqb (Db.platform a) Db.DISCORD)
                  accounts with
  | Some a => Some (Db.platformId a)
  | None => None
  end.

Definition linkCode_steam (data : WebsocketMessage) : M Result :=
  match content_str (content data), steamId data with
  | Some code, Some steamId =>
      if truthy_str code && truthy_str steamId then
        stored <- gets codes ;;
        match CodeStorage.getUser code stored with
        | Some discordId =>
            if truthy_str discordId then
              result <- prisma (UserFindMany steamId discordId)
                          (query (Db.user_findMany steamId discordId)) ;;
              match result with
              | [result_steam; result_discord] =>
                  response <- call_mergeUsers (user_id (fst result_steam))
                                (user_id (fst result_discord)) ;;
                  (if merge_success response then
                     call_deleteCode discordId ;;
                     match discord_id_of (snd result_discord) with
                     | Some discordUserId =>
                         if truthy_str discordUserId
                         then notify_discord discordUserId
                         else ret tt
                     | None => ret tt
                     end
                   else ret tt) ;;
                  ret (RObj {[ "success" := VBool (merge_success response);
                               "content" := VStr (merge_message response) ]})
              | _ =>
                  emit (ConsoleCannotMerge (length result)) ;;
                  ret (RObj {[ "success" := VBool false;
                               "content" :=
                                 VStr (cannot_merge (length result)) ]})
              end
            else invalid_code
        | None => invalid_code
        end
      else ret malformed
  | _, _ => ret malformed
  end.

(** [s.split(" ")]: the pieces between single spaces. *)
Fixpoint split_space (s : string) : list string :=
  match s with
  | EmptyString => [EmptyString]
  | String c r =>
      if Ascii.eqb c " "%char then EmptyString :: split_space r
      else match split_space r with
           | p :: ps => String c p :: ps
           | [] => [String c EmptyString]
           end
  end.

Definition giveXP (data : WebsocketMessage) : M Result :=
  try_catch
    (match content_str (content data), steamId data with
     | Some text, Some steamId =>
         if truthy_str text && truthy_str steamId then
           let pieces := split_space text in
           let userId := List.hd EmptyString pieces in
           let xpAmount := List.nth_error pieces 1 in
           emit (CallGiveXP userId xpAmount) ;;
           updatedUser <- on_db (Leveling_giveXP env userId xpAmount) ;;
           if negb updatedUser then
             ret (RObj {[ "success" := VBool false;
                          "content" := VStr ("Could not find user by ID "
                                             +:+ userId) ]})
           else
             ret (RObj {[ "success" := VBool true;
                          "content" := VStr ("Gave " +:+ render xpAmount
                                             +:+ " XP to user " +:+ userId) ]})
         else ret malformed
     | _, _ => ret malformed
     end)
    (fun error =>
       ret (RObj {[ "success" := VBool false;
                    "error" := VStr ("Failed to give XP: "
                                     +:+ error_toString error) ]})).

Definition onJoin (data : WebsocketMessage) : M Result :=
  try_catch
    (match content_str (content data), steamId data with
     | Some text, Some steamId =>
         if truthy_str text && truthy_str steamId then
           user <- prisma (UserFindFirst steamId)
                     (query (Db.user_findFirst steamId)) ;;
           match user with
           | Some user =>
               players <- gets registry ;;
               set_registry (PlayerList.addPlayer steamId user players) ;;
               (* the function ends here, without a [return] *)
               ret RUndefined
           | None =>
               ret (RObj {[ "success" := VBool false;
                            "content" := VStr "No user profile found!" ]})
           end
         else ret malformed
     | _, _ => ret malformed
     end)
    (fun err =>
       emit (ConsoleError err) ;;
       ret (RObj {[ "success" := VBool false;
                    "content" :=
                      VStr "An error occurred while processing the join request." ]})).

Definition onLeave (data : WebsocketMessage) : M Result :=
  try_catch
    (match content_str (content data), steamId data with
     | Some text, Some steamId =>
         if truthy_str text && truthy_str steamId then
           user <- prisma (UserFindFirst steamId)
                     (query (Db.user_findFirst steamId)) ;;
           match user with
           | Some user =>
               players <- gets registry ;;
               set_registry
                 (snd (PlayerList.removePlayerBySteamID steamId players)) ;;
               ret (RObj {[ "success" := VBool true;
                            "content" :=
                              VStr "Player successfully removed from the list." ]})
           | None =>
               ret (RObj {[ "success" := VBool false;
                            "content" :=
                              VStr "No user profile found to remove!" ]})
           end
         else ret malformed
     | _, _ => ret malformed
     end)
    (fun err =>
       emit (ConsoleError err) ;;
       ret (RObj {[ "success" := VBool false;
                    "content" :=
                      VStr "An error occurred while processing the leave request." ]})).

(** ** The lookup [messageHandlers[data.type]] *)

(** The handlers registered in the table. *)
Inductive Handler :=
| H_getUser_steam
| H_linkCode_steam
| H_giveXP
| H_onJoin
| H_onLeave.

(** [messageHandlers] is an object literal: a lookup by name that finds no
    own property goes on to [Object.prototype]. *)
Inductive Inherited :=
| I_constructor
| I_toString
| I_toLocaleString
| I_valueOf
| I_hasOwnProperty
| I_isPrototypeOf
| I_propertyIsEnumerable
| I_lookupGetter
| I_lookupSetter
| I_defineGetter
| I_defineSetter
| I_proto.

Inductive Property :=
| Own (h : Handler)
| FromPrototype (i : Inherited).

Definition own_handler (type : string) : option Handler :=
  if String.eqb type "getUser_steam" then Some H_getUser_steam
  else if String.eqb type "linkCode_steam" then Some H_linkCode_steam
  else if String.eqb type "giveXP" then Some H_giveXP
  else if String.eqb type "onJoin" then Some H_onJoin
  else if String.eqb type "onLeave" then Some H_onLeave
  else None.

Definition inherited (type : string) : option Inherited :=
  if String.eqb type "constructor" then Some I_constructor
  else if String.eqb type "toString" then Some I_toString
  else if String.eqb type "toLocaleString" then Some I_toLocaleString
  else if String.eqb type "valueOf" then Some I_valueOf
  else if String.eqb type "hasOwnProperty" then Some I_hasOwnProperty
  else if String.eqb type "isPrototypeOf" then Some I_isPrototypeOf
  else if String.eqb type "propertyIsEnumerable"
       then Some I_propertyIsEnumerable
  else if String.eqb type "__lookupGetter__" then Some I_lookupGetter
  else if String.eqb type "__lookupSetter__" then Some I_lookupSetter
  else if String.eqb type "__defineGetter__" then Some I_defineGetter
  else if String.eqb type "__defineSetter__" then Some I_defineSetter
  else if String.eqb type "__proto__" then Some I_proto
  else None.

(** [data.type && messageHandlers[data.type]], when it is truthy. *)
Definition messageHandlers_get (type : option string) : option Property :=
  match type with
  | Some t =>
      if truthy_str t then
        match own_handler t with
        | Some h => Some (Own h)
        | None =>
            match inherited t with
            | Some i => Some (FromPrototype i)
            | None => None
            end
        end
      else None
  | None => None
  end.

Definition run_handler (h : Handler) (data : WebsocketMessage) : M Result :=
  match h with
  | H_getUser_steam => getUser_steam data
  | H_linkCode_steam => linkCode_steam data
  | H_giveXP => giveXP data
  | H_onJoin => onJoin data
  | H_onLeave => onLeave data
  end.

(** The own properties of the message object that the interface
    declares. *)
Definition obj_of_message (data : WebsocketMessage) : Obj :=
  let field (k : string) (v : option string) : Obj :=
    match v with
    | Some s => {[ k := VStr s ]}
    | None => ∅
    end in
  field "type" (type data) ∪ field "steamId" (steamId data)
  ∪ field "token" (token data)
  ∪ field "content" (content_str (content data))
  ∪ field "correlationId" (correlationId data).

Definition not_a_function : Error :=
  mkError "TypeError" "messageHandlers[data.type] is not a function".

Definition not_a_getter : Error :=
  mkError "TypeError" "Object.prototype.__defineGetter__: Expecting function".

Definition not_a_setter : Error :=
  mkError "TypeError" "Object.prototype.__defineSetter__: Expecting function".

(** [messageHandlers[name](data)] for an inherited [name], with
    [messageHandlers] as the receiver. *)
Definition call_inherited (i : Inherited) (data : WebsocketMessage)
  : M Result :=
  match i with
  | I_constructor => ret (RObj (obj_of_message data))
  | I_toString | I_toLocaleString => ret (RString "[object Object]")
  | I_valueOf => ret RHandlerTable
  | I_hasOwnProperty | I_isPrototypeOf | I_propertyIsEnumerable =>
      ret (RBoolean false)
  | I_lookupGetter | I_lookupSetter => ret RUndefined
  | I_defineGetter => throw not_a_getter
  | I_defineSetter => throw not_a_setter
  | I_proto => throw not_a_function
  end.

Definition call (p : Property) (data : WebsocketMessage) : M Result :=
  match p with
  | Own h =>
      emit (CallHandler (default "" (type data))) ;; run_handler h data
  | FromPrototype i => call_inherited i data
  end.

(** The index properties of a string: ["0"], ["1"], ... *)
Definition char_props (s : string) : Obj :=
  list_to_map
    (imap (fun i c => (render_nat i, VStr (String c EmptyString)))
          (list_ascii_of_string s)).

(** What [...result] adds to an object literal, as far as
    [JSON.stringify] writes it: nothing for [undefined] and booleans, the
    characters of a string, the properties of an object, and nothing for
    the handler table, whose properties are functions. *)
Definition spread_json (result : Result) : Obj :=
  match result with
  | RObj o => o
  | RUndefined => ∅
  | RBoolean _ => ∅
  | RString s => char_props s
  | RHandlerTable => ∅
  end.

(** [{ type: `${data.type}_response`, correlationId, ...result }] *)
Definition response_of (data : WebsocketMessage) (c : string)
    (result : Result) : Obj :=
  spread_json result
  ∪ {[ "type" := VStr (render (type data) +:+ "_response");
       "correlationId" := VStr c ]}.

(** [{ type: "error", correlationId, success: false, error: ... }] *)
Definition unknown_type_response (data : WebsocketMessage) (c : string)
  : Obj :=
  {[ "type" := VStr "error";
     "correlationId" := VStr c;
     "success" := VBool false;
     "error" := VStr ("Unknown message type: " +:+ render (type data)) ]}.

(** ** [authenticate] *)

Definition authenticate (steamId token : string)
  : M (option AuthValidationResponse) :=
  emit (CallAuthenticate steamId token) ;;
  match fetch_auth env steamId token with
  | Throw e => throw e
  | Ret response =>
      if negb (ok response) then emit ConsoleHttpNotOk ;; ret None
      else match json response with
           | Throw e => throw e
           | Ret v => ret v
           end
  end.

(** ** The [message] listener *)

(** From [Logging.log(`Received Message Type ...`)] to the end of the
    [try] block. *)
Definition route (data : WebsocketMessage) : M unit :=
  emit (LogReceived (type data) (default "" (content_str (content data)))) ;;
  match messageHandlers_get (type data) with
  | Some p =>
      result <- call p data ;;
      match correlationId data with
      | Some c =>
          if truthy_str c then
            ws_send (response_of data c result) ;;
            emit (LogSent c (type data))
          else ret tt
      | None => ret tt
      end
  | None =>
      emit (LogUnhandled (type data)) ;;
      match correlationId data with
      | Some c =>
          if truthy_str c then ws_send (unknown_type_response data c)
          else ret tt
      | None => ret tt
      end
  end.

(** The body of the [try] block. *)
Definition process (frame : Frame) : M unit :=
  match frame with
  | Malformed e => throw e
  | Parsed data =>
      if negb (truthy (content_str (content data))) then ret tt
      else
        match steamId data, token data with
        | Some sid, Some tok =>
            if truthy_str sid && truthy_str tok then
              state <- authenticate sid tok ;;
              match state with
              | None => emit LogAuthFailed
              | Some _ => route data
              end
            else emit LogAuthFailed
        | _, _ => emit LogAuthFailed
        end
  end.

(** [ws.on("message", async (message) => { try {...} catch (error) {...} })] *)
Definition on_message (frame : Frame) (w : World) : World :=
  match process frame w with
  | (Ret _, w') => w'
  | (Throw error, w') => snd (emit (LogError (err_message error)) w')
  end.

(** The world in which a registered handler starts, for a message that
    passed the content check and the validator. *)
Definition handler_start (data : WebsocketMessage) (w : World) : World :=
  snd ((emit (CallAuthenticate (default "" (steamId data))
                               (default "" (token data))) ;;
        emit (LogReceived (type data)
                          (default "" (content_str (content data)))) ;;
        emit (CallHandler (default "" (type data)))) w).

(** A connection delivering several frames, one after the other. *)
Definition on_messages (frames : list Frame) (w : World) : World :=
  fold_left (fun w f => on_message f w) frames w.

End WithEnv.
End Ws.

(* ================================================================== *)
(** * Sample data *)
(* ================================================================== *)

Module Sample.

Definition nova : User :=
  {| user_id := 1; username := "Nova"; xp := 0; level := 1; balance := 5;
     streak := 2; lastClaimedDaily := None; createdAt := 1700000000 |}.

Definition rook : User :=
  {| user_id := 2; username := "Rook"; xp := 120; level := 1; balance := 7;
     streak := 5; lastClaimedDaily := None; createdAt := 1700000500 |}.

(** A registry in which ["S1"] has joined. *)
Definition registry1 : Heap.State :=
  PlayerList.addPlayer "S1" nova Heap.init.

(** The update [{ xp: 40 }]. *)
Definition xp40 : PartialUser :=
  {| p_id := None; p_username := None; p_xp := Some 40%Z;
     p_level := None; p_balance := None; p_streak := None;
     p_lastClaimedDaily := None; p_createdAt := None |}.

End Sample.

Module SampleRoles.
Import Profile.

Definition table : gmap string Q :=
  <["r-gold" := (5 # 4)%Q]> (<["r-silver" := (11 # 10)%Q]>
    (<["r-muted" := (1 # 1)%Q]> ∅)).

Definition member : GuildMember :=
  {| roles_cache :=
       [ mkRole "r-silver" "Silver"; mkRole "r-everyone" "everyone";
         mkRole "r-gold" "Gold"; mkRole "r-muted" "Muted" ] |}.

End SampleRoles.

(** A small store, an environment in which every collaborator answers,
    and a few messages. *)
Module SampleWs.
Import Js Ws.

Definition db0 : Db.t :=
  {| Db.users := [Sample.nova; Sample.rook];
     Db.accounts :=
       [ Db.mkAccount Db.STEAM "S1" "Nova" 1;
         Db.mkAccount Db.DISCORD "D2" "Rook" 2 ];
     Db.next_id := 3 |}.

Definition codes0 : gmap string string := {[ "483920" := "D2" ]}.

Definition w0 : World :=
  {| db := db0; codes := codes0; registry := Heap.init;
     conn_open := true; sent := []; events := [] |}.

(** The validator accepts the token ["good"] and answers "not ok" to any
    other. *)
Definition validator (steamId token : string) : outcome HttpResponse :=
  Ret {| ok := String.eqb token "good";
         json := Ret (Some {| auth_steamId := 1; auth_status := "ok" |}) |}.

(** A stand-in for [mergeUsers]: the accounts of the second profile go to
    the first, and the second profile is deleted. *)
Definition merge_into_first (a b : Z) (d : Db.t)
  : outcome MergeResponse * Db.t :=
  (Ret {| merge_success := true; merge_message := "Accounts merged." |},
   {| Db.users := List.filter (fun u => negb (Z.eqb (user_id u) b)) (Db.users d);
      Db.accounts :=
        map (fun acc =>
               if Z.eqb (Db.userId acc) b
               then Db.mkAccount (Db.platform acc) (Db.platformId acc)
                      (Db.account_username acc) a
               else acc)
            (Db.accounts d);
      Db.next_id := Db.next_id d |}).

Definition env_ok : Env :=
  {| fetch_auth := validator;
     prisma_fault := fun _ _ => None;
     schema_defaults := Db.mkDefaults 0 0 1700001000;
     mergeUsers := merge_into_first;
     Leveling_giveXP := fun _ _ d => (Ret true, d);
     discord_fetch := fun _ => None |}.

Definition store_down : Error := mkError "Error" "Can't reach database server".

(** The same environment with a store whose [findMany] rejects. *)
Definition env_findMany_down : Env :=
  {| fetch_auth := validator;
     prisma_fault :=
       fun c _ => match c with
                  | UserFindMany _ _ => Some store_down
                  | _ => None
                  end;
     schema_defaults := Db.mkDefaults 0 0 1700001000;
     mergeUsers := merge_into_first;
     Leveling_giveXP := fun _ _ d => (Ret true, d);
     discord_fetch := fun _ => None |}.

Definition msg (t : string) (sid : string) (c : string) (cid : option string)
  : WebsocketMessage :=
  {| type := Some t; steamId := Some sid; token := Some "good";
     content := CString c; correlationId := cid |}.

Definition link_msg : WebsocketMessage :=
  msg "linkCode_steam" "S1" "483920" (Some "abc").

Definition join_msg : WebsocketMessage :=
  msg "onJoin" "S1" "joined" (Some "abc").

Definition unknown_msg : WebsocketMessage :=
  msg "noSuchType" "S1" "x" (Some "abc").

(** A profile request without [content], and one without [steamId]. *)
Definition no_content_msg : WebsocketMessage :=
  {| type := Some "getUser_steam"; steamId := Some "S1";
     token := Some "good"; content := CAbsent;
     correlationId := Some "abc" |}.

Definition no_identity_msg : WebsocketMessage :=
  {| type := Some "getUser_steam"; steamId := None;
     token := Some "good"; content := CString "Nova";
     correlationId := Some "abc" |}.

End SampleWs.

(** More environments: a merge procedure that refuses, a Discord client
    that cannot be reached, a progression engine that finds nobody. *)
Module SampleFaults.
Import Js Ws SampleWs.

Definition merge_refuses (a b : Z) (d : Db.t)
  : outcome MergeResponse * Db.t :=
  (Ret {| merge_success := false;
          merge_message := "Merge failed, nothing was changed." |}, d).

Definition env_merge_refuses : Env :=
  {| fetch_auth := validator;
     prisma_fault := fun _ _ => None;
     schema_defaults := Db.mkDefaults 0 0 1700001000;
     mergeUsers := merge_refuses;
     Leveling_giveXP := fun _ _ d => (Ret true, d);
     discord_fetch := fun _ => None |}.

Definition unknown_user : Error := mkError "DiscordAPIError" "Unknown User".

Definition env_discord_down : Env :=
  {| fetch_auth := validator;
     prisma_fault := fun _ _ => None;
     schema_defaults := Db.mkDefaults 0 0 1700001000;
     mergeUsers := merge_into_first;
     Leveling_giveXP := fun _ _ d => (Ret true, d);
     discord_fetch := fun _ => Some unknown_user |}.

(** A store that cannot be reached: every call is rejected. *)
Definition env_store_down : Env :=
  {| fetch_auth := validator;
     prisma_fault := fun _ _ => Some store_down;
     schema_defaults := Db.mkDefaults 0 0 1700001000;
     mergeUsers := merge_into_first;
     Leveling_giveXP := fun _ _ d => (Ret true, d);
     discord_fetch := fun _ => None |}.

(** A validator that answers 200 with a body that says "invalid". *)
Definition validator_says_invalid (steamId token : string)
  : outcome HttpResponse :=
  Ret {| ok := true;
         json := Ret (Some {| auth_steamId := 0;
                              auth_status := "invalid" |}) |}.

End SampleFaults.

(* ================================================================== *)
(** * Further vocabulary for the registry *)
(* ================================================================== *)

Module Registry.
Import Heap PlayerList.

(** The Steam ids under which players are registered, in insertion
    order. *)
Definition keys (m : JsMap.t) : list string := List.map fst m.

(** The registry after a sequence of calls on the freshly loaded class. *)
Definition reached (toLowerCase : string -> string) (cs : list Call)
  : State :=
  snd (run_all toLowerCase cs init).

(** The number of registered players. *)
Definition count (st : State) : nat := length (getAllPlayers st).

(** No Steam id occurs twice in the registry's map. *)
Definition distinct_keys (st : State) : Prop :=
  NoDup (keys (this_players st)).

(** [Partial<User>] with no column given. *)
Definition no_updates : PartialUser :=
  {| p_id := None; p_username := None; p_xp := None; p_level := None;
     p_balance := None; p_streak := None; p_lastClaimedDaily := None;
     p_createdAt := None |}.

End Registry.

(* ================================================================== *)
(** * Further vocabulary for the bridge *)
(* ================================================================== *)

Module WsSpec.
Import Js Ws.

(** A computation that always returns. *)
Definition never_throws {A} (m : M A) : Prop :=
  forall w, exists a w', m w = (Ret a, w').

(** Whatever a computation returns satisfies [P]. *)
Definition yields {A} (P : A -> Prop) (m : M A) : Prop :=
  forall w a w', m w = (Ret a, w') -> P a.

(** A handler result in the shape of [interface ResponseMessage]: an
    object with a boolean [success] that sets neither [type] nor
    [correlationId]. *)
Definition flagged (r : Result) : Prop :=
  exists o b,
    r = RObj o /\ o !! "success" = Some (VBool b)
    /\ o !! "type" = None /\ o !! "correlationId" = None.

(** The environment with another token validator. *)
Definition with_validator (env : Env)
    (v : string -> string -> outcome HttpResponse) : Env :=
  {| fetch_auth := v;
     prisma_fault := prisma_fault env;
     schema_defaults := schema_defaults env;
     mergeUsers := mergeUsers env;
     Leveling_giveXP := Leveling_giveXP env;
     discord_fetch := discord_fetch env |}.

(** [w] after some frames were written and some events logged, and
    nothing else happened. *)
Definition outputs (w : World) (frames : list Obj) (l : list Event)
  : World :=
  {| db := db w; codes := codes w; registry := registry w;
     conn_open := conn_open w; sent := sent w ++ frames;
     events := events w ++ l |}.

(** A computation that at most writes frames and logs, and runs no
    handler. *)
Definition quiet {A} (m : M A) : Prop :=
  forall w, exists frames l,
    snd (m w) = outputs w frames l /\ forall t, ~ In (CallHandler t) l.

(** The correlation id of a frame, when it is one that the listener
    answers to. *)
Definition answerable (frame : Frame) : option string :=
  match frame with
  | Parsed data =>
      match correlationId data with
      | Some c => if truthy_str c then Some c else None
      | None => None
      end
  | Malformed _ => None
  end.

(** A string without a space. *)
Fixpoint no_space (s : string) : bool :=
  match s with
  | EmptyString => true
  | String c r => negb (Ascii.eqb c " "%char) && no_space r
  end.

(** Profile ids in use lie below the next id that the store hands out. *)
Definition fresh_ids (d : Db.t) : Prop :=
  forall u, In u (Db.users d) -> (user_id u < Db.next_id d)%Z.

End WsSpec.

(* ================================================================== *)
(** * The daily allowance (src/commands/daily.ts) *)
(* ================================================================== *)

(** Time stamps are milliseconds since the epoch, as [Date.getTime]
    gives them; they and the durations computed from them are integers
    far below 2^53, so the arithmetic of the source is exact and is
    embedded in [Z]. *)
Module Daily.
Import Js.

(** [24 * 60 * 60 * 1000] *)
Definition day_ms : Z := 24 * 60 * 60 * 1000.

(** [`${n}`] for an integer. *)
Definition render_Z (z : Z) : string :=
  if (z <? 0)%Z then "-" +:+ render_nat (Z.to_nat (- z))
  else render_nat (Z.to_nat z).

(** [Math.floor(ms / (1000 * 60 * 60))] *)
Definition hours_of (ms : Z) : Z := (ms / (1000 * 60 * 60))%Z.

(** [Math.floor((ms % (1000 * 60 * 60)) / (1000 * 60))]; [%] takes the
    sign of the dividend. *)
Definition minutes_of (ms : Z) : Z :=
  (Z.rem ms (1000 * 60 * 60) / (1000 * 60))%Z.

Definition formatTimeRemaining (ms : Z) : string :=
  render_Z (hours_of ms) +:+ "h " +:+ render_Z (minutes_of ms) +:+ "m".

(** What the command answers with. *)
Inductive Reply :=
| Ephemeral (content : string)
| RewardEmbed (money xp streak : Z)
| StreakResetFollowUp.

Inductive PrismaCall :=
| AccountFindUnique (discordId : string)
| UserUpdate (id : Z).

(** What lies outside the source.  [now] and [today] are the two readings
    of the clock ([const now = new Date()] and, for the streak,
    [const currentDate = new Date()]); [utc_offset] is the offset of the
    local time zone, taken as fixed, which [setHours(0, 0, 0, 0)] works
    in; [giveXP] is the awaited [Leveling.giveXP], [None] standing for a
    falsy result. *)
Record Env := mkEnv {
  now : Z;
  today : Z;
  utc_offset : Z;
  prisma_fault : PrismaCall -> Db.t -> option Error;
  giveXP : Z -> Z -> Db.t -> outcome (option User) * Db.t
}.

Record State := mkState {
  db : Db.t;
  replies : list Reply
}.

(** [d.setHours(0, 0, 0, 0); d.getTime()]: the local midnight before
    [t]. *)
Definition startOfDay (offset t : Z) : Z :=
  (t - (t + offset) mod day_ms)%Z.

(** [data: { balance: { increment }, streak, lastClaimedDaily }] *)
Definition claim (dailyMoney streakIncrement now : Z) (u : User) : User :=
  {| user_id := user_id u; username := username u; xp := xp u;
     level := level u; balance := balance u + dailyMoney;
     streak := streakIncrement; lastClaimedDaily := Some now;
     createdAt := createdAt u |}.

(** [prisma.user.update({ where: { id }, data })]: the row after the
    update, or nothing when there is no such row (the client rejects). *)
Definition user_update (id : Z) (f : User -> User) (d : Db.t)
  : option (User * Db.t) :=
  match Db.user_by_id id d with
  | Some u =>
      Some (f u,
            {| Db.users :=
                 List.map (fun v => if Z.eqb (user_id v) id then f v else v)
                          (Db.users d);
               Db.accounts := Db.accounts d;
               Db.next_id := Db.next_id d |})
  | None => None
  end.

Definition record_not_found : Error :=
  mkError "PrismaClientKnownRequestError" "Record to update not found.".

Definition reply (r : Reply) (st : State) : State :=
  {| db := db st; replies := replies st ++ [r] |}.

(** The streak after a claim and whether the old one was broken
    ([streakIncrement], [streakBroken]); [None] is [undefined]. *)
Definition next_streak (env : Env) (user : User) : Z * option bool :=
  match lastClaimedDaily user with
  | Some lastClaimed =>
      let lastClaimDate := startOfDay (utc_offset env) lastClaimed in
      let currentDate := startOfDay (utc_offset env) (today env) in
      if (day_ms <? currentDate - lastClaimDate)%Z then (1%Z, Some true)
      else ((streak user + 1)%Z, Some false)
  | None => (1%Z, None)
  end.

(** [lastClaimed && now.getTime() - lastClaimed.getTime() < 24h] *)
Definition on_cooldown (env : Env) (user : User) : bool :=
  match lastClaimedDaily user with
  | Some lastClaimed => (now env - lastClaimed <? day_ms)%Z
  | None => false
  end.

(** [DailyCommand.execute] for the Discord user [discordId]. *)
Definition execute (env : Env) (discordId : string) (st : State)
  : outcome unit * State :=
  let dailyMoney := 5%Z in
  let dailyXP := 10%Z in
  match prisma_fault env (AccountFindUnique discordId) (db st) with
  | Some e => (Throw e, st)
  | None =>
      match Db.account_findUnique Db.DISCORD discordId (db st) with
      | Some (_, Some user) =>
          if on_cooldown env user then
            let nextClaimTime :=
              (default 0%Z (lastClaimedDaily user) + day_ms)%Z in
            let timeRemaining :=
              formatTimeRemaining (nextClaimTime - now env) in
            (Ret tt,
             reply (Ephemeral ("You can claim your next daily reward in "
                               +:+ timeRemaining +:+ ".")) st)
          else
            let '(streakIncrement, streakBroken) := next_streak env user in
            match prisma_fault env (UserUpdate (user_id user)) (db st) with
            | Some e => (Throw e, st)
            | None =>
                match user_update (user_id user)
                        (claim dailyMoney streakIncrement (now env))
                        (db st) with
                | None => (Throw record_not_found, st)
                | Some (updatedUser, d1) =>
                    match giveXP env (user_id user) dailyXP d1 with
                    | (Throw e, d2) =>
                        (Throw e, {| db := d2; replies := replies st |})
                    | (Ret None, d2) =>
                        (Ret tt,
                         reply (Ephemeral "An error occurred while gaining your daily XP. Please try again later.")
                           {| db := d2; replies := replies st |})
                    | (Ret (Some _), d2) =>
                        let st2 :=
                          reply (RewardEmbed dailyMoney dailyXP
                                   (streak updatedUser))
                            {| db := d2; replies := replies st |} in
                        (Ret tt,
                         match streakBroken with
                         | Some true => reply StreakResetFollowUp st2
                         | _ => st2
                         end)
                    end
                end
            end
      | _ =>
          (Ret tt,
           reply (Ephemeral "User not found. Please register first!") st)
      end
  end.

End Daily.

Module SampleDaily.
Import Js Daily.

(** Rook has a Discord account and claimed at [t0]. *)
Definition t0 : Z := 1700000000000.

Definition rook_claimed : User :=
  {| user_id := 2; username := "Rook"; xp := 120; level := 1; balance := 7;
     streak := 5; lastClaimedDaily := Some t0; createdAt := 1700000500 |}.

Definition db_claimed : Db.t :=
  {| Db.users := [Sample.nova; rook_claimed];
     Db.accounts :=
       [ Db.mkAccount Db.STEAM "S1" "Nova" 1;
         Db.mkAccount Db.DISCORD "D2" "Rook" 2 ];
     Db.next_id := 3 |}.

(** A progression engine that adds the experience to the profile. *)
Definition grant (id amount : Z) (d : Db.t) : outcome (option User) * Db.t :=
  match user_update id
          (fun u => {| user_id := user_id u; username := username u;
                       xp := xp u + amount; level := level u;
                       balance := balance u; streak := streak u;
                       lastClaimedDaily := lastClaimedDaily u;
                       createdAt := createdAt u |}) d with
  | Some (u, d') => (Ret (Some u), d')
  | None => (Ret None, d)
  end.

(** A progression engine that finds nobody. *)
Definition grant_nobody (id amount : Z) (d : Db.t)
  : outcome (option User) * Db.t := (Ret None, d).

Definition env_at (t : Z) : Env :=
  {| now := t; today := t; utc_offset := 3600000;
     prisma_fault := fun _ _ => None; giveXP := grant |}.

Definition env_nobody_at (t : Z) : Env :=
  {| now := t; today := t; utc_offset := 3600000;
     prisma_fault := fun _ _ => None; giveXP := grant_nobody |}.

Definition start : State := {| db := db_claimed; replies := [] |}.

End SampleDaily.

(* ================================================================== *)
(** * The pages of the profile view (src/commands/profile.ts, 65-185) *)
(* ================================================================== *)

Module ProfileView.

(** [pages.length]: the stats page and the badges page. *)
Definition pages_length : Z := 2.

(** The two buttons of [generateButtons(page)]: whether each is
    disabled. *)
Record Buttons := mkButtons {
  prev_disabled : bool;
  next_disabled : bool
}.

Definition generateButtons (page : Z) : Buttons :=
  {| prev_disabled := Z.eqb page 1;
     next_disabled := Z.eqb page pages_length |}.

(** A component interaction: who clicked, and the custom id of the
    button. *)
Record Click := mkClick {
  clicker : string;
  customId : string
}.

(** What the [collect] listener does with a click. *)
Inductive Shown :=
| Refused               (* "You can't interact with this profile view!" *)
| Page (n : Z)          (* [pages[currentPage - 1]()] is shown *)
| RenderFails.          (* [pages[currentPage - 1]] is [undefined] *)

(** The [collect] listener, on [currentPage]; [owner] is
    [interaction.user.id]. *)
Definition collect (owner : string) (currentPage : Z) (i : Click)
  : Z * Shown :=
  if negb (String.eqb (clicker i) owner) then (currentPage, Refused)
  else
    let p1 := if String.eqb (customId i) "prev_page"
              then (currentPage - 1)%Z else currentPage in
    let p2 := if String.eqb (customId i) "next_page"
              then (p1 + 1)%Z else p1 in
    (p2,
     if (1 <=? p2)%Z && (p2 <=? pages_length)%Z then Page p2
     else RenderFails).

(** A click on a button that the row shown for [page] offers as
    enabled. *)
Definition enabled (page : Z) (i : Click) : bool :=
  (String.eqb (customId i) "prev_page"
   && negb (prev_disabled (generateButtons page)))
  || (String.eqb (customId i) "next_page"
      && negb (next_disabled (generateButtons page))).

(** Every click of the owner is on a button that was enabled on the
    page shown at that moment. *)
Fixpoint well_behaved (owner : string) (page : Z) (clicks : list Click)
  : bool :=
  match clicks with
  | [] => true
  | i :: rest =>
      (negb (String.eqb (clicker i) owner) || enabled page i)
      && well_behaved owner (fst (collect owner page i)) rest
  end.

(** The page and what each click led to. *)
Fixpoint browse (owner : string) (page : Z) (clicks : list Click)
  : Z * list Shown :=
  match clicks with
  | [] => (page, [])
  | i :: rest =>
      let '(p, s) := collect owner page i in
      let '(q, l) := browse owner p rest in
      (q, s :: l)
  end.

End ProfileView.

(* ================================================================== *)
(** * Facts about the heap and the registry *)
(* ================================================================== *)

Section HeapFacts.
Import Heap.

Lemma init_wf : wf init.
Proof. unfold wf, init; simpl; lia. Qed.

Lemma deref_assign_eq r m st :
  r < length (heap st) -> deref r (assign r m st) = m.
Proof.
  intros H. unfold deref, assign; simpl.
  rewrite list_lookup_insert_eq; auto.
Qed.

Lemma deref_assign_ne r r' m st :
  r <> r' -> deref r' (assign r m st) = deref r' st.
Proof.
  intros H. unfold deref, assign; simpl.
  rewrite list_lookup_insert_ne; auto.
Qed.

Lemma length_assign r m st :
  length (heap (assign r m st)) = length (heap st).
Proof. unfold assign; simpl. apply length_insert. Qed.

Lemma deref_alloc_old r m st :
  r < length (heap st) -> deref r (snd (alloc m st)) = deref r st.
Proof.
  intros H. unfold deref, alloc; simpl.
  rewrite lookup_app_l; auto.
Qed.

Lemma deref_alloc_new m st :
  deref (fst (alloc m st)) (snd (alloc m st)) = m.
Proof.
  unfold deref, alloc; simpl.
  rewrite lookup_app_r by reflexivity.
  now rewrite Nat.sub_diag.
Qed.

Lemma mutate_all_players r ops st :
  players (mutate_all r ops st) = players st.
Proof.
  revert st. induction ops as [|op ops IH]; intros st; simpl; auto.
  now rewrite IH.
Qed.

Lemma mutate_all_length r ops st :
  length (heap (mutate_all r ops st)) = length (heap st).
Proof.
  revert st. induction ops as [|op ops IH]; intros st; simpl; auto.
  rewrite IH. apply length_assign.
Qed.

(** Mutating through one reference is invisible through another. *)
Lemma mutate_all_frame r r' ops st :
  r <> r' -> deref r' (mutate_all r ops st) = deref r' st.
Proof.
  intros Hne. revert st.
  induction ops as [|op ops IH]; intros st; simpl; auto.
  rewrite IH. now apply deref_assign_ne.
Qed.

End HeapFacts.

Section RegistryFacts.
Import Heap PlayerList.

(** [String.prototype.toLowerCase] *)
Variable lower : string -> string.

Lemma this_players_set_players m st :
  wf st -> this_players (set_players m st) = m.
Proof.
  intros Hwf. unfold this_players, set_players.
  change (players (assign (players st) m st)) with (players st).
  now apply deref_assign_eq.
Qed.

Lemma agree_refl st : wf st -> agree st st.
Proof. unfold agree, wf. auto. Qed.

Lemma agree_set_players m s1 s2 :
  agree s1 s2 -> agree (set_players m s1) (set_players m s2).
Proof.
  intros (Hp & Hl & Hwf & Hm).
  assert (Hwf2 : wf s2) by (unfold wf; rewrite <- Hp, <- Hl; exact Hwf).
  unfold agree. repeat split.
  - exact Hp.
  - unfold set_players. now rewrite !length_assign.
  - unfold set_players. now rewrite length_assign.
  - now rewrite !this_players_set_players.
Qed.

Lemma agree_alloc m s1 s2 :
  agree s1 s2 -> agree (snd (alloc m s1)) (snd (alloc m s2)).
Proof.
  intros (Hp & Hl & Hwf & Hm).
  assert (Hwf2 : players s2 < length (heap s2))
    by (rewrite <- Hp, <- Hl; exact Hwf).
  unfold agree. repeat split.
  - exact Hp.
  - simpl. rewrite !length_app. simpl. lia.
  - simpl. rewrite length_app. simpl. lia.
  - unfold this_players in *.
    change (players (snd (alloc m s1))) with (players s1).
    change (players (snd (alloc m s2))) with (players s2).
    rewrite !deref_alloc_old; auto.
Qed.

(** A registry operation gives the same answer in two states that agree,
    and leaves them in agreement. *)
Lemma run_agree c s1 s2 :
  agree s1 s2 ->
  fst (run lower c s1) = fst (run lower c s2) /\ agree (snd (run lower c s1)) (snd (run lower c s2)).
Proof.
  intros Hag. pose proof Hag as (Hp & Hl & Hwf & Hm).
  destruct c; cbn [run].
  - unfold getPlayerBySteamID. rewrite Hm. auto.
  - unfold getAllPlayers. rewrite Hm. auto.
  - unfold getPlayerList. rewrite Hm.
    pose proof (deref_alloc_new (this_players s2) s1) as E1.
    pose proof (deref_alloc_new (this_players s2) s2) as E2.
    pose proof (agree_alloc (this_players s2) s1 s2 Hag) as Ha.
    unfold alloc in *. simpl in *. split; [|exact Ha].
    rewrite E1, E2, Hl. reflexivity.
  - unfold getPlayerByUsername. rewrite Hm. auto.
  - unfold addPlayer. rewrite Hm. split; auto. now apply agree_set_players.
  - unfold updatePlayerBySteamID. rewrite Hm.
    destruct (JsMap.get steamId (this_players s2)); simpl; auto.
    split; auto. now apply agree_set_players.
  - unfold updatePlayerByUsername. rewrite Hm.
    destruct (find_entry lower _ (this_players s2)) as [[k u]|]; simpl; auto.
    split; auto. now apply agree_set_players.
  - unfold removePlayerBySteamID. rewrite Hm. simpl.
    split; auto. now apply agree_set_players.
  - unfold removePlayerByUsername. rewrite Hm.
    destruct (find_entry lower _ (this_players s2)) as [[k u]|]; simpl; auto.
    unfold removePlayerBySteamID. rewrite Hm. simpl.
    split; auto. now apply agree_set_players.
Qed.

(** Registry operations and caller writes keep the static field
    allocated, so every state reached from [init] is well formed. *)
Lemma run_wf c st : wf st -> wf (snd (run lower c st)).
Proof.
  intros Hwf. destruct (run_agree c st st (agree_refl st Hwf))
    as [_ (_ & _ & H & _)]. exact H.
Qed.

Lemma mutate_all_wf r ops st : wf st -> wf (mutate_all r ops st).
Proof.
  unfold wf. now rewrite mutate_all_players, mutate_all_length.
Qed.

Lemma run_all_agree cs : forall s1 s2,
  agree s1 s2 -> fst (run_all lower cs s1) = fst (run_all lower cs s2).
Proof.
  induction cs as [|c cs IH]; intros s1 s2 Hag; simpl; auto.
  destruct (run_agree c s1 s2 Hag) as [Hr Hs].
  destruct (run lower c s1) as [r1 t1], (run lower c s2) as [r2 t2]; simpl in *.
  specialize (IH t1 t2 Hs).
  destruct (run_all lower cs t1), (run_all lower cs t2); simpl in *. congruence.
Qed.

(** Writing through the snapshot reference never reaches the registry. *)
Lemma snapshot_frame st ops :
  wf st ->
  agree (mutate_all (fst (getPlayerList st)) ops (snd (getPlayerList st)))
        (snd (getPlayerList st)).
Proof.
  intros Hwf. unfold getPlayerList, agree, this_players. simpl fst. simpl snd.
  rewrite mutate_all_players, mutate_all_length.
  repeat split.
  - simpl. rewrite length_app. unfold wf in Hwf. simpl. lia.
  - simpl players. apply mutate_all_frame. unfold wf in Hwf. lia.
Qed.

(** C9. For every well-formed registry state, [getPlayerList] returns a
    fresh map holding the registry's entries; whatever entries the caller
    then adds, overwrites, deletes or clears in the returned map, the
    registry's own map is what it was, and every later sequence of registry
    operations returns what it would have returned without those writes. *)
Theorem getPlayerList_mutation_safe (st : State) (ops : list MapOp) :
  wf st ->
  let snapshot := fst (getPlayerList st) in
  let st1 := snd (getPlayerList st) in
  let st2 := mutate_all snapshot ops st1 in
  deref snapshot st1 = this_players st
  /\ snapshot <> players st
  /\ players st2 = players st
  /\ this_players st2 = this_players st
  /\ forall cs, fst (run_all lower cs st2) = fst (run_all lower cs st1).
Proof.
  intros Hwf snapshot st1 st2.
  pose proof (snapshot_frame st ops Hwf) as Hag.
  fold snapshot st1 st2 in Hag.
  repeat split.
  - apply deref_alloc_new.
  - unfold snapshot, getPlayerList. simpl. unfold wf in Hwf. lia.
  - unfold st2. now rewrite mutate_all_players.
  - destruct Hag as (_ & _ & _ & Hm). rewrite Hm.
    unfold st1, getPlayerList, this_players.
    change (players (snd (alloc (deref (players st) st) st)))
      with (players st).
    now apply deref_alloc_old.
  - intros cs. now apply run_all_agree.
Qed.

End RegistryFacts.

Section RegistryInstances.
Import Heap PlayerList.

Lemma getPlayerList_mutation_safe_witness :
  wf Sample.registry1 /\
  this_players
    (mutate_all (fst (getPlayerList Sample.registry1))
       [MDelete "S1"; MSet "S2" Sample.rook]
       (snd (getPlayerList Sample.registry1)))
  = [("S1", Sample.nova)].
Proof.
  assert (Hwf : wf Sample.registry1) by (vm_compute; lia).
  split; [exact Hwf|].
  pose proof (getPlayerList_mutation_safe Js.ascii_toLowerCase
                Sample.registry1 [MDelete "S1"; MSet "S2" Sample.rook] Hwf)
    as H.
  cbv zeta in H. destruct H as (_ & _ & _ & H & _).
  etransitivity; [exact H | reflexivity].
Defined.

(** The first revision handed out the registry's own map: deleting an
    entry from the returned map removed the player from the registry. *)
Lemma getPlayerList_v1_aliases :
  let st := Sample.registry1 in
  let r := fst (PlayerListV1.getPlayerList st) in
  let st2 := mutate r (MDelete "S1") (snd (PlayerListV1.getPlayerList st)) in
  PlayerListV1.getPlayerBySteamID "S1" st = Some Sample.nova
  /\ PlayerListV1.getPlayerBySteamID "S1" st2 = None.
Proof. split; reflexivity. Qed.

End RegistryInstances.

(* ================================================================== *)
(** * Facts about truthiness *)
(* ================================================================== *)

Lemma truthy_Some s : Js.truthy (Some s) = true <-> s <> "".
Proof.
  unfold Js.truthy, Js.truthy_str.
  destruct (String.eqb_spec s ""); simpl; split; intros; congruence.
Qed.

Lemma truthy_str_true s : Js.truthy_str s = true <-> s <> "".
Proof. apply truthy_Some. Qed.

(* ================================================================== *)
(** * Facts about [getMultiplierInfo] *)
(* ================================================================== *)

Section ProfileFacts.
Import Profile.

Lemma boosting_test (m : Q) :
  truthy_num m && gt m 1 = if Qlt_le_dec 1 m then true else false.
Proof.
  unfold truthy_num, gt.
  destruct (Qlt_le_dec 1 m) as [Hlt|Hle].
  - apply andb_true_iff. split; apply negb_true_iff.
    + destruct (Qeq_bool m 0) eqn:E; auto.
      apply Qeq_bool_iff in E. lra.
    + destruct (Qle_bool m 1) eqn:E; auto.
      apply Qle_bool_iff in E. lra.
  - apply andb_false_iff. right. apply negb_false_iff.
    now apply Qle_bool_iff.
Qed.

Lemma visit_boost_of table rs h role :
  visit table (rs, h) role =
  match boost_of table role with
  | Some e => ((rs ++ [e])%list, Math_max h (entry_multiplier e))
  | None => (rs, h)
  end.
Proof.
  unfold visit, boost_of.
  destruct (table !! role_id role) as [m|]; auto.
  rewrite boosting_test. destruct (Qlt_le_dec 1 m); auto.
Qed.

Lemma forEach_visit table l : forall rs h,
  fold_left (visit table) l (rs, h) =
  ((rs ++ omap (boost_of table) l)%list,
   fold_left Math_max (map entry_multiplier (omap (boost_of table) l)) h).
Proof.
  induction l as [|role l IH]; intros rs h.
  - simpl. now rewrite app_nil_r.
  - cbn [fold_left]. rewrite visit_boost_of. simpl.
    destruct (boost_of table role) as [e|]; simpl.
    + rewrite IH. now rewrite <- app_assoc.
    + apply IH.
Qed.

Lemma boost_of_gt table role e :
  boost_of table role = Some e -> (1 < entry_multiplier e)%Q.
Proof.
  unfold boost_of. destruct (table !! role_id role) as [f|]; [|discriminate].
  destruct (Qlt_le_dec 1 f); [|discriminate].
  intros [= <-]. assumption.
Qed.

Lemma contributing_gt table member e :
  In e (contributing table member) -> (1 < entry_multiplier e)%Q.
Proof.
  destruct member as [m|]; simpl; [|tauto].
  induction (roles_cache m) as [|role l IH]; simpl; [tauto|].
  destruct (boost_of table role) as [e'|] eqn:E; simpl; auto.
  intros [<-|H]; auto. eapply boost_of_gt; eauto.
Qed.

Lemma Math_max_cases x y :
  (Math_max x y = x /\ (y <= x)%Q) \/ (Math_max x y = y /\ (x <= y)%Q).
Proof.
  unfold Math_max. destruct (Qle_bool x y) eqn:E.
  - right. split; auto. now apply Qle_bool_iff.
  - left. split; auto.
    destruct (Qlt_le_dec x y) as [H|H]; auto.
    assert (Qle_bool x y = true) by (apply Qle_bool_iff; lra). congruence.
Qed.

(** Running [Math.max] over a list keeps an upper bound that is the start
    value or one of the elements. *)
Lemma fold_max_spec fs : forall h,
  let r := fold_left Math_max fs h in
  (h <= r)%Q
  /\ (forall f, In f fs -> (f <= r)%Q)
  /\ (r = h \/ In r fs).
Proof.
  induction fs as [|f fs IH]; intros h; simpl.
  - repeat split; [lra | tauto | auto].
  - destruct (IH (Math_max h f)) as (H1 & H2 & H3).
    destruct (Math_max_cases h f) as [[E Hle]|[E Hle]]; rewrite E in *.
    + repeat split; auto.
      * intros g [<-|Hg]; [lra | auto].
      * destruct H3; auto.
    + repeat split.
      * lra.
      * intros g [<-|Hg]; auto.
      * destruct H3 as [->|H3]; auto.
Qed.

Section Sorting.
Context {A : Type} (compare : A -> A -> Q).

Lemma sort_insert_perm x l : Permutation (sort_insert compare x l) (x :: l).
Proof.
  induction l as [|y r IH]; simpl; auto.
  destruct (Qle_bool (compare x y) 0); auto.
  rewrite IH. apply perm_swap.
Qed.

Lemma Array_sort_perm l : Permutation (Array_sort compare l) l.
Proof.
  induction l as [|x l IH]; simpl; auto.
  rewrite sort_insert_perm. now constructor.
Qed.

End Sorting.

Lemma sort_insert_descending x l :
  descending l -> descending (sort_insert by_factor x l).
Proof.
  unfold descending.
  induction l as [|y r IH]; intros Hs; simpl.
  - repeat constructor.
  - inversion Hs as [|? ? Hr Hall]; subst.
    destruct (Qle_bool (by_factor x y) 0) eqn:E.
    + apply Qle_bool_iff in E. unfold by_factor in E.
      constructor; auto. constructor; [lra|].
      eapply Forall_impl; [exact Hall|]. simpl. intros z Hz. lra.
    + assert (Hlt : (entry_multiplier x < entry_multiplier y)%Q).
      { destruct (Qlt_le_dec (entry_multiplier x) (entry_multiplier y))
          as [H|H]; auto.
        assert (Qle_bool (by_factor x y) 0 = true)
          by (apply Qle_bool_iff; unfold by_factor; lra).
        congruence. }
      constructor; auto.
      eapply Permutation_Forall.
      * symmetry. apply sort_insert_perm.
      * constructor; [lra | exact Hall].
Qed.

Lemma Array_sort_descending l : descending (Array_sort by_factor l).
Proof.
  induction l as [|x l IH]; simpl.
  - constructor.
  - now apply sort_insert_descending.
Qed.

Lemma getMultiplierInfo_unfold table member :
  getMultiplierInfo table member =
  let boosts := contributing table member in
  {| multiplier := fold_left Math_max (map entry_multiplier boosts) 1%Q;
     roles := Array_sort by_factor boosts |}.
Proof.
  destruct member as [m|]; simpl; auto.
  unfold getMultiplierInfo. rewrite forEach_visit. reflexivity.
Qed.

(** C7. [getMultiplierInfo] returns, for any member and any multiplier
    table, the contributing roles (those granting a factor greater than 1)
    reordered descending by factor, and as factor the largest factor of a
    single contributing role (a factor of one of them, bounding all of
    them: nothing is summed); when no role contributes, the factor is 1.0
    and the role list is empty. *)
Theorem getMultiplierInfo_max_sorted
    (table : gmap string Q) (member : option GuildMember) :
  let info := getMultiplierInfo table member in
  let boosts := contributing table member in
  Permutation (roles info) boosts
  /\ descending (roles info)
  /\ (forall e, In e boosts -> (1 < entry_multiplier e)%Q)
  /\ (boosts = [] -> multiplier info = 1%Q /\ roles info = [])
  /\ (boosts <> [] ->
        In (multiplier info) (map entry_multiplier boosts)
        /\ forall e, In e boosts ->
             (entry_multiplier e <= multiplier info)%Q).
Proof.
  intros info boosts. subst info.
  rewrite getMultiplierInfo_unfold. fold boosts. simpl.
  pose proof (fold_max_spec (map entry_multiplier boosts) 1%Q) as (H1 & H2 & H3).
  assert (Hgt : forall e, In e boosts -> (1 < entry_multiplier e)%Q)
    by (intros e He; eapply contributing_gt; exact He).
  split; [apply Array_sort_perm|].
  split; [apply Array_sort_descending|].
  split; [exact Hgt|].
  split.
  - intros ->. simpl. auto.
  - intros Hne. split.
    + destruct H3 as [E|H3]; auto.
      destruct boosts as [|e0 rest]; [congruence|].
      exfalso. specialize (Hgt e0 (or_introl eq_refl)).
      specialize (H2 (entry_multiplier e0) (or_introl eq_refl)).
      rewrite E in H2. lra.
    + intros e He. apply H2. now apply in_map.
Qed.

Lemma getMultiplierInfo_max_sorted_witness :
  contributing SampleRoles.table (Some SampleRoles.member) <> []
  /\ In (multiplier
           (getMultiplierInfo SampleRoles.table (Some SampleRoles.member)))
        (map entry_multiplier
           (contributing SampleRoles.table (Some SampleRoles.member))).
Proof.
  assert (Hne : contributing SampleRoles.table (Some SampleRoles.member)
                <> []) by (vm_compute; discriminate).
  split; [exact Hne|].
  destruct (getMultiplierInfo_max_sorted SampleRoles.table
              (Some SampleRoles.member)) as (_ & _ & _ & _ & H).
  exact (proj1 (H Hne)).
Defined.

(** The example of the specification: factors 1.10 and 1.25 and two roles
    that do not boost. *)
Example getMultiplierInfo_sample :
  getMultiplierInfo SampleRoles.table (Some SampleRoles.member) =
  {| multiplier := (5 # 4)%Q;
     roles := [ mkEntry "Gold" (5 # 4)%Q; mkEntry "Silver" (11 # 10)%Q ] |}.
Proof. vm_compute. reflexivity. Qed.

Example getMultiplierInfo_no_member table :
  getMultiplierInfo table None = {| multiplier := 1%Q; roles := [] |}.
Proof. reflexivity. Qed.

End ProfileFacts.

(* ================================================================== *)
(** * Facts about the dispatcher *)
(* ================================================================== *)

Section DispatchFacts.
Import Js Ws.
Variable env : Env.

Lemma log_append_nil w : log_append w [] = w.
Proof. destruct w. unfold log_append. simpl. now rewrite app_nil_r. Qed.

Lemma log_append_app w l1 l2 :
  log_append (log_append w l1) l2 = log_append w (l1 ++ l2).
Proof. unfold log_append. simpl. now rewrite app_assoc. Qed.

Lemma emit_log e w : emit e w = (Ret tt, log_append w [e]).
Proof. reflexivity. Qed.

(** A message that passes the content check and is accepted by the
    validator reaches [route]. *)
Lemma process_authenticated data w sid tok response st :
  truthy (content_str (content data)) = true ->
  steamId data = Some sid -> token data = Some tok ->
  truthy_str sid = true -> truthy_str tok = true ->
  fetch_auth env sid tok = Ret response ->
  ok response = true -> json response = Ret (Some st) ->
  process env (Parsed data) w =
  route env data (log_append w [CallAuthenticate sid tok]).
Proof.
  intros Hc Hs Ht Hsid Htok Hf Hok Hj.
  unfold process. rewrite Hc, Hs, Ht, Hsid, Htok. simpl.
  unfold authenticate, bind. rewrite emit_log, Hf, Hok. simpl.
  rewrite Hj. reflexivity.
Qed.

(** When the lookup in the handler table finds nothing, [route] logs and
    answers with the error frame if the correlation id is truthy. *)
Lemma route_unknown data w :
  messageHandlers_get (type data) = None ->
  route env data w =
  (Ret tt,
   let w1 :=
     log_append w
       [LogReceived (type data) (default "" (content_str (content data)));
        LogUnhandled (type data)] in
   match correlationId data with
   | Some c =>
       if truthy_str c
       then snd (ws_send (unknown_type_response data c) w1)
       else w1
   | None => w1
   end).
Proof.
  intros Hget. unfold route, bind. rewrite emit_log, Hget, emit_log.
  rewrite log_append_app. simpl app.
  destruct (correlationId data) as [c|]; [|reflexivity].
  destruct (truthy_str c); reflexivity.
Qed.

Lemma messageHandlers_get_None t :
  (forall s, t = Some s -> own_handler s = None /\ inherited s = None) ->
  messageHandlers_get t = None.
Proof.
  intros H. destruct t as [s|]; [|reflexivity]. simpl.
  destruct (H s eq_refl) as [-> ->]. now destruct (truthy_str s).
Qed.

(** A message whose content or steamId is absent or empty does not get
    past the first two tests of the listener: it is dropped, with the log
    line of the failed authentication when the content was there. *)
Lemma incomplete_message_dropped (data : WebsocketMessage) (w : World) :
  truthy (content_str (content data)) = false
  \/ truthy (steamId data) = false ->
  on_message env (Parsed data) w =
  log_append w
    (if truthy (content_str (content data)) then [LogAuthFailed] else []).
Proof.
  intros H. unfold on_message, process.
  destruct (truthy (content_str (content data))); simpl.
  2: now rewrite log_append_nil.
  destruct H as [H|H]; [discriminate|].
  destruct (steamId data) as [sid|], (token data) as [tok|];
    try reflexivity.
  simpl in H. rewrite H. reflexivity.
Qed.

(** C10. A message whose content is absent, [null] or the empty string is
    dropped at once, whatever its type, credentials and correlation id:
    the world after the listener is the world before it, so nothing was
    sent, the validator was not called, no handler ran and no state
    changed. *)
Theorem empty_content_dropped
    (t sid tok cid : option string) (w : World) :
  on_message env (Parsed (mkMessage t sid tok CAbsent cid)) w = w
  /\ on_message env (Parsed (mkMessage t sid tok CNull cid)) w = w
  /\ on_message env (Parsed (mkMessage t sid tok (CString "") cid)) w = w.
Proof. repeat split. Qed.

(** C5. A message without a token or without a steamId never reaches the
    validator or a handler: nothing is sent (with or without a correlation
    id), store, codes and registry are what they were, and the only trace
    is the log line of the failed authentication (not even that when the
    content is empty). *)
Theorem missing_credentials_dropped (data : WebsocketMessage) (w : World) :
  steamId data = None \/ token data = None ->
  let w' := on_message env (Parsed data) w in
  sent w' = sent w
  /\ conn_open w' = conn_open w
  /\ db w' = db w /\ codes w' = codes w /\ registry w' = registry w
  /\ events w' =
     (events w ++
      if truthy (content_str (content data)) then [LogAuthFailed] else [])%list.
Proof.
  intros H w'.
  assert (E : w' = log_append w
                (if truthy (content_str (content data))
                 then [LogAuthFailed] else [])).
  { unfold w', on_message, process.
    destruct (truthy (content_str (content data))); simpl.
    2: now rewrite log_append_nil.
    destruct (steamId data) as [sid|], (token data) as [tok|];
      try reflexivity.
    destruct H; discriminate. }
  rewrite E. repeat split.
Qed.

(** C4, as the code has it.  An authenticated message with non-empty
    content, whose type is absent, empty, or a name that is neither a
    registered handler nor a property inherited from [Object.prototype],
    gets exactly the error frame when its correlation id is a non-empty
    string, and nothing when the correlation id is absent or empty. *)
Theorem unknown_type_answer
    (data : WebsocketMessage) (w : World) sid tok response st :
  truthy (content_str (content data)) = true ->
  steamId data = Some sid -> token data = Some tok ->
  truthy_str sid = true -> truthy_str tok = true ->
  fetch_auth env sid tok = Ret response ->
  ok response = true -> json response = Ret (Some st) ->
  (forall t, type data = Some t ->
             own_handler t = None /\ inherited t = None) ->
  conn_open w = true ->
  (forall c, correlationId data = Some c -> c <> "" ->
     sent (on_message env (Parsed data) w) =
     (sent w ++
      [ {[ "type" := VStr "error";
           "correlationId" := VStr c;
           "success" := VBool false;
           "error" := VStr ("Unknown message type: "
                            +:+ render (type data)) ]} ])%list)
  /\ (correlationId data = None \/ correlationId data = Some "" ->
      sent (on_message env (Parsed data) w) = sent w).
Proof.
  intros Hc Hs Ht Hsid Htok Hf Hok Hj Hty Hopen.
  unfold on_message.
  rewrite (process_authenticated data w sid tok response st) by assumption.
  rewrite route_unknown by now apply messageHandlers_get_None.
  split.
  - intros c Hcid Hne. rewrite Hcid.
    apply truthy_Some in Hne. simpl in Hne. rewrite Hne.
    unfold ws_send. simpl. rewrite Hopen. reflexivity.
  - intros [Hcid|Hcid]; rewrite Hcid; reflexivity.
Qed.

End DispatchFacts.

(* ================================================================== *)
(** * Facts about the handlers *)
(* ================================================================== *)

Section Preservation.
Import Js Ws.
Context {B : Type} (f : World -> B).

Lemma preserves_ret {A} (a : A) : preserves f (ret a).
Proof. intros w. reflexivity. Qed.

Lemma preserves_throw {A} e : preserves f (@throw A e).
Proof. intros w. reflexivity. Qed.

Lemma preserves_gets {A} (g : World -> A) : preserves f (gets g).
Proof. intros w. reflexivity. Qed.

Lemma preserves_bind {A C} (m : M A) (k : A -> M C) :
  preserves f m -> (forall a, preserves f (k a)) -> preserves f (bind m k).
Proof.
  intros Hm Hk w. unfold bind. specialize (Hm w).
  destruct (m w) as [[a|e] w1]; simpl in *; [|exact Hm].
  now rewrite Hk.
Qed.

Lemma preserves_try_catch {A} (m : M A) (h : Error -> M A) :
  preserves f m -> (forall e, preserves f (h e)) ->
  preserves f (try_catch m h).
Proof.
  intros Hm Hh w. unfold try_catch. specialize (Hm w).
  destruct (m w) as [[a|e] w1]; simpl in *; [exact Hm|].
  now rewrite Hh.
Qed.

End Preservation.

(** Breaks a goal [preserves f m] down along the structure of [m]; what
    is left are the primitive steps. *)
Ltac preserve_step :=
  match goal with
  | |- Ws.preserves _ (Ws.bind _ _) => apply preserves_bind; [|intros]
  | |- Ws.preserves _ (Ws.try_catch _ _) =>
      apply preserves_try_catch; [|intros]
  | |- Ws.preserves _ (Ws.ret _) => apply preserves_ret
  | |- Ws.preserves _ (Ws.throw _) => apply preserves_throw
  | |- Ws.preserves _ (Ws.gets _) => apply preserves_gets
  | |- Ws.preserves _ (match ?x with _ => _ end) => destruct x
  end.

Section HandlerFrames.
Import Js Ws.
Variable env : Env.

Lemma emit_keeps e : keeps_connection (emit e).
Proof. split; intros w; reflexivity. Qed.

Lemma prisma_keeps {A} c (run : Db.t -> A * Db.t) :
  keeps_connection (prisma env c run).
Proof.
  split; intros w; unfold prisma;
    destruct (prisma_fault env c (db w)); auto;
    destruct (run (db w)); reflexivity.
Qed.

Lemma on_db_keeps {A} (g : Db.t -> outcome A * Db.t) :
  keeps_connection (on_db g).
Proof.
  split; intros w; unfold on_db; destruct (g (db w)); reflexivity.
Qed.

Lemma set_codes_keeps c : keeps_connection (set_codes c).
Proof. split; intros w; reflexivity. Qed.

Lemma set_registry_keeps r : keeps_connection (set_registry r).
Proof. split; intros w; reflexivity. Qed.

Ltac keeps_sent :=
  repeat first
    [ preserve_step
    | apply (proj1 (emit_keeps _))
    | apply (proj1 (prisma_keeps _ _))
    | apply (proj1 (on_db_keeps _))
    | apply (proj1 (set_codes_keeps _))
    | apply (proj1 (set_registry_keeps _)) ].

Ltac keeps_open :=
  repeat first
    [ preserve_step
    | apply (proj2 (emit_keeps _))
    | apply (proj2 (prisma_keeps _ _))
    | apply (proj2 (on_db_keeps _))
    | apply (proj2 (set_codes_keeps _))
    | apply (proj2 (set_registry_keeps _)) ].

(** No handler writes to the socket or closes it, whether it returns or
    throws. *)
Lemma run_handler_keeps h data : keeps_connection (run_handler env h data).
Proof.
  split; destruct h; simpl.
  - unfold getUser_steam. keeps_sent.
  - unfold linkCode_steam, invalid_code, call_mergeUsers, call_deleteCode,
      notify_discord. keeps_sent.
  - unfold giveXP. keeps_sent.
  - unfold onJoin. keeps_sent.
  - unfold onLeave. keeps_sent.
  - unfold getUser_steam. keeps_open.
  - unfold linkCode_steam, invalid_code, call_mergeUsers, call_deleteCode,
      notify_discord. keeps_open.
  - unfold giveXP. keeps_open.
  - unfold onJoin. keeps_open.
  - unfold onLeave. keeps_open.
Qed.

End HandlerFrames.

Section FaultFacts.
Import Js Ws.
Variable env : Env.

Lemma ws_send_open o : preserves conn_open (ws_send o).
Proof.
  intros w. unfold ws_send. simpl.
  destruct (conn_open w) eqn:E; simpl; auto.
Qed.

Lemma call_open p data : preserves conn_open (call env p data).
Proof.
  destruct p as [h|i]; simpl.
  - apply preserves_bind; [apply emit_keeps|intros _].
    apply run_handler_keeps.
  - destruct i; simpl; first [apply preserves_ret | apply preserves_throw].
Qed.

Lemma process_open frame : preserves conn_open (process env frame).
Proof.
  unfold process, route, authenticate.
  repeat first
    [ preserve_step
    | apply (proj2 (emit_keeps _))
    | apply ws_send_open
    | apply call_open ].
Qed.

(** The listener never closes the connection. *)
Lemma on_message_open frame w :
  conn_open (on_message env frame w) = conn_open w.
Proof.
  unfold on_message. pose proof (process_open frame w) as H.
  destruct (process env frame w) as [[u|e] w1]; simpl in *; exact H.
Qed.

Lemma on_messages_open frames : forall w,
  conn_open (on_messages env frames w) = conn_open w.
Proof.
  induction frames as [|f fs IH]; intros w; auto.
  change (on_messages env (f :: fs) w)
    with (on_messages env fs (on_message env f w)).
  rewrite IH. apply on_message_open.
Qed.

Lemma route_own data w t h :
  type data = Some t -> own_handler t = Some h ->
  route env data w =
  (result <- (emit (CallHandler t) ;; run_handler env h data) ;;
   match correlationId data with
   | Some c =>
       if truthy_str c then
         ws_send (response_of data c result) ;; emit (LogSent c (type data))
       else ret tt
   | None => ret tt
   end)
    (log_append w
       [LogReceived (type data) (default "" (content_str (content data)))]).
Proof.
  intros Ht Hh.
  assert (Hne : truthy_str t = true).
  { destruct t; [discriminate Hh | reflexivity]. }
  assert (Hget : messageHandlers_get (type data) = Some (Own h)).
  { unfold messageHandlers_get. now rewrite Ht, Hne, Hh. }
  unfold route, bind at 1. rewrite emit_log, Hget.
  unfold call. rewrite Ht. reflexivity.
Qed.

(** Should an exception leave a handler (of the five, only
    [linkCode_steam] has no [try] block of its own), the listener's
    [catch] logs its message and nothing is written to the socket. *)
Lemma escaping_exception_logged
    (data : WebsocketMessage) (w w2 : World)
    sid tok response st t h e :
  truthy (content_str (content data)) = true ->
  steamId data = Some sid -> token data = Some tok ->
  truthy_str sid = true -> truthy_str tok = true ->
  fetch_auth env sid tok = Ret response ->
  ok response = true -> json response = Ret (Some st) ->
  type data = Some t -> own_handler t = Some h ->
  run_handler env h data (handler_start data w) = (Throw e, w2) ->
  let w' := on_message env (Parsed data) w in
  w' = log_append w2 [LogError (err_message e)]
  /\ sent w' = sent w.
Proof.
  intros Hc Hs Ht Hsid Htok Hf Hok Hj Hty Hh Hrun w'.
  assert (E : w' = log_append w2 [LogError (err_message e)]).
  { unfold w', on_message.
    rewrite (process_authenticated env data w sid tok response st)
      by assumption.
    rewrite (route_own data _ t h) by assumption.
    unfold bind. rewrite emit_log, log_append_app. simpl app.
    unfold handler_start, bind in Hrun. rewrite !emit_log in Hrun.
    rewrite Hs, Ht, Hty in Hrun. simpl in Hrun.
    rewrite !log_append_app in Hrun. simpl app in Hrun.
    rewrite Hty. rewrite !log_append_app. simpl app.
    rewrite Hrun. reflexivity. }
  pose proof (proj1 (run_handler_keeps env h data) (handler_start data w))
    as Hsent.
  rewrite Hrun in Hsent. simpl in Hsent.
  split; [exact E|]. rewrite E. exact Hsent.
Qed.

End FaultFacts.

Section ProfileHandlerFacts.
Import Js Ws.
Variable env : Env.

Lemma with_db_same w : with_db w (db w) = w.
Proof. now destruct w. Qed.

(** A query that the store answers leaves the world as it is. *)
Lemma prisma_query {A} c (q : Db.t -> A) w :
  prisma_fault env c (db w) = None ->
  prisma env c (query q) w = (Ret (q (db w)), w).
Proof.
  intros H. unfold prisma, query. rewrite H. now rewrite with_db_same.
Qed.

Lemma prisma_fails {A} c (run : Db.t -> A * Db.t) w e :
  prisma_fault env c (db w) = Some e ->
  prisma env c run w = (Throw e, w).
Proof. intros H. unfold prisma. now rewrite H. Qed.

(** C8, as the code has it.  [getUser_steam] with a display name in the
    content and a Steam identity, on a store that answers: when the
    identity has an account with a profile, that profile is returned with
    [success: true] and nothing changes; otherwise a profile with zero
    experience and level 1 is created, stored with its Steam account, and
    returned with [success: true].  A request whose content or identity is
    missing (or empty) does not reach the handler: the listener drops it,
    nothing is sent and nothing changes but the log.  The handler itself,
    called with such a message, returns [success: false]. *)
Theorem getUser_steam_fetch_or_create (data : WebsocketMessage) (w : World) :
  (forall name sid,
     content data = CString name -> steamId data = Some sid ->
     name <> "" -> sid <> "" ->
     prisma_fault env (AccountFindUnique Db.STEAM sid) (db w) = None ->
     (forall a u,
        Db.account_findUnique Db.STEAM sid (db w) = Some (a, Some u) ->
        getUser_steam env data w =
        (Ret (RObj {[ "success" := VBool true; "content" := VUserJson u ]}),
         w))
     /\
     ((forall a u,
         Db.account_findUnique Db.STEAM sid (db w) <> Some (a, Some u)) ->
      prisma_fault env (UserCreate name sid) (db w) = None ->
      exists u w',
        getUser_steam env data w =
        (Ret (RObj {[ "success" := VBool true; "content" := VUserJson u ]}),
         w')
        /\ xp u = 0%Z /\ level u = 1%Z /\ username u = name
        /\ Db.users (db w') = (Db.users (db w) ++ [u])%list
        /\ Db.accounts (db w') =
           (Db.accounts (db w) ++
            [Db.mkAccount Db.STEAM sid name (user_id u)])%list
        /\ codes w' = codes w /\ registry w' = registry w
        /\ sent w' = sent w /\ events w' = events w))
  /\
  (truthy (content_str (content data)) = false
   \/ truthy (steamId data) = false ->
   let w' := on_message env (Parsed data) w in
   w' = log_append w
          (if truthy (content_str (content data))
           then [LogAuthFailed] else [])
   /\ sent w' = sent w
   /\ db w' = db w /\ codes w' = codes w /\ registry w' = registry w
   /\ getUser_steam env data w =
      (Ret (RObj {[ "success" := VBool false;
                    "content" := VStr "Malformed content received." ]}), w)).
Proof.
  split.
  - intros name sid Hc Hs Hname Hsid Hq.
    apply truthy_str_true in Hname, Hsid.
    split.
    + intros a u Hfound.
      unfold getUser_steam, try_catch.
      rewrite Hc, Hs. cbn [content_str]. cbv beta iota.
      rewrite Hname, Hsid. cbn [andb]. cbv beta iota.
      unfold bind. cbv beta. rewrite prisma_query by exact Hq.
      rewrite Hfound. reflexivity.
    + intros Hnone Hcr.
      unfold getUser_steam, try_catch.
      rewrite Hc, Hs. cbn [content_str]. cbv beta iota.
      rewrite Hname, Hsid. cbn [andb]. cbv beta iota.
      unfold bind. cbv beta. rewrite prisma_query by exact Hq.
      assert (Hcreate :
        match Db.account_findUnique Db.STEAM sid (db w) with
        | Some (_, Some user) => ret user
        | _ => prisma env (UserCreate name sid)
                 (Db.user_create (schema_defaults env) name sid 0 1)
        end w
        = prisma env (UserCreate name sid)
            (Db.user_create (schema_defaults env) name sid 0 1) w).
      { destruct (Db.account_findUnique Db.STEAM sid (db w))
          as [[a [u|]]|]; auto.
        exfalso. now apply (Hnone a u). }
      rewrite Hcreate. unfold prisma. rewrite Hcr.
      unfold Db.user_create. simpl.
      eexists. eexists. split; [reflexivity|]. simpl. repeat split.
  - intros Hmiss w'.
    assert (E : w' = log_append w
                  (if truthy (content_str (content data))
                   then [LogAuthFailed] else []))
      by now apply incomplete_message_dropped.
    split; [exact E|]. rewrite E. repeat split.
    unfold getUser_steam, try_catch.
    destruct (content data) as [| |text]; simpl in *;
      try (destruct (steamId data); reflexivity).
    destruct (steamId data) as [sid|]; simpl in *; [|reflexivity].
    destruct Hmiss as [H|H]; rewrite H; simpl; auto.
    now rewrite andb_false_r.
Qed.

(** C3. A link request whose code resolves to an identity, on a store
    that answers with [n] profiles, [n] other than 2: the answer is
    [success: false] with the count in its text; [mergeUsers] is not
    called (the only new event is the console line), the code still
    resolves, and store, code storage and registry are what they were. *)
Theorem linkCode_steam_cardinality
    (data : WebsocketMessage) (w : World) code sid discordId :
  content data = CString code -> steamId data = Some sid ->
  code <> "" -> sid <> "" ->
  CodeStorage.getUser code (codes w) = Some discordId -> discordId <> "" ->
  prisma_fault env (UserFindMany sid discordId) (db w) = None ->
  let n := length (Db.user_findMany sid discordId (db w)) in
  n <> 2 ->
  let w' := snd (linkCode_steam env data w) in
  fst (linkCode_steam env data w) =
    Ret (RObj {[ "success" := VBool false;
                 "content" :=
                   VStr ("Cannot merge when there are more or less than 2 users in the database. Found "
                         +:+ render_nat n +:+ " user(s).") ]})
  /\ events w' = (events w ++ [ConsoleCannotMerge n])%list
  /\ db w' = db w /\ codes w' = codes w /\ registry w' = registry w
  /\ sent w' = sent w
  /\ CodeStorage.getUser code (codes w') = Some discordId.
Proof.
  intros Hc Hs Hcode Hsid Hget Hd Hq n Hn w'.
  apply truthy_str_true in Hcode, Hsid, Hd.
  assert (E : linkCode_steam env data w =
              (Ret (RObj {[ "success" := VBool false;
                            "content" := VStr (cannot_merge n) ]}),
               log_append w [ConsoleCannotMerge n])).
  { unfold linkCode_steam. rewrite Hc, Hs. cbn [content_str]. cbv beta iota.
    rewrite Hcode, Hsid. cbn [andb]. cbv beta iota.
    unfold bind at 1. unfold gets. rewrite Hget, Hd.
    unfold bind at 1. rewrite prisma_query by exact Hq.
    fold n.
    destruct (Db.user_findMany sid discordId (db w))
      as [|r1 [|r2 [|r3 rest]]] eqn:El; try reflexivity.
    exfalso. apply Hn. reflexivity. }
  unfold w'. rewrite E. simpl. repeat split. exact Hget.
Qed.

(** A join request of a player with a profile enters the player in the
    registry and resolves to [undefined]: the success branch of [onJoin]
    has no [return]. *)
Lemma onJoin_found (data : WebsocketMessage) (w : World) text sid u :
  content data = CString text -> steamId data = Some sid ->
  text <> "" -> sid <> "" ->
  prisma_fault env (UserFindFirst sid) (db w) = None ->
  Db.user_findFirst sid (db w) = Some u ->
  onJoin env data w =
  (Ret RUndefined,
   with_registry w (PlayerList.addPlayer sid u (registry w))).
Proof.
  intros Hc Hs Htext Hsid Hq Hfound.
  apply truthy_str_true in Htext, Hsid.
  unfold onJoin, try_catch.
  rewrite Hc, Hs. cbn [content_str]. cbv beta iota.
  rewrite Htext, Hsid. cbn [andb]. cbv beta iota.
  unfold bind at 1. rewrite prisma_query by exact Hq.
  rewrite Hfound. reflexivity.
Qed.

(** The frame built from an [undefined] result has no [success]
    property. *)
Lemma response_of_undefined data c :
  response_of data c RUndefined !! "success" = None.
Proof. unfold response_of. simpl. now simplify_map_eq. Qed.

End ProfileHandlerFacts.

Section CodeFacts.
Import Js Ws.
Variable env : Env.

(** Deleting the codes of an identity leaves no code that resolves to
    it. *)
Lemma deleteCode_getUser code userId stored :
  CodeStorage.getUser code stored = Some userId ->
  CodeStorage.getUser code (CodeStorage.deleteCode userId stored) = None.
Proof.
  unfold CodeStorage.getUser, CodeStorage.deleteCode. intros H.
  apply map_lookup_filter_None. right. intros x Hx. simpl.
  rewrite H in Hx. injection Hx as <-. auto.
Qed.

Lemma deleteCode_other code userId stored :
  CodeStorage.getUser code stored = None ->
  CodeStorage.getUser code (CodeStorage.deleteCode userId stored) = None.
Proof.
  unfold CodeStorage.getUser, CodeStorage.deleteCode. intros H.
  apply map_lookup_filter_None. now left.
Qed.

Lemma prisma_codes {A} c (run : Db.t -> A * Db.t) :
  preserves codes (prisma env c run).
Proof.
  intros w. unfold prisma. destruct (prisma_fault env c (db w)); auto.
  destruct (run (db w)); reflexivity.
Qed.

Lemma on_db_codes {A} (g : Db.t -> outcome A * Db.t) :
  preserves codes (on_db g).
Proof. intros w. unfold on_db. destruct (g (db w)); reflexivity. Qed.

Lemma emit_codes e : preserves codes (emit e).
Proof. intros w. reflexivity. Qed.

Lemma notify_discord_codes id : preserves codes (notify_discord env id).
Proof.
  unfold notify_discord.
  repeat first [preserve_step | apply emit_codes].
Qed.

Lemma call_mergeUsers_codes a b : preserves codes (call_mergeUsers env a b).
Proof.
  unfold call_mergeUsers.
  repeat first [preserve_step | apply emit_codes | apply on_db_codes].
Qed.

(** What happens after [mergeUsers] has answered with success. *)
Lemma after_merge_codes discordId accounts w :
  codes
    (snd ((call_deleteCode discordId ;;
           match discord_id_of accounts with
           | Some discordUserId =>
               if truthy_str discordUserId
               then notify_discord env discordUserId
               else ret tt
           | None => ret tt
           end) w))
  = CodeStorage.deleteCode discordId (codes w).
Proof.
  unfold bind, call_deleteCode, gets, set_codes. simpl.
  destruct (discord_id_of accounts) as [d|]; [|reflexivity].
  destruct (truthy_str d); [|reflexivity].
  now rewrite notify_discord_codes.
Qed.

(** A link request with a code that does not resolve is refused before
    the store or [mergeUsers] are touched. *)
Lemma linkCode_steam_unknown_code (data : WebsocketMessage) (w : World)
    code sid :
  content data = CString code -> steamId data = Some sid ->
  code <> "" -> sid <> "" ->
  CodeStorage.getUser code (codes w) = None ->
  linkCode_steam env data w =
  (Ret (RObj {[ "success" := VBool false;
                "content" := VStr "Invalid code entered." ]}),
   log_append w [ConsoleInvalidCode]).
Proof.
  intros Hc Hs Hcode Hsid Hget.
  apply truthy_str_true in Hcode, Hsid.
  unfold linkCode_steam. rewrite Hc, Hs. cbn [content_str]. cbv beta iota.
  rewrite Hcode, Hsid. cbn [andb]. cbv beta iota.
  unfold bind at 1, gets. rewrite Hget. reflexivity.
Qed.

Lemma linkCode_steam_code_gone
    (data : WebsocketMessage) (w w' : World) code o :
  content data = CString code ->
  linkCode_steam env data w = (Ret (RObj o), w') ->
  o !! "success" = Some (VBool true) ->
  CodeStorage.getUser code (codes w') = None.
Proof.
  intros Hc Hrun Hok. unfold linkCode_steam in Hrun.
  rewrite Hc in Hrun. cbn [content_str] in Hrun.
  destruct (steamId data) as [sid|];
    [|injection Hrun as <- <-; simplify_map_eq].
  destruct (truthy_str code && truthy_str sid);
    [|injection Hrun as <- <-; simplify_map_eq].
  unfold bind at 1, gets in Hrun.
  destruct (CodeStorage.getUser code (codes w)) as [discordId|] eqn:Hget;
    [|injection Hrun as <- <-; simplify_map_eq].
  destruct (truthy_str discordId);
    [|injection Hrun as <- <-; simplify_map_eq].
  unfold bind at 1 in Hrun.
  pose proof (prisma_codes (UserFindMany sid discordId)
                (query (Db.user_findMany sid discordId)) w) as Hq.
  destruct (prisma env (UserFindMany sid discordId)
              (query (Db.user_findMany sid discordId)) w)
    as [[result|e] w1]; [|discriminate Hrun].
  simpl in Hq.
  destruct result as [|r1 [|r2 [|r3 rest]]];
    try (injection Hrun as <- <-; simplify_map_eq).
  unfold bind at 1 in Hrun.
  pose proof (call_mergeUsers_codes (user_id (fst r1)) (user_id (fst r2)) w1)
    as Hm.
  destruct (call_mergeUsers env (user_id (fst r1)) (user_id (fst r2)) w1)
    as [[response|e] w2]; [|discriminate Hrun].
  simpl in Hm.
  destruct (merge_success response) eqn:Hs.
  - unfold bind at 1 in Hrun.
    pose proof (after_merge_codes discordId (snd r2) w2) as Hafter.
    destruct ((call_deleteCode discordId ;;
               match discord_id_of (snd r2) with
               | Some discordUserId =>
                   if truthy_str discordUserId
                   then notify_discord env discordUserId
                   else ret tt
               | None => ret tt
               end) w2) as [[u|e] w3]; [|discriminate Hrun].
    simpl in Hafter. injection Hrun as _ <-.
    rewrite Hafter, Hm, Hq. now apply deleteCode_getUser.
  - injection Hrun as <- <-. simplify_map_eq.
Qed.

(** C2. When a link request is answered with [success: true], that is
    when [mergeUsers] answered with success, the code of the request no
    longer resolves to any identity in the code storage, and a second
    link request with the same code is refused as an invalid code without
    a call of [mergeUsers]. *)
Theorem linkCode_steam_consumes_code
    (data : WebsocketMessage) (w w' : World) code o :
  content data = CString code ->
  linkCode_steam env data w = (Ret (RObj o), w') ->
  o !! "success" = Some (VBool true) ->
  CodeStorage.getUser code (codes w') = None
  /\ forall replay sid,
       content replay = CString code -> steamId replay = Some sid ->
       code <> "" -> sid <> "" ->
       linkCode_steam env replay w' =
       (Ret (RObj {[ "success" := VBool false;
                     "content" := VStr "Invalid code entered." ]}),
        log_append w' [ConsoleInvalidCode]).
Proof.
  intros Hc Hrun Hok.
  pose proof (linkCode_steam_code_gone data w w' code o Hc Hrun Hok) as Hgone.
  split; [exact Hgone|].
  intros replay sid Hrc Hrs Hcode Hsid.
  now apply (linkCode_steam_unknown_code replay w' code sid).
Qed.

End CodeFacts.

(* ================================================================== *)
(** * The theorems at work on the sample data *)
(* ================================================================== *)

Section Instances.
Import Js Ws SampleWs SampleFaults.

(** C1, the failing input.  A link request with the correlation id
    ["abc"] and a pairing code that resolves, while the store cannot be
    reached.  [linkCode_steam] has no [try] block: the rejection of
    [findMany] leaves the handler and ends in the listener's [catch],
    which only logs.  No frame is sent, where the claim promises
    [{success: false, error}]; the connection stays open.  The sibling
    [getUser_steam], which has a [try] block, answers the same fault of
    the same store with [success: false] and the description of the
    error. *)
Theorem linkCode_steam_fault_unanswered :
  correlationId link_msg = Some "abc"
  /\ fst (run_handler env_store_down H_linkCode_steam link_msg
            (handler_start link_msg w0)) = Throw store_down
  /\ sent (on_message env_store_down (Parsed link_msg) w0) = []
  /\ events (on_message env_store_down (Parsed link_msg) w0) =
     [ CallAuthenticate "S1" "good";
       LogReceived (Some "linkCode_steam") "483920";
       CallHandler "linkCode_steam";
       LogError "Can't reach database server" ]
  /\ conn_open (on_message env_store_down (Parsed link_msg) w0) = true
  /\ sent (on_message env_store_down
             (Parsed (msg "getUser_steam" "S1" "Nova" (Some "abc"))) w0) =
     [ {[ "type" := VStr "getUser_steam_response";
          "correlationId" := VStr "abc";
          "success" := VBool false;
          "error" :=
            VStr "Failed to get user: Error: Can't reach database server" ]} ].
Proof. repeat split; vm_compute; reflexivity. Qed.

(** The same fault by way of the lemma on escaping exceptions. *)
Example linkCode_steam_fault_logged :
  on_message env_findMany_down (Parsed link_msg) w0 =
  log_append (handler_start link_msg w0)
    [LogError "Can't reach database server"].
Proof.
  apply (escaping_exception_logged env_findMany_down link_msg w0
           (handler_start link_msg w0)
           "S1" "good"
           {| ok := true;
              json := Ret (Some {| auth_steamId := 1;
                                   auth_status := "ok" |}) |}
           {| auth_steamId := 1; auth_status := "ok" |}
           "linkCode_steam" H_linkCode_steam store_down);
    reflexivity.
Qed.

(** After that fault the connection serves the next message as usual. *)
Example connection_usable_after_fault :
  sent (on_messages env_findMany_down
          [Parsed link_msg; Parsed unknown_msg] w0) =
  [ {[ "type" := VStr "error"; "correlationId" := VStr "abc";
       "success" := VBool false;
       "error" := VStr "Unknown message type: noSuchType" ]} ].
Proof. vm_compute. reflexivity. Qed.

(** The faults that the handlers catch themselves do get an answer. *)
Example getUser_steam_store_fault :
  fst (getUser_steam env_store_down
         (msg "getUser_steam" "S1" "Nova" (Some "abc")) w0) =
  Ret (RObj {[ "success" := VBool false;
               "error" := VStr "Failed to get user: Error: Can't reach database server" ]}).
Proof. reflexivity. Qed.

Lemma linkCode_steam_consumes_code_witness :
  CodeStorage.getUser "483920" codes0 = Some "D2"
  /\ CodeStorage.getUser "483920"
       (codes (snd (linkCode_steam env_ok link_msg w0))) = None.
Proof.
  split; [reflexivity|].
  apply (linkCode_steam_consumes_code env_ok link_msg w0
           (snd (linkCode_steam env_ok link_msg w0)) "483920"
           {[ "success" := VBool true; "content" := VStr "Accounts merged." ]}).
  - reflexivity.
  - vm_compute. reflexivity.
  - vm_compute. reflexivity.
Defined.

(** The same request sent twice: the second one is refused. *)
Example link_replay_refused :
  sent (on_messages env_ok [Parsed link_msg; Parsed link_msg] w0) =
  [ {[ "type" := VStr "linkCode_steam_response";
       "correlationId" := VStr "abc";
       "success" := VBool true; "content" := VStr "Accounts merged." ]};
    {[ "type" := VStr "linkCode_steam_response";
       "correlationId" := VStr "abc";
       "success" := VBool false;
       "content" := VStr "Invalid code entered." ]} ].
Proof. vm_compute. reflexivity. Qed.

(** A link request from a Steam identity that has no profile yet: one
    profile matches. *)
Lemma linkCode_steam_cardinality_witness :
  fst (linkCode_steam env_ok (msg "linkCode_steam" "S9" "483920" (Some "abc"))
         w0) =
  Ret (RObj {[ "success" := VBool false;
               "content" :=
                 VStr "Cannot merge when there are more or less than 2 users in the database. Found 1 user(s)." ]})
  /\ codes (snd (linkCode_steam env_ok
                   (msg "linkCode_steam" "S9" "483920" (Some "abc")) w0))
     = codes0.
Proof.
  assert (Hne : forall a b : string, String.eqb a b = false -> a <> b).
  { intros a b H. now apply String.eqb_neq. }
  destruct (linkCode_steam_cardinality env_ok
              (msg "linkCode_steam" "S9" "483920" (Some "abc")) w0
              "483920" "S9" "D2" eq_refl eq_refl
              (Hne "483920" "" eq_refl) (Hne "S9" "" eq_refl) eq_refl
              (Hne "D2" "" eq_refl) eq_refl)
    as (Hres & _ & _ & Hcodes & _).
  - vm_compute. lia.
  - split; [exact Hres | exact Hcodes].
Defined.

Lemma unknown_type_answer_witness :
  sent (on_message env_ok (Parsed unknown_msg) w0) =
  [ {[ "type" := VStr "error"; "correlationId" := VStr "abc";
       "success" := VBool false;
       "error" := VStr "Unknown message type: noSuchType" ]} ].
Proof.
  assert (Hne : forall a b : string, String.eqb a b = false -> a <> b).
  { intros a b H. now apply String.eqb_neq. }
  destruct (unknown_type_answer env_ok unknown_msg w0 "S1" "good"
              {| ok := true;
                 json := Ret (Some {| auth_steamId := 1;
                                      auth_status := "ok" |}) |}
              {| auth_steamId := 1; auth_status := "ok" |}
              eq_refl eq_refl eq_refl eq_refl eq_refl eq_refl eq_refl eq_refl)
    as [Hsend _].
  - intros t [= <-]. split; reflexivity.
  - reflexivity.
  - exact (Hsend "abc" eq_refl (Hne "abc" "" eq_refl)).
Defined.

(** C4 does not hold as the specification words it, in two ways.  An
    empty correlation id is carried by the message and yet nothing is
    sent; and a type that names a property of [Object.prototype], which no
    handler is registered for, is called as if it were a handler, so the
    frame that goes out is not the error frame. *)
Lemma unknown_type_not_answered :
  (own_handler "noSuchType" = None
   /\ correlationId (msg "noSuchType" "S1" "x" (Some "")) = Some ""
   /\ sent (on_message env_ok (Parsed (msg "noSuchType" "S1" "x" (Some "")))
              w0) = [])
  /\
  (own_handler "valueOf" = None
   /\ sent (on_message env_ok (Parsed (msg "valueOf" "S1" "x" (Some "abc")))
              w0) =
      [ {[ "type" := VStr "valueOf_response";
           "correlationId" := VStr "abc" ]} ]).
Proof. repeat split. Qed.

Lemma missing_credentials_dropped_witness :
  sent (on_message env_ok
          (Parsed {| type := Some "getUser_steam"; steamId := Some "S1";
                     token := None; content := CString "Nova";
                     correlationId := Some "abc" |}) w0) = []
  /\ events (on_message env_ok
          (Parsed {| type := Some "getUser_steam"; steamId := Some "S1";
                     token := None; content := CString "Nova";
                     correlationId := Some "abc" |}) w0) = [LogAuthFailed].
Proof.
  destruct (missing_credentials_dropped env_ok
              {| type := Some "getUser_steam"; steamId := Some "S1";
                 token := None; content := CString "Nova";
                 correlationId := Some "abc" |} w0 (or_intror eq_refl))
    as (Hsent & _ & _ & _ & _ & Hev).
  split; [exact Hsent | exact Hev].
Defined.

Lemma getUser_steam_fetch_or_create_witness :
  fst (getUser_steam env_ok (msg "getUser_steam" "S1" "Nova" None) w0) =
  Ret (RObj {[ "success" := VBool true; "content" := VUserJson Sample.nova ]})
  /\ (exists u w',
        getUser_steam env_ok (msg "getUser_steam" "S9" "Zed" None) w0 =
        (Ret (RObj {[ "success" := VBool true; "content" := VUserJson u ]}), w')
        /\ xp u = 0%Z /\ level u = 1%Z)
  /\ on_message env_ok (Parsed no_identity_msg) w0 =
     log_append w0 [LogAuthFailed].
Proof.
  assert (Hne : forall a b : string, String.eqb a b = false -> a <> b).
  { intros a b H. now apply String.eqb_neq. }
  split; [|split].
  - destruct (getUser_steam_fetch_or_create env_ok
                (msg "getUser_steam" "S1" "Nova" None) w0) as [H _].
    destruct (H "Nova" "S1" eq_refl eq_refl (Hne "Nova" "" eq_refl)
                (Hne "S1" "" eq_refl) eq_refl) as [Hfound _].
    rewrite (Hfound (Db.mkAccount Db.STEAM "S1" "Nova" 1) Sample.nova eq_refl).
    reflexivity.
  - destruct (getUser_steam_fetch_or_create env_ok
                (msg "getUser_steam" "S9" "Zed" None) w0) as [H _].
    destruct (H "Zed" "S9" eq_refl eq_refl (Hne "Zed" "" eq_refl)
                (Hne "S9" "" eq_refl) eq_refl) as [_ Hnew].
    destruct Hnew as (u & w' & Hrun & Hxp & Hlevel & _).
    + intros a u. vm_compute. discriminate.
    + reflexivity.
    + exists u, w'. auto.
  - destruct (getUser_steam_fetch_or_create env_ok no_identity_msg w0)
      as [_ H].
    destruct (H (or_intror eq_refl)) as [Hdrop _]. exact Hdrop.
Defined.

(** C8 does not hold as the specification words it: a profile request
    without content, or without an identity, is answered by nobody.  The
    listener drops it before any handler is looked up, and although the
    request carries the correlation id ["abc"] no frame is sent, so there
    is no [success: false] for the sender to read. *)
Lemma getUser_steam_malformed_unanswered :
  (type no_content_msg = Some "getUser_steam"
   /\ content no_content_msg = CAbsent
   /\ correlationId no_content_msg = Some "abc"
   /\ sent (on_message env_ok (Parsed no_content_msg) w0) = []
   /\ events (on_message env_ok (Parsed no_content_msg) w0) = [])
  /\
  (type no_identity_msg = Some "getUser_steam"
   /\ steamId no_identity_msg = None
   /\ correlationId no_identity_msg = Some "abc"
   /\ sent (on_message env_ok (Parsed no_identity_msg) w0) = []
   /\ events (on_message env_ok (Parsed no_identity_msg) w0) =
      [LogAuthFailed]).
Proof. repeat split. Qed.

(** The two definers of [Object.prototype], called by name through the
    handler table, throw each with its own text; the listener logs it and
    sends nothing. *)
Example inherited_definers_logged :
  events (on_message env_ok
            (Parsed (msg "__defineSetter__" "S1" "x" (Some "abc"))) w0) =
  [ CallAuthenticate "S1" "good";
    LogReceived (Some "__defineSetter__") "x";
    LogError "Object.prototype.__defineSetter__: Expecting function" ]
  /\ events (on_message env_ok
               (Parsed (msg "__defineGetter__" "S1" "x" (Some "abc"))) w0) =
     [ CallAuthenticate "S1" "good";
       LogReceived (Some "__defineGetter__") "x";
       LogError "Object.prototype.__defineGetter__: Expecting function" ]
  /\ sent (on_message env_ok
             (Parsed (msg "__defineSetter__" "S1" "x" (Some "abc"))) w0) = [].
Proof. repeat split. Qed.

(** C6, the failing input.  A join request of a player with a profile,
    carrying the correlation id ["abc"]: the player is entered in the
    registry, [onJoin] ends without a [return], and the frame that goes
    out has a type and a correlation id but no [success] property. *)
Theorem onJoin_answer_lacks_success :
  PlayerList.getPlayerBySteamID "S1"
    (registry (on_message env_ok (Parsed join_msg) w0)) = Some Sample.nova
  /\ sent (on_message env_ok (Parsed join_msg) w0) =
     [ {[ "type" := VStr "onJoin_response"; "correlationId" := VStr "abc" ]} ]
  /\ forall frame,
       In frame (sent (on_message env_ok (Parsed join_msg) w0)) ->
       frame !! "success" = None.
Proof.
  split; [reflexivity|]. split; [vm_compute; reflexivity|].
  intros frame Hin.
  assert (E : sent (on_message env_ok (Parsed join_msg) w0) =
              [ {[ "type" := VStr "onJoin_response";
                   "correlationId" := VStr "abc" ]} ])
    by (vm_compute; reflexivity).
  rewrite E in Hin. destruct Hin as [<-|[]]. reflexivity.
Qed.

(** The sibling handler does return its result. *)
Example onLeave_answer_has_success :
  sent (on_message env_ok (Parsed (msg "onLeave" "S1" "left" (Some "abc")))
          w0) =
  [ {[ "type" := VStr "onLeave_response"; "correlationId" := VStr "abc";
       "success" := VBool true;
       "content" := VStr "Player successfully removed from the list." ]} ].
Proof. vm_compute. reflexivity. Qed.

End Instances.

(* ================================================================== *)
(** * More about the insertion-ordered map and the registry *)
(* ================================================================== *)

Section JsMapFacts.
Import Registry.

Lemma get_set_eq k v m : JsMap.get k (JsMap.set k v m) = Some v.
Proof.
  induction m as [|[k' v'] r IH]; simpl.
  - now rewrite String.eqb_refl.
  - destruct (String.eqb k k') eqn:E; simpl; rewrite E; auto.
Qed.

Lemma get_set_ne k k' v m :
  k <> k' -> JsMap.get k' (JsMap.set k v m) = JsMap.get k' m.
Proof.
  intros Hne. induction m as [|[k0 v0] r IH]; simpl.
  - destruct (String.eqb_spec k' k); congruence.
  - destruct (String.eqb_spec k k0); simpl.
    + subst. destruct (String.eqb_spec k' k0); congruence.
    + now rewrite IH.
Qed.

Lemma get_None_keys k m : JsMap.get k m = None <-> ~ In k (keys m).
Proof.
  induction m as [|[k' v'] r IH]; simpl.
  - tauto.
  - destruct (String.eqb_spec k k').
    + subst. split; [discriminate | intros H; exfalso; apply H; now left].
    + rewrite IH. split; [intros H [E|E]; [congruence | tauto] | tauto].
Qed.

Lemma keys_set k v m :
  keys (JsMap.set k v m) =
  if JsMap.has k m then keys m else (keys m ++ [k])%list.
Proof.
  unfold JsMap.has.
  induction m as [|[k' v'] r IH]; simpl; auto.
  destruct (String.eqb_spec k k'); simpl; auto.
  rewrite IH. now destruct (JsMap.get k r).
Qed.

Lemma length_set k v m :
  length (JsMap.set k v m) =
  if JsMap.has k m then length m else S (length m).
Proof.
  pose proof (keys_set k v m) as H. unfold keys in H.
  apply (f_equal (@length string)) in H. rewrite length_map in H.
  rewrite H. destruct (JsMap.has k m); rewrite ?length_app, length_map;
    simpl; lia.
Qed.

Lemma keys_remove_incl k m x : In x (keys (JsMap.remove k m)) -> In x (keys m).
Proof.
  induction m as [|[k' v'] r IH]; simpl; auto.
  destruct (String.eqb k k'); simpl; tauto.
Qed.

Lemma NoDup_set k v m : NoDup (keys m) -> NoDup (keys (JsMap.set k v m)).
Proof.
  intros H. rewrite keys_set. unfold JsMap.has.
  destruct (JsMap.get k m) eqn:E; auto.
  apply get_None_keys in E.
  apply NoDup_app. repeat split; auto.
  - intros x Hx Hx'. apply list_elem_of_In in Hx, Hx'.
    destruct Hx' as [<-|[]]. contradiction.
  - apply NoDup_singleton.
Qed.

Lemma NoDup_remove k m : NoDup (keys m) -> NoDup (keys (JsMap.remove k m)).
Proof.
  induction m as [|[k' v'] r IH]; simpl; auto.
  intros H. apply NoDup_cons in H. destruct H as [Hin Hr].
  destruct (String.eqb k k'); simpl; auto.
  apply NoDup_cons. split; auto.
  intros Hx. apply Hin. apply list_elem_of_In.
  apply list_elem_of_In in Hx. now apply keys_remove_incl in Hx.
Qed.

Lemma get_remove_eq k m :
  NoDup (keys m) -> JsMap.get k (JsMap.remove k m) = None.
Proof.
  induction m as [|[k' v'] r IH]; simpl; auto.
  intros H. apply NoDup_cons in H. destruct H as [Hin Hr].
  destruct (String.eqb_spec k k'); simpl.
  - subst. apply get_None_keys. intros Hx. apply Hin.
    now apply list_elem_of_In.
  - destruct (String.eqb_spec k k'); [contradiction|]. auto.
Qed.

Lemma get_remove_ne k k' m :
  k <> k' -> JsMap.get k' (JsMap.remove k m) = JsMap.get k' m.
Proof.
  intros Hne. induction m as [|[k0 v0] r IH]; simpl; auto.
  destruct (String.eqb_spec k k0); simpl.
  - subst. destruct (String.eqb_spec k' k0); congruence.
  - now rewrite IH.
Qed.

Lemma remove_absent k m : JsMap.get k m = None -> JsMap.remove k m = m.
Proof.
  induction m as [|[k' v'] r IH]; simpl; auto.
  destruct (String.eqb k k'); [discriminate|].
  intros H. now rewrite IH.
Qed.

Lemma length_remove k m :
  length (JsMap.remove k m) =
  if JsMap.has k m then pred (length m) else length m.
Proof.
  unfold JsMap.has.
  induction m as [|[k' v'] r IH]; simpl; auto.
  destruct (String.eqb k k'); simpl; auto.
  rewrite IH. destruct (JsMap.get k r) eqn:E; auto.
  destruct r; [discriminate E | reflexivity].
Qed.

End JsMapFacts.

Section RegistryMore.
Import Heap PlayerList Registry.

(** [String.prototype.toLowerCase] *)
Variable lower : string -> string.

Lemma wf_set_players m st : wf st -> wf (set_players m st).
Proof. unfold wf, set_players. now rewrite length_assign. Qed.

Lemma count_set_players m st : wf st -> count (set_players m st) = length m.
Proof.
  intros H. unfold count, getAllPlayers.
  rewrite this_players_set_players by exact H.
  unfold JsMap.values. apply length_map.
Qed.

Lemma count_length st : count st = length (this_players st).
Proof. unfold count, getAllPlayers, JsMap.values. apply length_map. Qed.

Lemma distinct_set_players m st :
  wf st -> NoDup (keys m) -> distinct_keys (set_players m st).
Proof.
  intros H Hm. unfold distinct_keys.
  now rewrite this_players_set_players.
Qed.

Lemma find_entry_get n m k u :
  find_entry lower n m = Some (k, u) -> In (k, u) m /\ name_matches lower n u = true.
Proof. unfold find_entry. intros H. apply find_some in H. exact H. Qed.

Lemma find_entry_has n m k u :
  find_entry lower n m = Some (k, u) -> JsMap.has k m = true.
Proof.
  intros H. apply find_entry_get in H. destruct H as [Hin _].
  unfold JsMap.has. destruct (JsMap.get k m) eqn:E; auto.
  apply get_None_keys in E. exfalso. apply E.
  unfold keys. apply in_map_iff. now exists (k, u).
Qed.

Lemma find_entry_values n m :
  option_map snd (find_entry lower n m) = List.find (name_matches lower n) (JsMap.values m).
Proof.
  unfold find_entry, JsMap.values.
  induction m as [|[k u] r IH]; simpl; auto.
  destruct (name_matches lower n u); simpl; auto.
Qed.

(** Every registry operation keeps the static field allocated and the
    keys of the registry's map distinct. *)
Lemma run_invariant c st :
  wf st -> distinct_keys st ->
  wf (snd (run lower c st)) /\ distinct_keys (snd (run lower c st)).
Proof.
  intros Hwf Hd. split; [now apply run_wf|].
  destruct c; cbn [run]; auto.
  - unfold getPlayerList, alloc. simpl.
    unfold distinct_keys, this_players, deref in *. simpl.
    rewrite lookup_app_l by exact Hwf. exact Hd.
  - apply distinct_set_players; auto. now apply NoDup_set.
  - unfold updatePlayerBySteamID.
    destruct (JsMap.get steamId (this_players st)); simpl; auto.
    apply distinct_set_players; auto. now apply NoDup_set.
  - unfold updatePlayerByUsername.
    destruct (find_entry lower _ (this_players st)) as [[k u]|]; simpl; auto.
    apply distinct_set_players; auto. now apply NoDup_set.
  - unfold removePlayerBySteamID. simpl.
    apply distinct_set_players; auto. now apply NoDup_remove.
  - unfold removePlayerByUsername.
    destruct (find_entry lower _ (this_players st)) as [[k u]|]; simpl; auto.
    apply distinct_set_players; auto. now apply NoDup_remove.
Qed.

Lemma run_all_invariant cs : forall st,
  wf st -> distinct_keys st ->
  wf (snd (run_all lower cs st)) /\ distinct_keys (snd (run_all lower cs st)).
Proof.
  induction cs as [|c cs IH]; intros st Hwf Hd; simpl; auto.
  destruct (run_invariant c st Hwf Hd) as [H1 H2].
  destruct (run lower c st) as [r st1]; simpl in *.
  specialize (IH st1 H1 H2).
  destruct (run_all lower cs st1) as [rs st2]; simpl in *. exact IH.
Qed.

(** X1. Whatever sequence of registry operations has run since the class
    was loaded, the registry's map is allocated and no Steam id occurs
    twice in it: re-adding or updating a key overwrites, it never
    appends. *)
Theorem registry_keys_distinct (cs : list Call) :
  wf (reached lower cs) /\ NoDup (keys (this_players (reached lower cs))).
Proof.
  unfold reached. apply run_all_invariant.
  - apply init_wf.
  - unfold distinct_keys. vm_compute. constructor.
Qed.

Lemma addPlayer_get_set st k u :
  wf st ->
  getPlayerBySteamID k (addPlayer k u st) = Some u
  /\ forall k', k' <> k ->
       getPlayerBySteamID k' (addPlayer k u st) = getPlayerBySteamID k' st.
Proof.
  intros Hwf. unfold getPlayerBySteamID, addPlayer.
  rewrite this_players_set_players by exact Hwf.
  split; [apply get_set_eq|].
  intros k' Hne. apply get_set_ne. congruence.
Qed.

Lemma remove_get_set st k :
  wf st -> NoDup (keys (this_players st)) ->
  getPlayerBySteamID k (snd (removePlayerBySteamID k st)) = None
  /\ forall k', k' <> k ->
       getPlayerBySteamID k' (snd (removePlayerBySteamID k st))
       = getPlayerBySteamID k' st.
Proof.
  intros Hwf Hd. unfold removePlayerBySteamID, getPlayerBySteamID. simpl.
  rewrite this_players_set_players by exact Hwf.
  split; [now apply get_remove_eq|].
  intros k' Hne. apply get_remove_ne. congruence.
Qed.

(** X2. [addPlayer] followed by [getPlayerBySteamID] on the same id gives
    the profile just stored, lookups of other ids are unaffected, and the
    number of players grows by one for a new id and stays the same for a
    known one (last write wins). *)
Theorem addPlayer_then_get (st : State) (k : string) (u : User) :
  wf st ->
  getPlayerBySteamID k (addPlayer k u st) = Some u
  /\ (forall k', k' <> k ->
        getPlayerBySteamID k' (addPlayer k u st) = getPlayerBySteamID k' st)
  /\ count (addPlayer k u st) =
     match getPlayerBySteamID k st with
     | Some _ => count st
     | None => S (count st)
     end.
Proof.
  intros Hwf. unfold getPlayerBySteamID, addPlayer.
  rewrite this_players_set_players by exact Hwf.
  split; [apply get_set_eq|]. split.
  - intros k' Hne. apply get_set_ne. congruence.
  - rewrite count_set_players by exact Hwf. rewrite length_set, count_length.
    unfold JsMap.has. now destruct (JsMap.get k (this_players st)).
Qed.

Lemma addPlayer_then_get_witness :
  getPlayerBySteamID "S1" (addPlayer "S1" Sample.rook Sample.registry1)
  = Some Sample.rook
  /\ count (addPlayer "S1" Sample.rook Sample.registry1) = 1.
Proof.
  assert (Hwf : wf Sample.registry1) by (vm_compute; lia).
  destruct (addPlayer_then_get Sample.registry1 "S1" Sample.rook Hwf)
    as (H1 & _ & H3).
  split; [exact H1|]. etransitivity; [exact H3 | reflexivity].
Defined.

(** X3. [removePlayerBySteamID] answers [true] exactly when the id was
    registered; afterwards the id is not registered, the other ids are
    what they were, and removing an unknown id changes nothing in the
    registry's map. *)
Theorem removePlayerBySteamID_spec (st : State) (k : string) :
  wf st -> NoDup (keys (this_players st)) ->
  let r := removePlayerBySteamID k st in
  (fst r = true <-> getPlayerBySteamID k st <> None)
  /\ getPlayerBySteamID k (snd r) = None
  /\ (forall k', k' <> k ->
        getPlayerBySteamID k' (snd r) = getPlayerBySteamID k' st)
  /\ (getPlayerBySteamID k st = None -> this_players (snd r) = this_players st)
  /\ count (snd r) = (if fst r then pred (count st) else count st).
Proof.
  intros Hwf Hd r. unfold r, removePlayerBySteamID, getPlayerBySteamID.
  simpl. rewrite this_players_set_players by exact Hwf.
  repeat split.
  - unfold JsMap.has. destruct (JsMap.get k (this_players st)); congruence.
  - unfold JsMap.has. destruct (JsMap.get k (this_players st)); congruence.
  - now apply get_remove_eq.
  - intros k' Hne. apply get_remove_ne. congruence.
  - apply remove_absent.
  - rewrite count_set_players by exact Hwf.
    rewrite length_remove, count_length. reflexivity.
Qed.

Lemma removePlayerBySteamID_spec_witness :
  fst (removePlayerBySteamID "S1" Sample.registry1) = true
  /\ getPlayerBySteamID "S1" (snd (removePlayerBySteamID "S1" Sample.registry1))
     = None.
Proof.
  assert (Hwf : wf Sample.registry1) by (vm_compute; lia).
  assert (Hd : NoDup (keys (this_players Sample.registry1))).
  { vm_compute. apply NoDup_cons. split; [|constructor].
    intros H. inversion H. }
  destruct (removePlayerBySteamID_spec Sample.registry1 "S1" Hwf Hd)
    as (H1 & H2 & _).
  split; [|exact H2]. apply H1. vm_compute. discriminate.
Defined.

Lemma find_split {A} (p : A -> bool) l x :
  List.find p l = Some x ->
  exists before after,
    l = (before ++ x :: after)%list /\ p x = true
    /\ forall y, In y before -> p y = false.
Proof.
  induction l as [|a l IH]; simpl; [discriminate|].
  destruct (p a) eqn:E.
  - intros [= <-]. exists [], l. simpl. repeat split; auto. tauto.
  - intros H. destruct (IH H) as (b & c & -> & Hx & Hb).
    exists (a :: b), c. simpl. repeat split; auto.
    intros y [<-|Hy]; auto.
Qed.

Lemma name_matches_iff n u :
  name_matches lower (lower n) u = true
  <-> lower (username u) = lower n.
Proof. unfold name_matches. apply String.eqb_eq. Qed.

(** X4. [getPlayerByUsername] compares names after lower-casing both
    sides ([lower] is the builtin [toLowerCase], whatever its case
    mapping) and answers with the first player, in insertion order, whose
    name matches; it answers [null] exactly when no registered player
    matches. *)
Theorem getPlayerByUsername_first_match (st : State) (n : string) :
  match getPlayerByUsername lower n st with
  | Some u =>
      exists before after,
        getAllPlayers st = (before ++ u :: after)%list
        /\ lower (username u) = lower n
        /\ forall v, In v before ->
             lower (username v) <> lower n
  | None =>
      forall v, In v (getAllPlayers st) ->
        lower (username v) <> lower n
  end.
Proof.
  unfold getPlayerByUsername, getAllPlayers.
  destruct (List.find _ (JsMap.values (this_players st))) as [u|] eqn:E.
  - destruct (find_split _ _ _ E) as (b & a & Hl & Hu & Hb).
    exists b, a. split; [exact Hl|]. split; [now apply name_matches_iff|].
    intros v Hv Heq. apply name_matches_iff in Heq.
    rewrite (Hb v Hv) in Heq. discriminate.
  - intros v Hv Heq. apply name_matches_iff in Heq.
    pose proof (find_none _ _ E v Hv) as Hn. simpl in Hn. congruence.
Qed.

Lemma spread_no_updates u : spread_user u no_updates = u.
Proof. now destruct u. Qed.

(** X5. [updatePlayerBySteamID] on an unknown id answers [false] and
    leaves the registry as it is.  On a known id it answers [true], the
    id then holds the old profile overlaid with the given columns (the
    same profile when none is given), the entry keeps its place, and the
    other ids are untouched. *)
Theorem updatePlayerBySteamID_spec
    (st : State) (k : string) (updates : PartialUser) :
  wf st ->
  match getPlayerBySteamID k st with
  | None => updatePlayerBySteamID k updates st = (false, st)
  | Some old =>
      let r := updatePlayerBySteamID k updates st in
      fst r = true
      /\ getPlayerBySteamID k (snd r) = Some (spread_user old updates)
      /\ (forall k', k' <> k ->
            getPlayerBySteamID k' (snd r) = getPlayerBySteamID k' st)
      /\ keys (this_players (snd r)) = keys (this_players st)
      /\ getPlayerBySteamID k (snd (updatePlayerBySteamID k no_updates st))
         = Some old
  end.
Proof.
  intros Hwf. unfold getPlayerBySteamID, updatePlayerBySteamID.
  destruct (JsMap.get k (this_players st)) as [old|] eqn:E; [|reflexivity].
  simpl. rewrite !this_players_set_players by exact Hwf.
  repeat split.
  - apply get_set_eq.
  - intros k' Hne. apply get_set_ne. congruence.
  - rewrite keys_set. unfold JsMap.has. now rewrite E.
  - rewrite get_set_eq. now rewrite spread_no_updates.
Qed.

Lemma updatePlayerBySteamID_spec_witness :
  getPlayerBySteamID "S1"
    (snd (updatePlayerBySteamID "S1"
            {| p_id := None; p_username := None; p_xp := Some 40%Z;
               p_level := None; p_balance := None; p_streak := None;
               p_lastClaimedDaily := None; p_createdAt := None |}
            Sample.registry1))
  = Some {| user_id := 1; username := "Nova"; xp := 40; level := 1;
            balance := 5; streak := 2; lastClaimedDaily := None;
            createdAt := 1700000000 |}.
Proof.
  assert (Hwf : wf Sample.registry1) by (vm_compute; lia).
  pose proof (updatePlayerBySteamID_spec Sample.registry1 "S1"
                {| p_id := None; p_username := None; p_xp := Some 40%Z;
                   p_level := None; p_balance := None; p_streak := None;
                   p_lastClaimedDaily := None; p_createdAt := None |} Hwf)
    as H.
  change (getPlayerBySteamID "S1" Sample.registry1) with (Some Sample.nova) in H.
  cbv beta iota zeta in H. destruct H as (_ & H & _).
  etransitivity; [exact H | reflexivity].
Defined.

(** X6. [removePlayerByUsername] answers [false] and changes nothing when
    no player matches the name.  Otherwise it answers [true] and removes
    the entry of the first matching player, and only that entry. *)
Theorem removePlayerByUsername_spec (st : State) (n : string) :
  wf st -> NoDup (keys (this_players st)) ->
  let r := removePlayerByUsername lower n st in
  match getPlayerByUsername lower n st with
  | None => r = (false, st)
  | Some u =>
      fst r = true
      /\ count (snd r) = pred (count st)
      /\ exists k,
           getPlayerBySteamID k st = Some u
           /\ getPlayerBySteamID k (snd r) = None
           /\ forall k', k' <> k ->
                getPlayerBySteamID k' (snd r) = getPlayerBySteamID k' st
  end.
Proof.
  intros Hwf Hd r. unfold r, removePlayerByUsername, getPlayerByUsername.
  rewrite <- find_entry_values.
  destruct (find_entry lower (lower n) (this_players st))
    as [[k u]|] eqn:E; simpl; [|reflexivity].
  pose proof (find_entry_has _ _ _ _ E) as Hhas.
  destruct (find_entry_get _ _ _ _ E) as [Hin _].
  unfold removePlayerBySteamID, getPlayerBySteamID. simpl.
  rewrite this_players_set_players by exact Hwf.
  split; [exact Hhas|]. split.
  - rewrite count_set_players by exact Hwf.
    rewrite length_remove, Hhas, count_length. reflexivity.
  - exists k. repeat split.
    + clear E Hhas. revert Hd Hin.
      induction (this_players st) as [|[k0 u0] m IH]; simpl; [tauto|].
      intros Hnd [Heq|Hin].
      * injection Heq as -> ->. now rewrite String.eqb_refl.
      * apply NoDup_cons in Hnd. destruct Hnd as [Hk0 Hm].
        destruct (String.eqb_spec k k0) as [->|Hne]; [|now apply IH].
        exfalso. apply Hk0. apply list_elem_of_In.
        unfold keys. apply in_map_iff. now exists (k0, u).
    + now apply get_remove_eq.
    + intros k' Hne. apply get_remove_ne. congruence.
Qed.

Lemma get_of_In k u m :
  NoDup (keys m) -> In (k, u) m -> JsMap.get k m = Some u.
Proof.
  induction m as [|[k0 u0] m IH]; simpl; [tauto|].
  intros Hnd [Heq|Hin].
  - injection Heq as -> ->. now rewrite String.eqb_refl.
  - apply NoDup_cons in Hnd. destruct Hnd as [Hk0 Hm].
    destruct (String.eqb_spec k k0) as [->|Hne]; [|now apply IH].
    exfalso. apply Hk0. apply list_elem_of_In.
    unfold keys. apply in_map_iff. now exists (k0, u).
Qed.

(** X8. [updatePlayerByUsername] answers [false] and changes nothing when
    no player matches; otherwise it does what [updatePlayerBySteamID] does
    for the Steam id of the first matching player, whose entry then holds
    the old profile overlaid with the given columns. *)
Theorem updatePlayerByUsername_spec
    (st : State) (n : string) (updates : PartialUser) :
  wf st -> NoDup (keys (this_players st)) ->
  match getPlayerByUsername lower n st with
  | None => updatePlayerByUsername lower n updates st = (false, st)
  | Some u =>
      exists k,
        getPlayerBySteamID k st = Some u
        /\ updatePlayerByUsername lower n updates st =
           updatePlayerBySteamID k updates st
        /\ getPlayerBySteamID k (snd (updatePlayerByUsername lower n updates st))
           = Some (spread_user u updates)
  end.
Proof.
  intros Hwf Hd. unfold getPlayerByUsername, updatePlayerByUsername.
  rewrite <- find_entry_values.
  destruct (find_entry lower (lower n) (this_players st))
    as [[k u]|] eqn:E; simpl; [|reflexivity].
  destruct (find_entry_get _ _ _ _ E) as [Hin _].
  pose proof (get_of_In k u _ Hd Hin) as Hget.
  exists k. unfold getPlayerBySteamID, updatePlayerBySteamID.
  rewrite Hget. simpl. rewrite this_players_set_players by exact Hwf.
  repeat split; auto. apply get_set_eq.
Qed.

(** X7. In the first revision [getPlayerList] handed out the registry's
    own map: whatever a caller wrote into the returned map was written
    into the registry. *)
Theorem getPlayerList_v1_write_through (st : State) (op : MapOp) :
  wf st ->
  let r := fst (PlayerListV1.getPlayerList st) in
  let st' := mutate r op (snd (PlayerListV1.getPlayerList st)) in
  r = players st
  /\ deref (players st') st' = map_op op (deref (players st) st)
  /\ forall k u,
       op = MSet k u -> PlayerListV1.getPlayerBySteamID k st' = Some u.
Proof.
  intros Hwf r st'.
  assert (Hr : r = players st) by reflexivity.
  assert (E : deref (players st') st' = map_op op (deref (players st) st)).
  { change (players st') with (players st).
    change st' with (assign (players st)
                       (map_op op (deref (players st) st)) st).
    now apply deref_assign_eq. }
  split; [exact Hr|]. split; [exact E|].
  intros k u Hop. unfold PlayerListV1.getPlayerBySteamID.
  rewrite E, Hop. simpl. apply get_set_eq.
Qed.

Lemma getPlayerList_v1_write_through_witness :
  PlayerListV1.getPlayerBySteamID "S2"
    (mutate (fst (PlayerListV1.getPlayerList Sample.registry1))
       (MSet "S2" Sample.rook)
       (snd (PlayerListV1.getPlayerList Sample.registry1)))
  = Some Sample.rook.
Proof.
  assert (Hwf : wf Sample.registry1) by (vm_compute; lia).
  destruct (getPlayerList_v1_write_through Sample.registry1
              (MSet "S2" Sample.rook) Hwf) as (_ & _ & H).
  exact (H "S2" Sample.rook eq_refl).
Defined.

End RegistryMore.

Section RegistryMoreInstances.
Import Heap PlayerList Registry.

(** The lookup in the sample registry, whose names are ASCII, whatever
    the case of the letters. *)
Example getPlayerByUsername_sample :
  getPlayerByUsername Js.ascii_toLowerCase "nova" Sample.registry1
  = Some Sample.nova
  /\ getPlayerByUsername Js.ascii_toLowerCase "NOVA" Sample.registry1
     = Some Sample.nova
  /\ getPlayerByUsername Js.ascii_toLowerCase "rook" Sample.registry1 = None.
Proof. repeat split. Qed.

Lemma removePlayerByUsername_spec_witness :
  fst (removePlayerByUsername Js.ascii_toLowerCase "NOVA" Sample.registry1)
  = true
  /\ count (snd (removePlayerByUsername Js.ascii_toLowerCase "NOVA"
                   Sample.registry1)) = 0.
Proof.
  assert (Hwf : wf Sample.registry1) by (vm_compute; lia).
  assert (Hd : NoDup (keys (this_players Sample.registry1))).
  { vm_compute. apply NoDup_cons. split; [|constructor].
    intros H. inversion H. }
  pose proof (removePlayerByUsername_spec Js.ascii_toLowerCase
                Sample.registry1 "NOVA" Hwf Hd) as H.
  change (getPlayerByUsername Js.ascii_toLowerCase "NOVA" Sample.registry1)
    with (Some Sample.nova) in H.
  cbv beta iota zeta in H. destruct H as (H1 & H2 & _).
  split; [exact H1|]. etransitivity; [exact H2 | reflexivity].
Defined.

Lemma updatePlayerByUsername_spec_witness :
  updatePlayerByUsername Js.ascii_toLowerCase "NOVA" Sample.xp40
    Sample.registry1
  = updatePlayerBySteamID "S1" Sample.xp40 Sample.registry1
  /\ getPlayerBySteamID "S1"
       (snd (updatePlayerByUsername Js.ascii_toLowerCase "NOVA"
               Sample.xp40 Sample.registry1))
     = Some {| user_id := 1; username := "Nova"; xp := 40; level := 1;
               balance := 5; streak := 2; lastClaimedDaily := None;
               createdAt := 1700000000 |}.
Proof.
  assert (Hwf : wf Sample.registry1) by (vm_compute; lia).
  assert (Hd : NoDup (keys (this_players Sample.registry1))).
  { vm_compute. apply NoDup_cons. split; [|constructor].
    intros H. inversion H. }
  pose proof (updatePlayerByUsername_spec Js.ascii_toLowerCase
                Sample.registry1 "NOVA" Sample.xp40 Hwf Hd) as H.
  change (getPlayerByUsername Js.ascii_toLowerCase "NOVA" Sample.registry1)
    with (Some Sample.nova) in H.
  cbv beta iota in H. destruct H as (k & Hk & Hupd & Hget).
  assert (Ek : k = "S1").
  { unfold getPlayerBySteamID in Hk.
    change (this_players Sample.registry1) with [("S1", Sample.nova)] in Hk.
    simpl in Hk. destruct (String.eqb_spec k "S1"); [assumption|discriminate]. }
  subst k. split; [exact Hupd|].
  etransitivity; [exact Hget | reflexivity].
Defined.

End RegistryMoreInstances.

(* ================================================================== *)
(** * More about the handlers *)
(* ================================================================== *)

Section Returning.
Import Js Ws WsSpec.

Lemma never_throws_ret {A} (a : A) : never_throws (ret a).
Proof. intros w. now exists a, w. Qed.

Lemma never_throws_emit e : never_throws (emit e).
Proof. intros w. eexists. eexists. reflexivity. Qed.

Lemma never_throws_bind {A C} (m : M A) (k : A -> M C) :
  never_throws m -> (forall a, never_throws (k a)) ->
  never_throws (bind m k).
Proof.
  intros Hm Hk w. unfold bind. destruct (Hm w) as (a & w1 & ->).
  apply Hk.
Qed.

(** A [try] whose [catch] block always returns always returns. *)
Lemma never_throws_try_catch {A} (m : M A) (h : Error -> M A) :
  (forall e, never_throws (h e)) -> never_throws (try_catch m h).
Proof.
  intros Hh w. unfold try_catch. destruct (m w) as [[a|e] w1].
  - now exists a, w1.
  - apply Hh.
Qed.

Lemma yields_ret {A} (P : A -> Prop) a : P a -> yields P (ret a).
Proof. intros H w a' w' [= <- _]. exact H. Qed.

Lemma yields_throw {A} (P : A -> Prop) e : yields P (@throw A e).
Proof. intros w a w' H. discriminate H. Qed.

Lemma yields_bind {A C} (P : C -> Prop) (m : M A) (k : A -> M C) :
  (forall a, yields P (k a)) -> yields P (bind m k).
Proof.
  intros Hk w c w'. unfold bind.
  destruct (m w) as [[a|e] w1]; [apply Hk | discriminate].
Qed.

Lemma yields_try_catch {A} (P : A -> Prop) (m : M A) (h : Error -> M A) :
  yields P m -> (forall e, yields P (h e)) -> yields P (try_catch m h).
Proof.
  intros Hm Hh w a w'. unfold try_catch.
  destruct (m w) as [[a1|e] w1] eqn:E.
  - intros [= <- <-]. eapply Hm; eauto.
  - apply Hh.
Qed.

Lemma flagged_literal (b : bool) (k : string) (v : JsVal) :
  k = "content" \/ k = "error" ->
  flagged (RObj {[ "success" := VBool b; k := v ]}).
Proof.
  intros [-> | ->]; eexists; exists b; repeat split; reflexivity.
Qed.

End Returning.

Ltac yields_step :=
  match goal with
  | |- WsSpec.yields _ (Ws.bind _ _) => apply yields_bind; intros
  | |- WsSpec.yields _ (Ws.try_catch _ _) =>
      apply yields_try_catch; [|intros]
  | |- WsSpec.yields _ (Ws.throw _) => apply yields_throw
  | |- WsSpec.yields _ (match ?x with _ => _ end) => destruct x
  | |- WsSpec.yields _ (Ws.ret _) => apply yields_ret
  end.

Section HandlerShape.
Import Js Ws WsSpec.
Variable env : Env.

Lemma flagged_malformed : flagged malformed.
Proof. apply flagged_literal. now left. Qed.

(** Whatever a registered handler resolves to has a boolean [success],
    except the [undefined] of [onJoin]. *)
Lemma run_handler_shape h data :
  yields (fun r => flagged r \/ (r = RUndefined /\ h = H_onJoin))
         (run_handler env h data).
Proof.
  destruct h; simpl.
  - unfold getUser_steam.
    repeat first [ yields_step
                 | left; apply flagged_malformed
                 | left; apply flagged_literal; tauto ].
  - unfold linkCode_steam, invalid_code.
    repeat first [ yields_step
                 | left; apply flagged_malformed
                 | left; apply flagged_literal; tauto ].
  - unfold giveXP.
    repeat first [ yields_step
                 | left; apply flagged_malformed
                 | left; apply flagged_literal; tauto ].
  - unfold onJoin.
    repeat first [ yields_step
                 | left; apply flagged_malformed
                 | left; apply flagged_literal; tauto
                 | right; split; reflexivity ].
  - unfold onLeave.
    repeat first [ yields_step
                 | left; apply flagged_malformed
                 | left; apply flagged_literal; tauto ].
Qed.

(** X9. [getUser_steam], [giveXP], [onJoin] and [onLeave] never throw,
    whatever the store and the other collaborators do: their [try] spans
    the whole body and the [catch] block returns.  ([linkCode_steam] has no
    such block.) *)
Theorem guarded_handlers_never_throw (h : Handler) (data : WebsocketMessage) :
  h <> H_linkCode_steam ->
  never_throws (run_handler env h data).
Proof.
  intros Hh. destruct h; simpl; try contradiction.
  - apply never_throws_try_catch. intros e. apply never_throws_ret.
  - apply never_throws_try_catch. intros e. apply never_throws_ret.
  - apply never_throws_try_catch. intros e.
    apply never_throws_bind; [apply never_throws_emit|].
    intros _. apply never_throws_ret.
  - apply never_throws_try_catch. intros e.
    apply never_throws_bind; [apply never_throws_emit|].
    intros _. apply never_throws_ret.
Qed.

End HandlerShape.

Section ListenerMore.
Import Js Ws WsSpec SampleWs.
Variable env : Env.

Lemma guarded_handlers_never_throw_witness :
  exists r w', onJoin env_ok join_msg w0 = (Ret r, w').
Proof.
  exact (guarded_handlers_never_throw env_ok H_onJoin join_msg
           (fun E : H_onJoin = H_linkCode_steam =>
              eq_ind H_onJoin
                (fun x => match x with H_onJoin => True | _ => False end)
                I _ E)
           w0).
Defined.

Lemma call_sent p data : preserves sent (call env p data).
Proof.
  destruct p as [h|i]; simpl.
  - apply preserves_bind; [apply emit_keeps|intros _].
    apply run_handler_keeps.
  - destruct i; simpl; first [apply preserves_ret | apply preserves_throw].
Qed.

Lemma ws_send_sent o w :
  sent (snd (ws_send o w)) =
  (sent w ++ if conn_open w then [o] else [])%list.
Proof.
  unfold ws_send. simpl. destruct (conn_open w); simpl; auto.
  now rewrite app_nil_r.
Qed.

(** [authenticate] only writes to the log, and never a handler call. *)
Lemma authenticate_log sid tok w :
  exists l,
    snd (authenticate env sid tok w) = log_append w l
    /\ forall t, ~ In (CallHandler t) l.
Proof.
  unfold authenticate, bind. rewrite emit_log.
  destruct (fetch_auth env sid tok) as [response|e].
  - destruct (ok response); cbn [negb]; cbv iota.
    + destruct (json response) as [v|e]; simpl;
        exists [CallAuthenticate sid tok]; split; auto;
        intros t [H|[]]; discriminate.
    + rewrite emit_log. simpl.
      exists [CallAuthenticate sid tok; ConsoleHttpNotOk].
      split; [now rewrite log_append_app|].
      intros t [H|[H|[]]]; discriminate.
  - exists [CallAuthenticate sid tok]. split; auto.
    intros t [H|[]]; discriminate.
Qed.

Lemma sent_log_append w l : sent (log_append w l) = sent w.
Proof. reflexivity. Qed.

Lemma route_frames data w :
  exists l,
    sent (snd (route env data w)) = (sent w ++ l)%list
    /\ length l <= 1
    /\ (answerable (Parsed data) = None -> l = []).
Proof.
  unfold route, bind at 1. rewrite emit_log.
  remember (log_append w
              [LogReceived (type data)
                 (default "" (content_str (content data)))]) as w1 eqn:Ew1.
  assert (Hw1 : sent w1 = sent w) by (rewrite Ew1; reflexivity).
  clear Ew1.
  destruct (messageHandlers_get (type data)) as [p|].
  - unfold bind at 1. pose proof (call_sent p data w1) as Hc.
    destruct (call env p data w1) as [[r|e] w2]; simpl in Hc.
    + unfold answerable.
      destruct (correlationId data) as [c|].
      * destruct (truthy_str c).
        -- unfold bind. pose proof (ws_send_sent (response_of data c r) w2)
             as Hs.
           destruct (ws_send (response_of data c r) w2) as [[u|e] w3] eqn:E;
             simpl in *.
           ++ exists (if conn_open w2 then [response_of data c r] else []).
              rewrite Hs, Hc, Hw1. split; auto.
              split; [destruct (conn_open w2); simpl; lia | discriminate].
           ++ unfold ws_send in E. discriminate E.
        -- exists []. simpl. rewrite app_nil_r, Hc, Hw1. auto.
      * exists []. simpl. rewrite app_nil_r, Hc, Hw1. auto.
    + exists []. simpl. rewrite app_nil_r, Hc, Hw1. auto.
  - unfold bind. rewrite emit_log. unfold answerable.
    destruct (correlationId data) as [c|].
    + destruct (truthy_str c).
      * rewrite ws_send_sent. simpl sent. rewrite Hw1.
        eexists. split; [reflexivity|].
        split; [destruct (conn_open _); simpl; lia | discriminate].
      * exists []. simpl. rewrite app_nil_r. auto.
    + exists []. simpl. rewrite app_nil_r. auto.
Qed.

Lemma on_message_sent frame w :
  sent (on_message env frame w) = sent (snd (process env frame w)).
Proof.
  unfold on_message. now destruct (process env frame w) as [[u|e] w1].
Qed.

(** X10. For each frame it receives the listener writes at most one
    frame to the socket, after the ones already written, and none at all
    unless the message carries a non-empty correlation id. *)
Theorem listener_sends_at_most_one (frame : Frame) (w : World) :
  exists l,
    sent (on_message env frame w) = (sent w ++ l)%list
    /\ length l <= 1
    /\ (answerable frame = None -> l = []).
Proof.
  rewrite on_message_sent.
  assert (Hnone : exists l : list Obj,
            sent w = (sent w ++ l)%list /\ length l <= 1
            /\ (answerable frame = None -> l = [])).
  { exists []. rewrite app_nil_r. simpl. auto. }
  destruct frame as [e|data]; [exact Hnone|].
  unfold process.
  destruct (negb (truthy (content_str (content data)))); [exact Hnone|].
  destruct (steamId data) as [sid|]; [|exact Hnone].
  destruct (token data) as [tok|]; [|exact Hnone].
  destruct (truthy_str sid && truthy_str tok); [|exact Hnone].
  unfold bind. destruct (authenticate_log sid tok w) as (l0 & Hl0 & _).
  destruct (authenticate env sid tok w) as [[[st|]|e] w1]; simpl in Hl0;
    subst w1; try exact Hnone.
  destruct (route_frames data (log_append w l0)) as (l & H1 & H2 & H3).
  exists l. rewrite H1. auto.
Qed.

Lemma response_of_type data c r t :
  type data = Some t ->
  flagged r \/ r = RUndefined ->
  response_of data c r !! "type" = Some (VStr (t +:+ "_response"))
  /\ response_of data c r !! "correlationId" = Some (VStr c).
Proof.
  intros Ht Hr. unfold response_of. rewrite Ht. simpl render.
  destruct Hr as [(o & b & -> & _ & Hty & Hcid)| ->]; simpl spread_json.
  - split; rewrite lookup_union_r by assumption; now simplify_map_eq.
  - split; rewrite lookup_union_r by apply lookup_empty; now simplify_map_eq.
Qed.

Lemma response_of_success data c r :
  flagged r -> exists b, response_of data c r !! "success" = Some (VBool b).
Proof.
  intros (o & b & -> & Hs & _). exists b. unfold response_of. simpl.
  now apply lookup_union_Some_l.
Qed.

(** X11. When a registered handler returns for an authenticated message
    with a non-empty correlation id on an open connection, exactly one
    frame is written; its type is the message type followed by
    [_response], it repeats the correlation id, and unless the handler is
    [onJoin] it has a boolean [success]. *)
Theorem registered_answer_envelope
    (data : WebsocketMessage) (w w2 : World)
    sid tok response st t h r c :
  truthy (content_str (content data)) = true ->
  steamId data = Some sid -> token data = Some tok ->
  truthy_str sid = true -> truthy_str tok = true ->
  fetch_auth env sid tok = Ret response ->
  ok response = true -> json response = Ret (Some st) ->
  type data = Some t -> own_handler t = Some h ->
  run_handler env h data (handler_start data w) = (Ret r, w2) ->
  correlationId data = Some c -> c <> "" -> conn_open w = true ->
  sent (on_message env (Parsed data) w) =
    (sent w ++ [response_of data c r])%list
  /\ response_of data c r !! "type" = Some (VStr (t +:+ "_response"))
  /\ response_of data c r !! "correlationId" = Some (VStr c)
  /\ (h <> H_onJoin ->
      exists b, response_of data c r !! "success" = Some (VBool b)).
Proof.
  intros Hc Hs Ht Hsid Htok Hf Hok Hj Hty Hh Hrun Hcid Hne Hopen.
  apply truthy_str_true in Hne.
  pose proof (run_handler_shape env h data _ _ _ Hrun) as Hshape.
  pose proof (proj1 (run_handler_keeps env h data) (handler_start data w))
    as Hsent.
  pose proof (proj2 (run_handler_keeps env h data) (handler_start data w))
    as Hop.
  rewrite Hrun in Hsent, Hop. simpl in Hsent, Hop.
  split.
  - unfold on_message.
    rewrite (process_authenticated env data w sid tok response st)
      by assumption.
    rewrite (route_own env data _ t h) by assumption.
    unfold bind. rewrite emit_log, log_append_app. simpl app.
    unfold handler_start, bind in Hrun. rewrite !emit_log in Hrun.
    rewrite Hs, Ht, Hty in Hrun. simpl in Hrun.
    rewrite !log_append_app in Hrun. simpl app in Hrun.
    rewrite Hty. rewrite !log_append_app. simpl app.
    rewrite Hrun, Hcid, Hne.
    unfold ws_send. rewrite Hop, Hopen. simpl. now rewrite Hsent.
  - assert (Hr : flagged r \/ r = RUndefined)
      by (destruct Hshape as [H|[H _]]; auto).
    destruct (response_of_type data c r t Hty Hr) as [H1 H2].
    split; [exact H1|]. split; [exact H2|].
    intros Hnj. destruct Hshape as [H|[_ H]]; [|contradiction].
    now apply response_of_success.
Qed.

(** X12. When the validator does not vouch for the message (the request
    fails, the answer is not a 2xx, its body does not parse or is a falsy
    value), the message is dropped: the world only gains log lines, none
    of them a handler call, so nothing is sent and store, codes and
    registry are untouched. *)
Theorem validator_refusal_drops
    (data : WebsocketMessage) (w : World) sid tok :
  steamId data = Some sid -> token data = Some tok ->
  match fetch_auth env sid tok with
  | Throw _ => True
  | Ret response =>
      ok response = false \/ json response = Ret None
      \/ exists e, json response = Throw e
  end ->
  exists l,
    on_message env (Parsed data) w = log_append w l
    /\ forall t, ~ In (CallHandler t) l.
Proof.
  intros Hs Ht Hv. unfold on_message, process. rewrite Hs, Ht.
  assert (Hnone : forall l0 : list Event,
            (forall t, ~ In (CallHandler t) l0) ->
            exists l, log_append w l0 = log_append w l
                      /\ forall t, ~ In (CallHandler t) l).
  { intros l0 H. now exists l0. }
  destruct (negb (truthy (content_str (content data)))).
  { exists []. rewrite log_append_nil. simpl. auto. }
  destruct (truthy_str sid && truthy_str tok).
  2: { exists [LogAuthFailed]. split; [reflexivity|].
       intros t [H|[]]; discriminate. }
  unfold authenticate, bind. rewrite emit_log.
  destruct (fetch_auth env sid tok) as [response|e].
  - destruct Hv as [Hok|[Hj|[e Hj]]].
    + rewrite Hok. cbn [negb]. cbv iota. rewrite emit_log. simpl.
      exists [CallAuthenticate sid tok; ConsoleHttpNotOk; LogAuthFailed].
      split; [unfold log_append; simpl; now rewrite <- !app_assoc|].
      intros t [H|[H|[H|[]]]]; discriminate.
    + destruct (ok response); cbn [negb]; cbv iota.
      * rewrite Hj. simpl.
        exists [CallAuthenticate sid tok; LogAuthFailed].
        split; [unfold log_append; simpl; now rewrite <- !app_assoc|].
        intros t [H|[H|[]]]; discriminate.
      * rewrite emit_log. simpl.
        exists [CallAuthenticate sid tok; ConsoleHttpNotOk; LogAuthFailed].
        split; [unfold log_append; simpl; now rewrite <- !app_assoc|].
        intros t [H|[H|[H|[]]]]; discriminate.
    + destruct (ok response); cbn [negb]; cbv iota.
      * rewrite Hj. simpl.
        exists [CallAuthenticate sid tok; LogError (err_message e)].
        split; [unfold log_append; simpl; now rewrite <- !app_assoc|].
        intros t [H|[H|[]]]; discriminate.
      * rewrite emit_log. simpl.
        exists [CallAuthenticate sid tok; ConsoleHttpNotOk; LogAuthFailed].
        split; [unfold log_append; simpl; now rewrite <- !app_assoc|].
        intros t [H|[H|[H|[]]]]; discriminate.
  - simpl. exists [CallAuthenticate sid tok; LogError (err_message e)].
    split; [unfold log_append; simpl; now rewrite <- !app_assoc|].
    intros t [H|[H|[]]]; discriminate.
Qed.

End ListenerMore.

Section ListenerInstances.
Import Js Ws WsSpec SampleWs.

Lemma registered_answer_envelope_witness :
  sent (on_message env_ok
          (Parsed (msg "onLeave" "S1" "left" (Some "abc"))) w0)
  = [ {[ "type" := VStr "onLeave_response"; "correlationId" := VStr "abc";
         "success" := VBool true;
         "content" := VStr "Player successfully removed from the list." ]} ].
Proof.
  assert (Hne : forall a b : string, String.eqb a b = false -> a <> b).
  { intros a b H. now apply String.eqb_neq. }
  destruct (registered_answer_envelope env_ok
              (msg "onLeave" "S1" "left" (Some "abc")) w0
              (snd (run_handler env_ok H_onLeave
                      (msg "onLeave" "S1" "left" (Some "abc"))
                      (handler_start (msg "onLeave" "S1" "left" (Some "abc"))
                         w0)))
              "S1" "good"
              {| ok := true;
                 json := Ret (Some {| auth_steamId := 1;
                                      auth_status := "ok" |}) |}
              {| auth_steamId := 1; auth_status := "ok" |}
              "onLeave" H_onLeave
              (RObj {[ "success" := VBool true;
                       "content" :=
                         VStr "Player successfully removed from the list." ]})
              "abc"
              eq_refl eq_refl eq_refl eq_refl eq_refl eq_refl eq_refl eq_refl
              eq_refl eq_refl eq_refl eq_refl (Hne "abc" "" eq_refl) eq_refl)
    as (H & _).
  etransitivity; [exact H|]. vm_compute. reflexivity.
Defined.

Lemma validator_refusal_drops_witness :
  sent (on_message env_ok
          (Parsed {| type := Some "giveXP"; steamId := Some "S1";
                     token := Some "stolen"; content := CString "1 500";
                     correlationId := Some "abc" |}) w0) = []
  /\ db (on_message env_ok
          (Parsed {| type := Some "giveXP"; steamId := Some "S1";
                     token := Some "stolen"; content := CString "1 500";
                     correlationId := Some "abc" |}) w0) = db0.
Proof.
  destruct (validator_refusal_drops env_ok
              {| type := Some "giveXP"; steamId := Some "S1";
                 token := Some "stolen"; content := CString "1 500";
                 correlationId := Some "abc" |} w0 "S1" "stolen"
              eq_refl eq_refl (or_introl eq_refl)) as (l & H & _).
  rewrite H. split; reflexivity.
Defined.

End ListenerInstances.

Section Quiet.
Import Js Ws WsSpec.
Variable env : Env.

Lemma outputs_nil w : outputs w [] [] = w.
Proof. destruct w. unfold outputs. simpl. now rewrite !app_nil_r. Qed.

Lemma outputs_outputs w f1 l1 f2 l2 :
  outputs (outputs w f1 l1) f2 l2 = outputs w (f1 ++ f2) (l1 ++ l2).
Proof. unfold outputs. simpl. now rewrite !app_assoc. Qed.

Lemma quiet_ret {A} (a : A) : quiet (ret a).
Proof. intros w. exists [], []. simpl. rewrite outputs_nil. auto. Qed.

Lemma quiet_throw {A} e : quiet (@throw A e).
Proof. intros w. exists [], []. simpl. rewrite outputs_nil. auto. Qed.

Lemma quiet_emit e : (forall t, e <> CallHandler t) -> quiet (emit e).
Proof.
  intros He w. exists [], [e]. split.
  - unfold emit, outputs. simpl. now rewrite app_nil_r.
  - intros t [H|[]]. now apply (He t).
Qed.

Lemma quiet_ws_send o : quiet (ws_send o).
Proof.
  intros w. unfold ws_send. simpl. destruct (conn_open w) eqn:E.
  - exists [o], []. split; auto. unfold outputs. simpl.
    now rewrite E, app_nil_r.
  - exists [], []. rewrite outputs_nil. auto.
Qed.

Lemma quiet_bind {A C} (m : M A) (k : A -> M C) :
  quiet m -> (forall a, quiet (k a)) -> quiet (bind m k).
Proof.
  intros Hm Hk w. unfold bind. destruct (Hm w) as (f1 & l1 & H1 & N1).
  destruct (m w) as [[a|e] w1]; simpl in H1; subst w1.
  - destruct (Hk a (outputs w f1 l1)) as (f2 & l2 & H2 & N2).
    exists (f1 ++ f2)%list, (l1 ++ l2)%list.
    rewrite H2, outputs_outputs. split; auto.
    intros t Hin. apply in_app_or in Hin. destruct Hin; firstorder.
  - exists f1, l1. auto.
Qed.

Lemma quiet_authenticate sid tok : quiet (authenticate env sid tok).
Proof.
  unfold authenticate.
  apply quiet_bind; [apply quiet_emit; discriminate|intros _].
  destruct (fetch_auth env sid tok) as [response|e]; [|apply quiet_throw].
  destruct (negb (ok response)).
  - apply quiet_bind; [apply quiet_emit; discriminate|intros _].
    apply quiet_ret.
  - destruct (json response); [apply quiet_ret | apply quiet_throw].
Qed.

Lemma quiet_call_inherited i data : quiet (call_inherited i data).
Proof. destruct i; simpl; first [apply quiet_ret | apply quiet_throw]. Qed.

(** X13. A message whose type is not the name of a registered handler
    (a missing, empty or unknown type, or the name of a property inherited
    from [Object.prototype]) runs no handler: at most frames are written
    and lines logged, and store, codes and registry stay as they were. *)
Theorem unregistered_type_runs_no_handler
    (data : WebsocketMessage) (w : World) :
  (forall t, type data = Some t -> own_handler t = None) ->
  exists frames l,
    on_message env (Parsed data) w = outputs w frames l
    /\ forall t, ~ In (CallHandler t) l.
Proof.
  intros Hty.
  assert (Hq : quiet (process env (Parsed data))).
  { unfold process.
    destruct (negb (truthy (content_str (content data))));
      [apply quiet_ret|].
    destruct (steamId data) as [sid|]; [|apply quiet_emit; discriminate].
    destruct (token data) as [tok|]; [|apply quiet_emit; discriminate].
    destruct (truthy_str sid && truthy_str tok);
      [|apply quiet_emit; discriminate].
    apply quiet_bind; [apply quiet_authenticate|intros [st|]];
      [|apply quiet_emit; discriminate].
    unfold route.
    apply quiet_bind; [apply quiet_emit; discriminate|intros _].
    assert (Hget : messageHandlers_get (type data) = None
                   \/ exists i, messageHandlers_get (type data)
                                = Some (FromPrototype i)).
    { unfold messageHandlers_get. destruct (type data) as [t|]; auto.
      rewrite (Hty t eq_refl). destruct (truthy_str t); auto.
      destruct (inherited t) as [i|]; eauto. }
    destruct Hget as [-> | [i ->]].
    - apply quiet_bind; [apply quiet_emit; discriminate|intros _].
      destruct (correlationId data) as [c|]; [|apply quiet_ret].
      destruct (truthy_str c); [apply quiet_ws_send | apply quiet_ret].
    - apply quiet_bind; [apply quiet_call_inherited|intros r].
      destruct (correlationId data) as [c|]; [|apply quiet_ret].
      destruct (truthy_str c); [|apply quiet_ret].
      apply quiet_bind; [apply quiet_ws_send|intros _].
      apply quiet_emit; discriminate. }
  unfold on_message. destruct (Hq w) as (f & l & H & N).
  destruct (process env (Parsed data) w) as [[u|e] w1]; simpl in H; subst w1.
  - exists f, l. auto.
  - exists f, (l ++ [LogError (err_message e)])%list. split.
    + unfold emit, outputs. simpl. now rewrite app_assoc.
    + intros t Hin. apply in_app_or in Hin.
      destruct Hin as [Hin|[Hin|[]]]; [now apply (N t) | discriminate].
Qed.

(** X14. The listener only tests that the validator's answer is a 2xx
    with a truthy JSON body: the [status] and [steamId] of that body are
    never read, so two validators that both answer so lead to the same
    outcome for the message, whatever their bodies say. *)
Theorem validator_body_not_inspected
    (data : WebsocketMessage) (w : World)
    (v1 v2 : string -> string -> outcome HttpResponse)
    sid tok r1 r2 st1 st2 :
  steamId data = Some sid -> token data = Some tok ->
  v1 sid tok = Ret r1 -> ok r1 = true -> json r1 = Ret (Some st1) ->
  v2 sid tok = Ret r2 -> ok r2 = true -> json r2 = Ret (Some st2) ->
  on_message (with_validator env v1) (Parsed data) w =
  on_message (with_validator env v2) (Parsed data) w.
Proof.
  intros Hs Ht H1 Hok1 Hj1 H2 Hok2 Hj2.
  unfold on_message, process. rewrite Hs, Ht.
  destruct (negb (truthy (content_str (content data)))); [reflexivity|].
  destruct (truthy_str sid && truthy_str tok); [|reflexivity].
  unfold authenticate, bind. rewrite !emit_log.
  cbn [fetch_auth with_validator].
  rewrite H1, H2, Hok1, Hok2. cbn [negb]. cbv iota.
  rewrite Hj1, Hj2. reflexivity.
Qed.

End Quiet.

Section QuietInstances.
Import Js Ws WsSpec SampleWs SampleFaults.

Lemma unregistered_type_runs_no_handler_witness :
  db (on_message env_ok (Parsed (msg "constructor" "S1" "x" (Some "abc"))) w0)
  = db0
  /\ registry (on_message env_ok
                 (Parsed (msg "constructor" "S1" "x" (Some "abc"))) w0)
     = Heap.init.
Proof.
  destruct (unregistered_type_runs_no_handler env_ok
              (msg "constructor" "S1" "x" (Some "abc")) w0)
    as (f & l & H & _).
  - intros t [= <-]. reflexivity.
  - rewrite H. split; reflexivity.
Defined.

(** A validator whose body says "invalid" opens the door all the same. *)
Lemma validator_body_not_inspected_witness :
  sent (on_message (with_validator env_ok validator_says_invalid)
          (Parsed unknown_msg) w0)
  = sent (on_message env_ok (Parsed unknown_msg) w0).
Proof.
  rewrite (validator_body_not_inspected env_ok unknown_msg w0
             validator_says_invalid validator "S1" "good"
             {| ok := true;
                json := Ret (Some {| auth_steamId := 0;
                                     auth_status := "invalid" |}) |}
             {| ok := true;
                json := Ret (Some {| auth_steamId := 1;
                                     auth_status := "ok" |}) |}
             {| auth_steamId := 0; auth_status := "invalid" |}
             {| auth_steamId := 1; auth_status := "ok" |}
             eq_refl eq_refl eq_refl eq_refl eq_refl eq_refl eq_refl eq_refl).
  reflexivity.
Defined.

End QuietInstances.

Section LinkMore.
Import Js Ws WsSpec.
Variable env : Env.

(** The way of a link request up to the answer of [mergeUsers]. *)
Lemma linkCode_steam_until_merge
    (data : WebsocketMessage) (w : World) code sid discordId r1 r2 :
  content data = CString code -> steamId data = Some sid ->
  code <> "" -> sid <> "" ->
  CodeStorage.getUser code (codes w) = Some discordId -> discordId <> "" ->
  prisma_fault env (UserFindMany sid discordId) (db w) = None ->
  Db.user_findMany sid discordId (db w) = [r1; r2] ->
  linkCode_steam env data w =
  (response <- call_mergeUsers env (user_id (fst r1)) (user_id (fst r2)) ;;
   (if merge_success response then
      call_deleteCode discordId ;;
      match discord_id_of (snd r2) with
      | Some discordUserId =>
          if truthy_str discordUserId
          then notify_discord env discordUserId
          else ret tt
      | None => ret tt
      end
    else ret tt) ;;
   ret (RObj {[ "success" := VBool (merge_success response);
                "content" := VStr (merge_message response) ]})) w.
Proof.
  intros Hc Hs Hcode Hsid Hget Hd Hq Hres.
  apply truthy_str_true in Hcode, Hsid, Hd.
  unfold linkCode_steam. rewrite Hc, Hs. cbn [content_str]. cbv beta iota.
  rewrite Hcode, Hsid. cbn [andb]. cbv beta iota.
  unfold bind at 1. unfold gets. rewrite Hget, Hd.
  unfold bind at 1. rewrite prisma_query by exact Hq.
  rewrite Hres. reflexivity.
Qed.

(** X15. When [mergeUsers] answers without success, the link request is
    answered [success: false] with the text of the merge procedure, the
    pairing code is not invalidated (it still resolves), and no direct
    message is attempted: the only event is the call of [mergeUsers]. *)
Theorem linkCode_steam_merge_refused
    (data : WebsocketMessage) (w : World)
    code sid discordId r1 r2 response d :
  content data = CString code -> steamId data = Some sid ->
  code <> "" -> sid <> "" ->
  CodeStorage.getUser code (codes w) = Some discordId -> discordId <> "" ->
  prisma_fault env (UserFindMany sid discordId) (db w) = None ->
  Db.user_findMany sid discordId (db w) = [r1; r2] ->
  mergeUsers env (user_id (fst r1)) (user_id (fst r2)) (db w)
    = (Ret response, d) ->
  merge_success response = false ->
  linkCode_steam env data w =
    (Ret (RObj {[ "success" := VBool false;
                  "content" := VStr (merge_message response) ]}),
     log_append (with_db w d)
       [CallMergeUsers (user_id (fst r1)) (user_id (fst r2))])
  /\ CodeStorage.getUser code
       (codes (snd (linkCode_steam env data w))) = Some discordId.
Proof.
  intros Hc Hs Hcode Hsid Hget Hd Hq Hres Hm Hfail.
  assert (E : linkCode_steam env data w =
    (Ret (RObj {[ "success" := VBool false;
                  "content" := VStr (merge_message response) ]}),
     log_append (with_db w d)
       [CallMergeUsers (user_id (fst r1)) (user_id (fst r2))])).
  { rewrite (linkCode_steam_until_merge data w code sid discordId r1 r2)
      by assumption.
    unfold bind at 1. unfold call_mergeUsers, bind at 1.
    rewrite emit_log. unfold on_db. simpl db. rewrite Hm.
    rewrite Hfail. reflexivity. }
  split; [exact E|]. rewrite E. exact Hget.
Qed.

(** X16. The direct message after a successful merge is best effort:
    when the Discord user cannot be fetched, the error goes to the
    console, and the request is still answered [success: true] with the
    code invalidated and the merged store kept. *)
Theorem linkCode_steam_notification_best_effort
    (data : WebsocketMessage) (w : World)
    code sid discordId r1 r2 response d discordUserId e :
  content data = CString code -> steamId data = Some sid ->
  code <> "" -> sid <> "" ->
  CodeStorage.getUser code (codes w) = Some discordId -> discordId <> "" ->
  prisma_fault env (UserFindMany sid discordId) (db w) = None ->
  Db.user_findMany sid discordId (db w) = [r1; r2] ->
  mergeUsers env (user_id (fst r1)) (user_id (fst r2)) (db w)
    = (Ret response, d) ->
  merge_success response = true ->
  discord_id_of (snd r2) = Some discordUserId -> discordUserId <> "" ->
  discord_fetch env discordUserId = Some e ->
  linkCode_steam env data w =
    (Ret (RObj {[ "success" := VBool true;
                  "content" := VStr (merge_message response) ]}),
     log_append
       (with_codes (with_db w d)
          (CodeStorage.deleteCode discordId (codes w)))
       [ CallMergeUsers (user_id (fst r1)) (user_id (fst r2));
         CallDmFetch discordUserId;
         ConsoleDmError e ]).
Proof.
  intros Hc Hs Hcode Hsid Hget Hd Hq Hres Hm Hok Hdid Hdne Hfetch.
  rewrite (linkCode_steam_until_merge data w code sid discordId r1 r2)
    by assumption.
  apply truthy_str_true in Hdne.
  unfold bind at 1. unfold call_mergeUsers, bind at 1.
  rewrite emit_log. unfold on_db. simpl db. rewrite Hm.
  rewrite Hok, Hdid, Hdne.
  unfold notify_discord. rewrite Hfetch.
  unfold bind, try_catch, call_deleteCode, gets, set_codes, bind.
  rewrite !emit_log. unfold throw. rewrite emit_log.
  unfold log_append, with_codes, with_db. simpl.
  rewrite <- !app_assoc. reflexivity.
Qed.

End LinkMore.

Section LinkInstances.
Import Js Ws WsSpec SampleWs SampleFaults.

Lemma string_neq (a b : string) : String.eqb a b = false -> a <> b.
Proof. intros H. now apply String.eqb_neq. Qed.

Lemma linkCode_steam_merge_refused_witness :
  fst (linkCode_steam env_merge_refuses link_msg w0) =
    Ret (RObj {[ "success" := VBool false;
                 "content" := VStr "Merge failed, nothing was changed." ]})
  /\ CodeStorage.getUser "483920"
       (codes (snd (linkCode_steam env_merge_refuses link_msg w0)))
     = Some "D2".
Proof.
  destruct (linkCode_steam_merge_refused env_merge_refuses link_msg w0
              "483920" "S1" "D2"
              (Sample.nova, [Db.mkAccount Db.STEAM "S1" "Nova" 1])
              (Sample.rook, [Db.mkAccount Db.DISCORD "D2" "Rook" 2])
              {| merge_success := false;
                 merge_message := "Merge failed, nothing was changed." |}
              db0
              eq_refl eq_refl (string_neq "483920" "" eq_refl)
              (string_neq "S1" "" eq_refl) eq_refl
              (string_neq "D2" "" eq_refl) eq_refl eq_refl eq_refl eq_refl)
    as [H1 H2].
  split; [now rewrite H1 | exact H2].
Defined.

Lemma linkCode_steam_notification_best_effort_witness :
  fst (linkCode_steam env_discord_down link_msg w0) =
    Ret (RObj {[ "success" := VBool true;
                 "content" := VStr "Accounts merged." ]})
  /\ codes (snd (linkCode_steam env_discord_down link_msg w0)) = ∅.
Proof.
  pose proof (linkCode_steam_notification_best_effort env_discord_down
                link_msg w0 "483920" "S1" "D2"
                (Sample.nova, [Db.mkAccount Db.STEAM "S1" "Nova" 1])
                (Sample.rook, [Db.mkAccount Db.DISCORD "D2" "Rook" 2])
                {| merge_success := true;
                   merge_message := "Accounts merged." |}
                (snd (merge_into_first 1 2 db0)) "D2" unknown_user
                eq_refl eq_refl (string_neq "483920" "" eq_refl)
                (string_neq "S1" "" eq_refl) eq_refl
                (string_neq "D2" "" eq_refl) eq_refl eq_refl eq_refl eq_refl
                eq_refl (string_neq "D2" "" eq_refl) eq_refl) as H.
  rewrite H. split; [reflexivity|]. vm_compute. reflexivity.
Defined.

End LinkInstances.

Section PresenceMore.
Import Js Ws WsSpec Heap PlayerList Registry.
Variable env : Env.

Lemma with_registry_db w r : db (with_registry w r) = db w.
Proof. reflexivity. Qed.

Lemma onLeave_found (data : WebsocketMessage) (w : World) text sid u :
  content data = CString text -> steamId data = Some sid ->
  text <> "" -> sid <> "" ->
  prisma_fault env (UserFindFirst sid) (db w) = None ->
  Db.user_findFirst sid (db w) = Some u ->
  onLeave env data w =
  (Ret (RObj {[ "success" := VBool true;
                "content" :=
                  VStr "Player successfully removed from the list." ]}),
   with_registry w (snd (removePlayerBySteamID sid (registry w)))).
Proof.
  intros Hc Hs Htext Hsid Hq Hfound.
  apply truthy_str_true in Htext, Hsid.
  unfold onLeave, try_catch.
  rewrite Hc, Hs. cbn [content_str]. cbv beta iota.
  rewrite Htext, Hsid. cbn [andb]. cbv beta iota.
  unfold bind at 1. rewrite prisma_query by exact Hq.
  rewrite Hfound. reflexivity.
Qed.

(** X17. Presence round trip.  For a player with a profile, [onJoin]
    enters the profile in the registry under the Steam id, a following
    [onLeave] answers [success: true] and takes it out again, every other
    registered player is where it was, and the store is not written. *)
Theorem join_then_leave
    (data : WebsocketMessage) (w : World) text sid u :
  content data = CString text -> steamId data = Some sid ->
  text <> "" -> sid <> "" ->
  prisma_fault env (UserFindFirst sid) (db w) = None ->
  Db.user_findFirst sid (db w) = Some u ->
  wf (registry w) -> NoDup (keys (this_players (registry w))) ->
  let w1 := snd (onJoin env data w) in
  let w2 := snd (onLeave env data w1) in
  getPlayerBySteamID sid (registry w1) = Some u
  /\ fst (onLeave env data w1) =
     Ret (RObj {[ "success" := VBool true;
                  "content" :=
                    VStr "Player successfully removed from the list." ]})
  /\ getPlayerBySteamID sid (registry w2) = None
  /\ (forall k, k <> sid ->
        getPlayerBySteamID k (registry w2)
        = getPlayerBySteamID k (registry w))
  /\ db w2 = db w.
Proof.
  intros Hc Hs Htext Hsid Hq Hfound Hwf Hd w1 w2.
  assert (E1 : w1 = with_registry w (addPlayer sid u (registry w))).
  { unfold w1. now rewrite (onJoin_found env data w text sid u). }
  assert (Hwf1 : wf (registry w1)).
  { rewrite E1. simpl. unfold addPlayer. now apply wf_set_players. }
  assert (Hd1 : NoDup (keys (this_players (registry w1)))).
  { rewrite E1. simpl. unfold addPlayer.
    rewrite this_players_set_players by exact Hwf. now apply NoDup_set. }
  assert (E2 : onLeave env data w1 =
    (Ret (RObj {[ "success" := VBool true;
                  "content" :=
                    VStr "Player successfully removed from the list." ]}),
     with_registry w1 (snd (removePlayerBySteamID sid (registry w1))))).
  { apply (onLeave_found data w1 text sid u); auto;
      rewrite E1, with_registry_db; assumption. }
  destruct (addPlayer_get_set (registry w) sid u Hwf) as [Ha1 Ha2].
  destruct (remove_get_set (registry w1) sid Hwf1 Hd1) as [Hr1 Hr2].
  split; [rewrite E1; exact Ha1|].
  split; [now rewrite E2|].
  unfold w2. rewrite E2. simpl registry. simpl db.
  split; [exact Hr1|]. split.
  - intros k Hk. rewrite Hr2 by exact Hk. rewrite E1. now apply Ha2.
  - now rewrite E1.
Qed.

(** X18. Presence without a profile.  When the store knows no profile for
    the Steam id, [onJoin] and [onLeave] answer [success: false] with
    their text and change nothing; when the store call itself fails, both
    catch the error, write it to the console and answer [success: false]
    with a fixed text. *)
Theorem presence_without_profile
    (data : WebsocketMessage) (w : World) text sid :
  content data = CString text -> steamId data = Some sid ->
  text <> "" -> sid <> "" ->
  (prisma_fault env (UserFindFirst sid) (db w) = None ->
   Db.user_findFirst sid (db w) = None ->
   onJoin env data w =
     (Ret (RObj {[ "success" := VBool false;
                   "content" := VStr "No user profile found!" ]}), w)
   /\ onLeave env data w =
     (Ret (RObj {[ "success" := VBool false;
                   "content" := VStr "No user profile found to remove!" ]}),
      w))
  /\
  (forall e,
     prisma_fault env (UserFindFirst sid) (db w) = Some e ->
     onJoin env data w =
       (Ret (RObj {[ "success" := VBool false;
                     "content" :=
                       VStr "An error occurred while processing the join request." ]}),
        log_append w [ConsoleError e])
     /\ onLeave env data w =
       (Ret (RObj {[ "success" := VBool false;
                     "content" :=
                       VStr "An error occurred while processing the leave request." ]}),
        log_append w [ConsoleError e])).
Proof.
  intros Hc Hs Htext Hsid.
  apply truthy_str_true in Htext, Hsid.
  split.
  - intros Hq Hnone. split.
    + unfold onJoin, try_catch.
      rewrite Hc, Hs. cbn [content_str]. cbv beta iota.
      rewrite Htext, Hsid. cbn [andb]. cbv beta iota.
      unfold bind at 1. rewrite prisma_query by exact Hq.
      rewrite Hnone. reflexivity.
    + unfold onLeave, try_catch.
      rewrite Hc, Hs. cbn [content_str]. cbv beta iota.
      rewrite Htext, Hsid. cbn [andb]. cbv beta iota.
      unfold bind at 1. rewrite prisma_query by exact Hq.
      rewrite Hnone. reflexivity.
  - intros e He. split.
    + unfold onJoin, try_catch.
      rewrite Hc, Hs. cbn [content_str]. cbv beta iota.
      rewrite Htext, Hsid. cbn [andb]. cbv beta iota.
      unfold bind at 1. rewrite (prisma_fails env _ _ w e He).
      unfold bind. rewrite emit_log. reflexivity.
    + unfold onLeave, try_catch.
      rewrite Hc, Hs. cbn [content_str]. cbv beta iota.
      rewrite Htext, Hsid. cbn [andb]. cbv beta iota.
      unfold bind at 1. rewrite (prisma_fails env _ _ w e He).
      unfold bind. rewrite emit_log. reflexivity.
Qed.

End PresenceMore.

Section PresenceInstances.
Import Js Ws WsSpec SampleWs Heap PlayerList Registry.

Lemma join_then_leave_witness :
  getPlayerBySteamID "S1" (registry (snd (onJoin env_ok join_msg w0)))
  = Some Sample.nova
  /\ getPlayerBySteamID "S1"
       (registry (snd (onLeave env_ok join_msg
                         (snd (onJoin env_ok join_msg w0))))) = None.
Proof.
  destruct (join_then_leave env_ok join_msg w0 "joined" "S1" Sample.nova
              eq_refl eq_refl (string_neq "joined" "" eq_refl)
              (string_neq "S1" "" eq_refl) eq_refl eq_refl)
    as (H1 & _ & H3 & _).
  - vm_compute. lia.
  - vm_compute. constructor.
  - split; [exact H1 | exact H3].
Defined.

Lemma presence_without_profile_witness :
  onJoin env_ok (msg "onJoin" "S9" "joined" None) w0 =
  (Ret (RObj {[ "success" := VBool false;
                "content" := VStr "No user profile found!" ]}), w0).
Proof.
  destruct (presence_without_profile env_ok
              (msg "onJoin" "S9" "joined" None) w0 "joined" "S9"
              eq_refl eq_refl (string_neq "joined" "" eq_refl)
              (string_neq "S9" "" eq_refl)) as [H _].
  exact (proj1 (H eq_refl eq_refl)).
Defined.

End PresenceInstances.

Section FetchOrCreateMore.
Import Js Ws WsSpec.
Variable env : Env.

Lemma find_app_None {A} (p : A -> bool) l1 l2 :
  List.find p l1 = None -> List.find p (l1 ++ l2) = List.find p l2.
Proof.
  induction l1 as [|a l1 IH]; simpl; auto.
  destruct (p a); [discriminate | exact IH].
Qed.

Lemma user_by_id_fresh d u :
  fresh_ids d -> user_id u = Db.next_id d ->
  List.find (fun v => Z.eqb (user_id v) (Db.next_id d)) (Db.users d ++ [u])
  = Some u.
Proof.
  intros Hf Hid. rewrite find_app_None.
  - simpl. rewrite Hid, Z.eqb_refl. reflexivity.
  - destruct (List.find _ (Db.users d)) as [v|] eqn:E; auto.
    apply find_some in E. destruct E as [Hin Heq].
    apply Z.eqb_eq in Heq. specialize (Hf v Hin). lia.
Qed.

Lemma getUser_steam_found (data : WebsocketMessage) (w : World)
    name sid a u :
  content data = CString name -> steamId data = Some sid ->
  name <> "" -> sid <> "" ->
  prisma_fault env (AccountFindUnique Db.STEAM sid) (db w) = None ->
  Db.account_findUnique Db.STEAM sid (db w) = Some (a, Some u) ->
  getUser_steam env data w =
    (Ret (RObj {[ "success" := VBool true; "content" := VUserJson u ]}), w).
Proof.
  intros Hc Hs Hname Hsid Hq Hfound.
  apply truthy_str_true in Hname, Hsid.
  unfold getUser_steam, try_catch.
  rewrite Hc, Hs. cbn [content_str]. cbv beta iota.
  rewrite Hname, Hsid. cbn [andb]. cbv beta iota.
  unfold bind. cbv beta. rewrite prisma_query by exact Hq.
  rewrite Hfound. reflexivity.
Qed.

(** X19. Fetch-or-create is idempotent.  On a store whose ids are fresh
    and that has no account for the Steam identity, the first
    [getUser_steam] creates a profile; a second one with the same
    identity returns that very profile and creates nothing. *)
Theorem getUser_steam_create_then_fetch
    (data : WebsocketMessage) (w : World) name sid :
  content data = CString name -> steamId data = Some sid ->
  name <> "" -> sid <> "" ->
  fresh_ids (db w) ->
  Db.account_findUnique Db.STEAM sid (db w) = None ->
  prisma_fault env (AccountFindUnique Db.STEAM sid) (db w) = None ->
  prisma_fault env (UserCreate name sid) (db w) = None ->
  let w1 := snd (getUser_steam env data w) in
  prisma_fault env (AccountFindUnique Db.STEAM sid) (db w1) = None ->
  exists u,
    fst (getUser_steam env data w) =
      Ret (RObj {[ "success" := VBool true; "content" := VUserJson u ]})
    /\ getUser_steam env data w1 =
      (Ret (RObj {[ "success" := VBool true; "content" := VUserJson u ]}),
       w1)
    /\ length (Db.users (db w1)) = S (length (Db.users (db w))).
Proof.
  intros Hc Hs Hname Hsid Hfresh Hnone Hq Hcr w1.
  pose proof Hname as Hname'. pose proof Hsid as Hsid'.
  apply truthy_str_true in Hname', Hsid'.
  set (u := fst (Db.user_create (schema_defaults env) name sid 0 1 (db w))).
  set (d1 := snd (Db.user_create (schema_defaults env) name sid 0 1 (db w))).
  assert (E : getUser_steam env data w =
              (Ret (RObj {[ "success" := VBool true;
                            "content" := VUserJson u ]}), with_db w d1)).
  { unfold getUser_steam, try_catch.
    rewrite Hc, Hs. cbn [content_str]. cbv beta iota.
    rewrite Hname', Hsid'. cbn [andb]. cbv beta iota.
    unfold bind. cbv beta. rewrite prisma_query by exact Hq.
    rewrite Hnone. unfold prisma. rewrite Hcr. reflexivity. }
  assert (Ew1 : w1 = with_db w d1) by (unfold w1; now rewrite E).
  intros Hq1. exists u. split; [now rewrite E|].
  assert (Hfound : Db.account_findUnique Db.STEAM sid d1 =
                   Some (Db.mkAccount Db.STEAM sid name (Db.next_id (db w)),
                         Some u)).
  { unfold Db.account_findUnique in *. unfold d1. simpl.
    destruct (List.find (Db.is_identity Db.STEAM sid) (Db.accounts (db w)))
      eqn:Ef; [discriminate Hnone|].
    rewrite find_app_None by exact Ef. simpl.
    unfold Db.is_identity. simpl. rewrite String.eqb_refl. simpl.
    unfold Db.user_by_id. simpl.
    erewrite user_by_id_fresh; [reflexivity | exact Hfresh | reflexivity]. }
  split.
  - apply (getUser_steam_found data w1 name sid
             (Db.mkAccount Db.STEAM sid name (Db.next_id (db w))) u);
      auto.
    rewrite Ew1. exact Hfound.
  - rewrite Ew1. unfold d1. simpl. rewrite length_app. simpl. lia.
Qed.

Lemma split_space_prefix a b :
  no_space a = true ->
  split_space (a +:+ " " +:+ b) = a :: split_space b.
Proof.
  induction a as [|c a IH]; simpl; intros H.
  - reflexivity.
  - apply andb_true_iff in H. destruct H as [Hc Ha].
    apply negb_true_iff in Hc. rewrite Hc. now rewrite IH.
Qed.

Lemma split_space_single b : no_space b = true -> split_space b = [b].
Proof.
  induction b as [|c b IH]; simpl; intros H; auto.
  apply andb_true_iff in H. destruct H as [Hc Hb].
  apply negb_true_iff in Hc. rewrite Hc. now rewrite IH.
Qed.

(** X20. [giveXP] reads the content as "<profile id> <amount>" and
    hands both to the progression engine.  A truthy result is answered
    [success: true] with "Gave <amount> XP to user <id>", a falsy one
    [success: false] with "Could not find user by ID <id>", and a throw
    of the engine [success: false] with the error description. *)
Theorem giveXP_answers
    (data : WebsocketMessage) (w : World) id amount sid :
  content data = CString (id +:+ " " +:+ amount) ->
  steamId data = Some sid -> sid <> "" ->
  no_space id = true -> no_space amount = true ->
  giveXP env data w =
  match Leveling_giveXP env id (Some amount) (db w) with
  | (Ret true, d) =>
      (Ret (RObj {[ "success" := VBool true;
                    "content" := VStr ("Gave " +:+ amount
                                       +:+ " XP to user " +:+ id) ]}),
       log_append (with_db w d) [CallGiveXP id (Some amount)])
  | (Ret false, d) =>
      (Ret (RObj {[ "success" := VBool false;
                    "content" := VStr ("Could not find user by ID "
                                       +:+ id) ]}),
       log_append (with_db w d) [CallGiveXP id (Some amount)])
  | (Throw e, d) =>
      (Ret (RObj {[ "success" := VBool false;
                    "error" := VStr ("Failed to give XP: "
                                     +:+ error_toString e) ]}),
       log_append (with_db w d) [CallGiveXP id (Some amount)])
  end.
Proof.
  intros Hc Hs Hsid Hid Hamt.
  apply truthy_str_true in Hsid.
  assert (Htext : truthy_str (id +:+ " " +:+ amount) = true).
  { apply truthy_str_true. destruct id; discriminate. }
  unfold giveXP, try_catch.
  rewrite Hc, Hs. cbn [content_str]. cbv beta iota.
  rewrite Htext, Hsid. cbn [andb]. cbv beta iota zeta.
  rewrite (split_space_prefix id amount Hid).
  rewrite (split_space_single amount Hamt).
  cbn [hd nth_error]. unfold bind. rewrite emit_log.
  unfold on_db. simpl db.
  destruct (Leveling_giveXP env id (Some amount) (db w)) as [[[|]|e] d];
    reflexivity.
Qed.

End FetchOrCreateMore.

Section FetchOrCreateInstances.
Import Js Ws WsSpec SampleWs.

Lemma getUser_steam_create_then_fetch_witness :
  exists u,
    fst (getUser_steam env_ok (msg "getUser_steam" "S9" "Zed" None) w0) =
      Ret (RObj {[ "success" := VBool true; "content" := VUserJson u ]})
    /\ fst (getUser_steam env_ok (msg "getUser_steam" "S9" "Zed" None)
              (snd (getUser_steam env_ok
                      (msg "getUser_steam" "S9" "Zed" None) w0))) =
      Ret (RObj {[ "success" := VBool true; "content" := VUserJson u ]}).
Proof.
  destruct (getUser_steam_create_then_fetch env_ok
              (msg "getUser_steam" "S9" "Zed" None) w0 "Zed" "S9"
              eq_refl eq_refl (string_neq "Zed" "" eq_refl)
              (string_neq "S9" "" eq_refl))
    as (u & H1 & H2 & _).
  - intros u [<-|[<-|[]]]; vm_compute; reflexivity.
  - reflexivity.
  - reflexivity.
  - reflexivity.
  - reflexivity.
  - exists u. split; [exact H1|]. now rewrite H2.
Defined.

Lemma giveXP_answers_witness :
  fst (giveXP env_ok (msg "giveXP" "S1" "1 50" None) w0) =
  Ret (RObj {[ "success" := VBool true;
               "content" := VStr "Gave 50 XP to user 1" ]}).
Proof.
  rewrite (giveXP_answers env_ok (msg "giveXP" "S1" "1 50" None) w0
             "1" "50" "S1" eq_refl eq_refl (string_neq "S1" "" eq_refl)
             eq_refl eq_refl).
  reflexivity.
Defined.

End FetchOrCreateInstances.

(* ================================================================== *)
(** * Facts about the daily allowance *)
(* ================================================================== *)

Section DailyFacts.
Import Js Daily.
Open Scope Z_scope.

Lemma time_remaining_bounds (ms : Z) :
  0 <= ms ->
  0 <= hours_of ms
  /\ 0 <= minutes_of ms < 60
  /\ hours_of ms * 3600000 + minutes_of ms * 60000 <= ms
     < hours_of ms * 3600000 + minutes_of ms * 60000 + 60000.
Proof.
  intros H. unfold hours_of, minutes_of.
  change (1000 * 60 * 60) with 3600000. change (1000 * 60) with 60000.
  rewrite Z.rem_mod_nonneg by lia.
  pose proof (Z.div_mod ms 3600000 ltac:(lia)) as E1.
  pose proof (Z.mod_pos_bound ms 3600000 ltac:(lia)) as B1.
  pose proof (Z.div_mod (ms mod 3600000) 60000 ltac:(lia)) as E2.
  pose proof (Z.mod_pos_bound (ms mod 3600000) 60000 ltac:(lia)) as B2.
  assert (0 <= ms / 3600000) by (apply Z.div_pos; lia).
  assert (0 <= ms mod 3600000 / 60000) by (apply Z.div_pos; lia).
  repeat split; try lia.
Qed.

(** X21. For a non-negative duration [formatTimeRemaining] shows whole
    hours and the whole minutes left in the last hour: the minutes lie
    between 0 and 59, and hours and minutes together are the duration
    rounded down to the minute. *)
Theorem time_remaining_decomposes (ms : Z) :
  0 <= ms ->
  0 <= hours_of ms
  /\ 0 <= minutes_of ms < 60
  /\ hours_of ms * 3600000 + minutes_of ms * 60000 <= ms
     < hours_of ms * 3600000 + minutes_of ms * 60000 + 60000.
Proof.
  intros H. unfold hours_of, minutes_of.
  change (1000 * 60 * 60) with 3600000. change (1000 * 60) with 60000.
  rewrite Z.rem_mod_nonneg by lia.
  pose proof (Z.mod_pos_bound ms 3600000 ltac:(lia)) as B1.
  pose proof (Z.mod_pos_bound (ms mod 3600000) 60000 ltac:(lia)) as B2.
  pose proof (Z.div_mod ms 3600000 ltac:(lia)) as E1.
  pose proof (Z.div_mod (ms mod 3600000) 60000 ltac:(lia)) as E2.
  assert (Hh : 0 <= ms / 3600000) by (apply Z.div_pos; lia).
  assert (Hm : 0 <= ms mod 3600000 / 60000) by (apply Z.div_pos; lia).
  repeat split; try assumption; lia.
Qed.

Lemma time_remaining_decomposes_witness :
  hours_of 86399999 = 23 /\ minutes_of 86399999 = 59
  /\ 0 <= minutes_of 86399999 < 60.
Proof.
  destruct (time_remaining_decomposes 86399999 ltac:(lia)) as (_ & H & _).
  repeat split; try reflexivity; apply H.
Defined.

Lemma startOfDay_bounds off t :
  startOfDay off t <= t < startOfDay off t + day_ms.
Proof.
  unfold startOfDay, day_ms.
  pose proof (Z.mod_pos_bound (t + off) (24 * 60 * 60 * 1000) ltac:(lia)).
  lia.
Qed.

Lemma startOfDay_multiple off t :
  startOfDay off t = day_ms * ((t + off) / day_ms) - off.
Proof.
  unfold startOfDay, day_ms.
  pose proof (Z.div_mod (t + off) (24 * 60 * 60 * 1000) ltac:(lia)).
  lia.
Qed.

(** X22. A claim continues the streak exactly when the clock, as read for
    the streak, is still before the end of the calendar day that follows
    the day of the last claim (in a zone with a fixed offset); the streak
    then grows by one, and otherwise it starts again at 1 and the reset
    is announced. *)
Theorem streak_window (env : Env) (user : User) (t : Z) :
  lastClaimedDaily user = Some t ->
  (today env < startOfDay (utc_offset env) t + 2 * day_ms ->
   next_streak env user = (streak user + 1, Some false))
  /\ (startOfDay (utc_offset env) t + 2 * day_ms <= today env ->
      next_streak env user = (1, Some true)).
Proof.
  intros Hl. unfold next_streak. rewrite Hl.
  pose proof (startOfDay_bounds (utc_offset env) (today env)) as Hb.
  pose proof (startOfDay_multiple (utc_offset env) (today env)) as M1.
  pose proof (startOfDay_multiple (utc_offset env) t) as M2.
  assert (Hd : day_ms = 86400000) by reflexivity.
  split; intros H.
  - destruct (Z.ltb_spec day_ms
                (startOfDay (utc_offset env) (today env)
                 - startOfDay (utc_offset env) t)) as [Hlt|Hge]; auto.
    exfalso. rewrite M1, M2 in Hlt. rewrite M1 in Hb. rewrite M2 in H.
    rewrite Hd in *. nia.
  - destruct (Z.ltb_spec day_ms
                (startOfDay (utc_offset env) (today env)
                 - startOfDay (utc_offset env) t)) as [Hlt|Hge]; auto.
    exfalso. lia.
Qed.

Lemma streak_window_witness :
  next_streak (SampleDaily.env_at (SampleDaily.t0 + day_ms + 5))
    SampleDaily.rook_claimed = (6, Some false).
Proof.
  destruct (streak_window (SampleDaily.env_at (SampleDaily.t0 + day_ms + 5))
              SampleDaily.rook_claimed SampleDaily.t0 eq_refl) as [H _].
  apply H. vm_compute. reflexivity.
Defined.

(** X23. A registered user who claims less than 24 hours after the last
    claim is told how long to wait and nothing else happens: the store is
    not written and no experience is granted.  When the last claim is not
    in the future, the time shown is at most 24 hours. *)
Theorem claim_within_a_day_refused
    (env : Env) (discordId : string) (st : State) a user (t : Z) :
  prisma_fault env (AccountFindUnique discordId) (db st) = None ->
  Db.account_findUnique Db.DISCORD discordId (db st) = Some (a, Some user) ->
  lastClaimedDaily user = Some t ->
  now env - t < day_ms ->
  execute env discordId st =
    (Ret tt,
     {| db := db st;
        replies :=
          replies st ++
          [Ephemeral ("You can claim your next daily reward in "
                      +:+ formatTimeRemaining (t + day_ms - now env)
                      +:+ ".")] |})
  /\ (t <= now env ->
      0 <= hours_of (t + day_ms - now env) <= 24
      /\ 0 <= minutes_of (t + day_ms - now env) < 60).
Proof.
  intros Hq Hfound Hl Hlt. split.
  - unfold execute. rewrite Hq, Hfound. unfold on_cooldown. rewrite Hl.
    destruct (Z.ltb_spec (now env - t) day_ms) as [_|Hge]; [|lia].
    reflexivity.
  - intros Hle.
    assert (Hpos : 0 <= t + day_ms - now env) by lia.
    destruct (time_remaining_bounds (t + day_ms - now env) Hpos)
      as (H1 & H2 & H3).
    assert (Hd : day_ms = 86400000) by reflexivity.
    split; [|exact H2]. split; [exact H1|].
    rewrite Hd in *. lia.
Qed.

Lemma account_after_update discordId d a user f :
  Db.account_findUnique Db.DISCORD discordId d = Some (a, Some user) ->
  (forall u, user_id (f u) = user_id u) ->
  exists d1,
    user_update (user_id user) f d = Some (f user, d1)
    /\ Db.account_findUnique Db.DISCORD discordId d1 = Some (a, Some (f user)).
Proof.
  intros Hfound Hid. unfold Db.account_findUnique in Hfound.
  destruct (List.find (Db.is_identity Db.DISCORD discordId) (Db.accounts d))
    as [a'|] eqn:Ea; [|discriminate].
  injection Hfound as -> Hu.
  assert (Hida : user_id user = Db.userId a).
  { unfold Db.user_by_id in Hu. apply find_some in Hu.
    destruct Hu as [_ Hu]. now apply Z.eqb_eq in Hu. }
  unfold user_update. rewrite Hida, Hu. eexists. split; [reflexivity|].
  unfold Db.account_findUnique. simpl. rewrite Ea. f_equal. f_equal.
  unfold Db.user_by_id in *. simpl.
  clear Ea. induction (Db.users d) as [|v l IH]; simpl in *; [discriminate|].
  destruct (Z.eqb (user_id v) (Db.userId a)) eqn:Ev.
  - injection Hu as ->. rewrite Hid, Ev. reflexivity.
  - rewrite Ev. now apply IH.
Qed.

(** X24. An accepted claim (a registered user, no claim in the last 24
    hours, a store and a progression engine that answer) adds 5 to the
    balance, sets the streak as computed and the time of the last claim
    to now, shows the reward with the new streak, and announces a reset
    exactly when the old streak was broken. *)
Theorem claim_accepted
    (env : Env) (discordId : string) (st : State) a user :
  prisma_fault env (AccountFindUnique discordId) (db st) = None ->
  Db.account_findUnique Db.DISCORD discordId (db st) = Some (a, Some user) ->
  on_cooldown env user = false ->
  prisma_fault env (UserUpdate (user_id user)) (db st) = None ->
  let s := fst (next_streak env user) in
  let updated :=
    {| user_id := user_id user; username := username user; xp := xp user;
       level := level user; balance := balance user + 5; streak := s;
       lastClaimedDaily := Some (now env); createdAt := createdAt user |} in
  exists d1,
    user_update (user_id user) (claim 5 s (now env)) (db st)
      = Some (updated, d1)
    /\ Db.account_findUnique Db.DISCORD discordId d1 = Some (a, Some updated)
    /\ forall leveled d2,
         giveXP env (user_id user) 10 d1 = (Ret (Some leveled), d2) ->
         execute env discordId st =
         (Ret tt,
          {| db := d2;
             replies :=
               replies st ++
               RewardEmbed 5 10 s ::
               match snd (next_streak env user) with
               | Some true => [StreakResetFollowUp]
               | _ => []
               end |}).
Proof.
  intros Hq Hfound Hcool Hup s updated.
  destruct (account_after_update discordId (db st) a user
              (claim 5 s (now env)) Hfound (fun u => eq_refl))
    as (d1 & Hd1 & Hacc).
  exists d1. split; [exact Hd1|]. split; [exact Hacc|].
  intros leveled d2 Hxp.
  unfold execute. rewrite Hq, Hfound, Hcool.
  unfold s in *.
  destruct (next_streak env user) as [s' broken]. simpl in *.
  rewrite Hup, Hd1, Hxp. unfold reply. simpl.
  destruct broken as [[|]|]; simpl; rewrite <- ?app_assoc; reflexivity.
Qed.

(** X25. The claim is not undone when the experience cannot be granted.
    If the progression engine finds nobody and changes nothing, the user
    is shown an error, but balance, streak and time of the last claim are
    already stored, so trying again within 24 hours is refused as a
    second claim. *)
Theorem xp_failure_keeps_claim
    (env : Env) (discordId : string) (st : State) a user :
  prisma_fault env (AccountFindUnique discordId) (db st) = None ->
  Db.account_findUnique Db.DISCORD discordId (db st) = Some (a, Some user) ->
  on_cooldown env user = false ->
  prisma_fault env (UserUpdate (user_id user)) (db st) = None ->
  (forall d, giveXP env (user_id user) 10 d = (Ret None, d)) ->
  let st1 := snd (execute env discordId st) in
  replies st1 =
    (replies st ++
     [Ephemeral "An error occurred while gaining your daily XP. Please try again later."])%list
  /\ (exists u,
        Db.account_findUnique Db.DISCORD discordId (db st1) = Some (a, Some u)
        /\ balance u = balance user + 5
        /\ lastClaimedDaily u = Some (now env))
  /\ forall env2,
       prisma_fault env2 (AccountFindUnique discordId) (db st1) = None ->
       now env2 - now env < day_ms ->
       execute env2 discordId st1 =
       (Ret tt,
        {| db := db st1;
           replies :=
             replies st1 ++
             [Ephemeral ("You can claim your next daily reward in "
                         +:+ formatTimeRemaining
                               (now env + day_ms - now env2)
                         +:+ ".")] |}).
Proof.
  intros Hq Hfound Hcool Hup Hxp st1.
  destruct (account_after_update discordId (db st) a user
              (claim 5 (fst (next_streak env user)) (now env)) Hfound
              (fun u => eq_refl))
    as (d1 & Hd1 & Hacc).
  assert (E : st1 =
    {| db := d1;
       replies :=
         replies st ++
         [Ephemeral "An error occurred while gaining your daily XP. Please try again later."] |}).
  { unfold st1, execute. rewrite Hq, Hfound, Hcool.
    destruct (next_streak env user) as [s' broken]. simpl in *.
    rewrite Hup, Hd1, Hxp. reflexivity. }
  rewrite E. simpl. split; [reflexivity|]. split.
  - eexists. split; [exact Hacc|]. split; reflexivity.
  - intros env2 Hq2 Hlt.
    assert (Hb : (now env2 - now env <? day_ms) = true)
      by (apply Z.ltb_lt; lia).
    unfold execute. simpl db. rewrite Hq2, Hacc.
    unfold on_cooldown, claim. cbn [lastClaimedDaily]. rewrite Hb.
    reflexivity.
Qed.

End DailyFacts.

Section DailyInstances.
Import Js Daily SampleDaily.
Open Scope Z_scope.

Lemma claim_within_a_day_refused_witness :
  replies (snd (execute (env_at (t0 + 3600000)) "D2" start)) =
  [Ephemeral "You can claim your next daily reward in 23h 0m."]
  /\ db (snd (execute (env_at (t0 + 3600000)) "D2" start)) = db_claimed.
Proof.
  destruct (claim_within_a_day_refused (env_at (t0 + 3600000)) "D2" start
              (Db.mkAccount Db.DISCORD "D2" "Rook" 2) rook_claimed t0
              eq_refl eq_refl eq_refl ltac:(vm_compute; reflexivity))
    as [H _].
  rewrite H. split; reflexivity.
Defined.

Lemma claim_accepted_witness :
  replies (snd (execute (env_at (t0 + 3 * day_ms)) "D2" start)) =
  [RewardEmbed 5 10 1; StreakResetFollowUp].
Proof.
  destruct (claim_accepted (env_at (t0 + 3 * day_ms)) "D2" start
              (Db.mkAccount Db.DISCORD "D2" "Rook" 2) rook_claimed
              eq_refl eq_refl eq_refl eq_refl) as (d1 & Hd1 & _ & H).
  vm_compute in Hd1. injection Hd1 as <-.
  erewrite H; [reflexivity|]. vm_compute. reflexivity.
Defined.

Lemma xp_failure_keeps_claim_witness :
  replies (snd (execute (env_nobody_at (t0 + 3 * day_ms + 60000)) "D2"
                  (snd (execute (env_nobody_at (t0 + 3 * day_ms)) "D2"
                          start)))) =
  [ Ephemeral "An error occurred while gaining your daily XP. Please try again later.";
    Ephemeral "You can claim your next daily reward in 23h 59m." ].
Proof.
  destruct (xp_failure_keeps_claim (env_nobody_at (t0 + 3 * day_ms)) "D2"
              start (Db.mkAccount Db.DISCORD "D2" "Rook" 2) rook_claimed
              eq_refl eq_refl eq_refl eq_refl (fun d => eq_refl))
    as (H1 & _ & H3).
  rewrite (H3 (env_nobody_at (t0 + 3 * day_ms + 60000)) eq_refl
             ltac:(vm_compute; reflexivity)).
  reflexivity.
Defined.

End DailyInstances.

(* ================================================================== *)
(** * More about the profile command *)
(* ================================================================== *)

Section TotalBoost.
Import Profile.

(** X26. The factor that [getMultiplierInfo] reports is never below 1;
    every listed role boosts; and when roles are listed, the first of them
    is one that carries the reported factor, so the total shown is the
    boost of the first line. *)
Theorem getMultiplierInfo_first_role
    (table : gmap string Q) (member : option GuildMember) :
  let info := getMultiplierInfo table member in
  (1 <= multiplier info)%Q
  /\ (forall e, In e (roles info) -> (1 < entry_multiplier e)%Q)
  /\ match roles info with
     | [] => multiplier info = 1%Q
     | first :: _ => (entry_multiplier first == multiplier info)%Q
     end.
Proof.
  intros info. subst info. rewrite getMultiplierInfo_unfold.
  set (boosts := contributing table member). simpl.
  pose proof (fold_max_spec (map entry_multiplier boosts) 1%Q)
    as (H1 & H2 & H3).
  pose proof (Array_sort_perm by_factor boosts) as Hperm.
  pose proof (Array_sort_descending boosts) as Hsorted.
  assert (Hgt : forall e, In e boosts -> (1 < entry_multiplier e)%Q)
    by (intros e He; eapply contributing_gt; exact He).
  split; [exact H1|]. split.
  - intros e He. apply Hgt. apply list_elem_of_In.
    rewrite <- Hperm. now apply list_elem_of_In.
  - destruct (Array_sort by_factor boosts) as [|first rest] eqn:Es.
    + apply Permutation_nil in Hperm. rewrite Hperm. reflexivity.
    + assert (Hin : In first boosts).
      { apply list_elem_of_In. rewrite <- Hperm. now left. }
      assert (Hle : (entry_multiplier first
                     <= fold_left Math_max (map entry_multiplier boosts) 1)%Q)
        by (apply H2; now apply in_map).
      assert (Hge : (fold_left Math_max (map entry_multiplier boosts) 1
                     <= entry_multiplier first)%Q).
      { destruct H3 as [E|Hm].
        - rewrite E. specialize (Hgt first Hin). lra.
        - apply in_map_iff in Hm. destruct Hm as (e & Ee & He).
          rewrite <- Ee.
          assert (He' : In e (first :: rest)).
          { apply list_elem_of_In. rewrite Hperm. now apply list_elem_of_In. }
          unfold descending in Hsorted.
          inversion Hsorted as [|? ? _ Hall]; subst.
          destruct He' as [<-|He']; [lra|].
          rewrite Forall_forall in Hall. apply Hall.
          now apply list_elem_of_In. }
      lra.
Qed.

End TotalBoost.

Section Pages.
Import ProfileView.
Open Scope Z_scope.

Lemma collect_enabled owner page i :
  1 <= page <= 2 ->
  negb (String.eqb (clicker i) owner) || enabled page i = true ->
  1 <= fst (collect owner page i) <= 2
  /\ snd (collect owner page i) <> RenderFails.
Proof.
  intros Hp He. unfold collect.
  destruct (String.eqb (clicker i) owner); simpl in *.
  2: { split; [lia | discriminate]. }
  unfold enabled, generateButtons, pages_length in He. simpl in He.
  unfold pages_length.
  destruct (String.eqb_spec (customId i) "prev_page") as [E1|E1];
    destruct (String.eqb_spec (customId i) "next_page") as [E2|E2];
    simpl in He; try congruence.
  - rewrite orb_false_r in He. apply negb_true_iff, Z.eqb_neq in He.
    assert (page = 2) by lia. subst page. simpl. split; [lia|discriminate].
  - apply negb_true_iff, Z.eqb_neq in He.
    assert (page = 1) by lia. subst page. simpl. split; [lia|discriminate].
Qed.

(** X27. Paging through the profile.  Starting on a page that exists, as
    long as every click of the owner is on a button that was enabled when
    it was shown (clicks of other users are refused and change nothing),
    the view stays on page 1 or 2 and every click finds a page to show.
    The listener itself does not check the bounds: a [prev_page] click of
    the owner that arrives on page 1 leaves the view on page 0 with
    nothing to show. *)
Theorem browse_stays_on_pages
    (owner : string) (page : Z) (clicks : list Click) :
  1 <= page <= 2 ->
  well_behaved owner page clicks = true ->
  1 <= fst (browse owner page clicks) <= 2
  /\ ~ In RenderFails (snd (browse owner page clicks))
  /\ collect owner 1 (mkClick owner "prev_page") = (0, RenderFails).
Proof.
  intros Hp Hw.
  assert (H : 1 <= fst (browse owner page clicks) <= 2
              /\ ~ In RenderFails (snd (browse owner page clicks))).
  { revert page Hp Hw.
    induction clicks as [|i rest IH]; intros page Hp Hw; simpl.
    - split; [lia | tauto].
    - simpl in Hw. apply andb_true_iff in Hw. destruct Hw as [He Hrest].
      destruct (collect_enabled owner page i Hp He) as [Hp1 Hs].
      destruct (collect owner page i) as [p s]; simpl in *.
      destruct (IH p Hp1 Hrest) as [Hq Hl].
      destruct (browse owner p rest) as [q l]; simpl in *.
      split; [exact Hq|]. intros [E|E]; [congruence | tauto]. }
  destruct H as [H1 H2]. split; [exact H1|]. split; [exact H2|].
  unfold collect. simpl. now rewrite String.eqb_refl.
Qed.

Lemma browse_stays_on_pages_witness :
  1 <= fst (browse "U1" 1
              [ mkClick "U1" "next_page"; mkClick "U2" "next_page";
                mkClick "U1" "prev_page" ]) <= 2.
Proof.
  exact (proj1 (browse_stays_on_pages "U1" 1
                  [ mkClick "U1" "next_page"; mkClick "U2" "next_page";
                    mkClick "U1" "prev_page" ]
                  ltac:(lia) eq_refl)).
Defined.

Example browse_sample :
  browse "U1" 1
    [ mkClick "U1" "next_page"; mkClick "U2" "next_page";
      mkClick "U1" "prev_page" ]
  = (1, [Page 2; Refused; Page 1]).
Proof. reflexivity. Qed.

End Pages.
